(** * pkg/hoist: the hoist launchable

    A shallow embedding of [pkg/hoist/hoist_launchable.go].  Pure code is
    written as Rocq functions.  Code that talks to the operating system, the
    supervisor, the cgroup subsystem or the fetcher is written in a small
    call monad: a program is a tree of calls whose answers are chosen by the
    environment, so every statement proved about a program holds whatever
    the collaborators answer.  Go's [panic] is a third outcome next to an
    ordinary return. *)

From Stdlib Require Import String Ascii List ZArith Lia Bool.
Import ListNotations.
Local Open Scope string_scope.

(** ** Go strings

    A Go string is a sequence of bytes; [len] counts bytes.  [string] of
    [ascii] is the same thing. *)

Definition len (s : string) : Z := Z.of_nat (String.length s).

(** [s[:hi]] for a string [s]: the slice expression panics unless
    [0 <= hi <= len(s)]. *)
Definition slice_to (s : string) (hi : Z) : option string :=
  if (hi <? 0)%Z || (len s <? hi)%Z then None
  else Some (substring 0 (Z.to_nat hi) s).

(** ** path/filepath (Unix)

    The lexical path functions of Go's standard library the launchable
    uses.  Go walks byte indices; here the same walks are written by
    recursion on the string, or on the elements between separators. *)

Module filepath.

Definition Separator : ascii := "/"%char.

Definition IsPathSeparator (c : ascii) : bool := Ascii.eqb c Separator.

(** [strings.Split(path, "/")]. *)
Fixpoint splitSeparator (path : string) : list string :=
  match path with
  | EmptyString => [EmptyString]
  | String c rest =>
      if IsPathSeparator c then EmptyString :: splitSeparator rest
      else match splitSeparator rest with
           | [] => [String c EmptyString]
           | e :: es => String c e :: es
           end
  end.

(** The loop [for len(path) > 0 && IsPathSeparator(path[len(path)-1])]
    of [Base]: drop the trailing separators. *)
Fixpoint stripTrailingSeparators (path : string) : string :=
  match path with
  | EmptyString => EmptyString
  | String c rest =>
      match stripTrailingSeparators rest with
      | EmptyString =>
          if IsPathSeparator c then EmptyString else String c EmptyString
      | kept => String c kept
      end
  end.

(** The downward scan [for i >= 0 && !IsPathSeparator(path[i]) { i-- }]:
    [Some path[i+1:]] when it stops on a separator, [None] when it runs
    off the front ([i = -1]). *)
Fixpoint afterLastSeparator (path : string) : option string :=
  match path with
  | EmptyString => None
  | String c rest =>
      match afterLastSeparator rest with
      | Some tail => Some tail
      | None => if IsPathSeparator c then Some rest else None
      end
  end.

(** [path[0:i+1]] for the same scan: everything up to and including the
    last separator, empty when there is none. *)
Fixpoint uptoLastSeparator (path : string) : string :=
  match path with
  | EmptyString => EmptyString
  | String c rest =>
      match afterLastSeparator rest with
      | Some _ => String c (uptoLastSeparator rest)
      | None => if IsPathSeparator c then String c EmptyString else EmptyString
      end
  end.

Definition Base (path : string) : string :=
  if path =? "" then "."
  else
    let path := stripTrailingSeparators path in
    let path := match afterLastSeparator path with
                | Some tail => tail
                | None => path
                end in
    if path =? "" then "/" else path.

(** The output buffer of [Clean]: the bytes written so far ([out.w] is
    their number) and [dotdot], the index where backtracking must stop. *)
Record lazybuf : Type := { buf : string; dotdot : nat }.

Definition bufw (b : lazybuf) : nat := String.length (buf b).

Definition separatorAt (s : string) (i : nat) : bool :=
  match String.get i s with
  | Some c => IsPathSeparator c
  | None => false
  end.

(** [for out.w > dotdot && !IsPathSeparator(out.index(out.w)) { out.w-- }] *)
Fixpoint backtrack (s : string) (stop : nat) (w : nat) : nat :=
  match w with
  | O => O
  | S w' =>
      if (stop <? w)%nat && negb (separatorAt s w) then backtrack s stop w'
      else w
  end.

(** One turn of the [switch] in [Clean], on the element that starts at the
    read index. *)
Definition cleanElement (rooted : bool) (b : lazybuf) (e : string) : lazybuf :=
  if e =? "" then b                       (* empty path element *)
  else if e =? "." then b                 (* . element *)
  else if e =? ".." then                  (* .. element *)
    if (dotdot b <? bufw b)%nat then
      {| buf := substring 0 (backtrack (buf b) (dotdot b) (bufw b - 1)) (buf b);
         dotdot := dotdot b |}
    else if negb rooted then
      let o := (if (0 <? bufw b)%nat then buf b ++ "/" else buf b) ++ ".." in
      {| buf := o; dotdot := String.length o |}
    else b
  else                                    (* real path element *)
    let o := if (rooted && negb (bufw b =? 1)%nat)
                || (negb rooted && negb (bufw b =? 0)%nat)
             then buf b ++ "/" else buf b in
    {| buf := o ++ e; dotdot := dotdot b |}.

Definition Clean (path : string) : string :=
  match path with
  | EmptyString => "."
  | String c _ =>
      let rooted := IsPathSeparator c in
      let start := if rooted then {| buf := "/"; dotdot := 1 |}
                   else {| buf := ""; dotdot := 0 |} in
      let b := fold_left (cleanElement rooted) (splitSeparator path) start in
      if (bufw b =? 0)%nat then "." else buf b
  end.

Fixpoint Join (elem : list string) : string :=
  match elem with
  | [] => ""
  | e :: rest =>
      if e =? "" then Join rest else Clean (String.concat "/" elem)
  end.

Definition Dir (path : string) : string := Clean (uptoLastSeparator path).

(** The elements [Rel] steps over: an element starts at every index below
    the length, so the empty string has none and a final separator opens
    no further one. *)
Definition elements (s : string) : list string :=
  if s =? "" then []
  else
    let es := splitSeparator s in
    if last es "x" =? "" then removelast es else es.

(** The positioning of [Rel]: step over the leading elements that [base]
    and [targ] share; what is left of each is returned. *)
Fixpoint relPosition (base targ : list string)
  : list string * list string :=
  match base, targ with
  | be :: base', te :: targ' =>
      if te =? be then relPosition base' targ' else (base, targ)
  | _, _ => (base, targ)
  end.

(** [Rel] returns [inr msg] for [errors.New(msg)].  Both paths are
    cleaned; equal paths give [.]; a cleaned [.] has no element; a rooted
    path and one that is not cannot be related.  After the elements they
    share, a base that goes on with [..] cannot be left lexically (the
    name of the directory to enter is not known); otherwise the result
    is one [..] for each element left of the base, then the elements
    left of the target. *)
Definition Rel (basepath targpath : string) : string + string :=
  let base := Clean basepath in
  let targ := Clean targpath in
  if targ =? base then inl "."
  else
    let base := if base =? "." then "" else base in
    let targ := if targ =? "." then "" else targ in
    let baseSlashed := prefix "/" base && negb (base =? "") in
    let targSlashed := prefix "/" targ && negb (targ =? "") in
    let cannot :=
      inr ("Rel: can't make " ++ targpath ++ " relative to " ++ basepath) in
    if negb (Bool.eqb baseSlashed targSlashed) then cannot
    else
      let '(baseLeft, targLeft) :=
        relPosition (elements base) (elements targ) in
      match baseLeft with
      | [] => inl (String.concat "/" targLeft)
      | be :: _ =>
          if be =? ".." then cannot
          else
            (* base elements left: go up before going down *)
            inl (String.concat "/"
                   (map (fun _ => "..") baseLeft ++ targLeft)%list)
      end.

End filepath.

(** ** Collaborator types

    The launchable's collaborators live in sibling packages.  Their types
    are written with the fields this file reads or fills in. *)

Module cgroups.
(** Declared in [pkg/cgroups]; the launchable passes the value on and reads
    its [Name] for an error message. *)
Record Config : Type := { Name : string }.
End cgroups.

Module runit.
Record Service : Type := { Path : string; Name : string }.
Record ServiceBuilder : Type := { RunitRoot : string }.
End runit.

Module tar.
(** [Mode] stands for [hdr.FileInfo().Mode()], the only use of the
    header's mode bits. *)
Record Header : Type :=
  { Name : string; Linkname : string; Typeflag : ascii; Mode : Z }.

Definition TypeReg : ascii := "0"%char.
Definition TypeRegA : ascii := "000"%char.
Definition TypeLink : ascii := "1"%char.
Definition TypeSymlink : ascii := "2"%char.
Definition TypeChar : ascii := "3"%char.
Definition TypeBlock : ascii := "4"%char.
Definition TypeDir : ascii := "5"%char.
Definition TypeFifo : ascii := "6"%char.
End tar.

(** ** Errors

    A Go [error] value.  [nil] is [None] of [option error]. *)

Inductive error : Type :=
| PathError (op path : string) (errno : Z)
    (* *os.PathError, *os.LinkError: a failed system call *)
| ExitError (status : Z)
    (* *exec.ExitError: the command ran and exited unsuccessfully *)
| errorString (msg : string)
    (* errors.New(msg) and any other error with no structure of interest *)
| SuperviseOkMissing
    (* the sentinel runit.SuperviseOkMissing *)
| Errorf (format : string) (args : list fmtarg)
    (* util.Errorf(format, args...) *)
with fmtarg : Type :=
| ArgString (s : string)
| ArgError (e : error)
| ArgByte (b : ascii)
| ArgHeader (h : tar.Header).

Module os.

Definition ENOENT : Z := 2.
Definition EEXIST : Z := 17.

Definition IsNotExist (err : error) : bool :=
  match err with
  | PathError _ _ errno => (errno =? ENOENT)%Z
  | _ => false
  end.

Definition IsExist (err : error) : bool :=
  match err with
  | PathError _ _ errno => (errno =? EEXIST)%Z
  | _ => false
  end.

Record FileInfo : Type := { Name : string; IsDir : bool }.

End os.

(** What a [tar.Reader] over the opened artifact delivers to successive
    [Next] calls: entries with their bytes, then [io.EOF] or a read error.
    The artifact is a file, so the sequence is finite. *)
Inductive tarReader : Type :=
| TarEOF
| TarError (err : error)
| TarEntry (hdr : tar.Header) (body : string) (rest : tarReader).

(** What [gzip.NewReader] makes of an opened file. *)
Definition gzipReader : Type := tarReader + error.

(** ** Launchable and Executable *)

(** [FetchToFile] is a callback; calling it is a call to the environment
    (see [FetchToFile] below), so the record carries no field for it. *)
Record Launchable : Type :=
  { Location : string;
    Id : string;
    RunAs : string;
    ConfigDir : string;
    RootDir : string;
    Chpst : string;
    Cgexec : string;
    CgroupConfig : cgroups.Config }.

Record Executable : Type :=
  { Service : runit.Service;
    ExecPath : string;
    exe_Chpst : string;
    exe_Cgexec : string;
    exe_CgroupConfig : cgroups.Config;
    Nolimit : string;
    exe_RunAs : string;
    exe_ConfigDir : string }.

(** ** Calls to the environment

    [call X] is a request whose answer has type [X].  A pair of a value
    and an error is Go's [(value, err)]; a sum is used where the value is
    only read when [err == nil]. *)

Inductive call : Type -> Type :=
| os_Stat (path : string) : call (os.FileInfo + error)
| ioutil_ReadDir (path : string) : call (list os.FileInfo + error)
| ioutil_TempDir (dir prefix : string) : call (string + error)
| os_RemoveAll (path : string) : call (option error)
| os_Symlink (oldname newname : string) : call (option error)
| os_Lchown (path : string) (uid gid : Z) : call (option error)
| os_Chown (path : string) (uid gid : Z) : call (option error)
| os_Rename (oldpath newpath : string) : call (option error)
| os_Mkdir (path : string) (mode : Z) : call (option error)
| os_Open (path : string) : call (gzipReader + error)
| os_OpenFile (path : string) (mode : Z) : call (option error)
| File_Chown (path : string) (uid gid : Z) : call (option error)
| io_Copy (path : string) (body : string) : call (option error)
| File_Close (path : string) : call (option error)
| user_IDs (name : string) : call (Z * Z + error)
| util_MkdirChownAll (path : string) (uid gid : Z) (mode : Z) : call (option error)
| FetchToFile (location path : string) : call (option error)
| cgroups_Write (config : cgroups.Config) : call (option error)
| sv_Restart (service : runit.Service) : call (string * option error)
| sv_Stop (service : runit.Service) : call (string * option error)
| cmd_Run (name : string) (args : list string) : call (string * option error).

(** ** Programs *)

Inductive prog (A : Type) : Type :=
| Ret (a : A)
| Panic (msg : string)
| Call {X : Type} (c : call X) (k : X -> prog A).

Arguments Ret {A} a.
Arguments Panic {A} msg.
Arguments Call {A X} c k.

Fixpoint bind {A B : Type} (p : prog A) (f : A -> prog B) : prog B :=
  match p with
  | Ret a => f a
  | Panic msg => Panic msg
  | Call c k => Call c (fun x => bind (k x) f)
  end.

Definition do {X : Type} (c : call X) : prog X := Call c Ret.

Notation "x <- p ;; q" := (bind p (fun x => q))
  (at level 61, p at next level, right associativity).
Notation "' pat <- p ;; q" := (bind p (fun x => match x with pat => q end))
  (at level 61, pat pattern, p at next level, right associativity).

(** [defer cleanup; body]: the deferred call runs when the function
    leaves, by return or by panic, after the calls of [body] (and so after
    the calls deferred later). *)
Fixpoint defer {A : Type} (cleanup : prog unit) (body : prog A) : prog A :=
  match body with
  | Ret a => _ <- cleanup ;; Ret a
  | Panic msg => _ <- cleanup ;; Panic msg
  | Call c k => Call c (fun x => defer cleanup (k x))
  end.

(** ** Running a program

    An environment is a state and a function that answers each call. *)

Inductive event : Type :=
| Event {X : Type} (c : call X) (answer : X).

Inductive outcome (A : Type) : Type :=
| Returned (a : A)
| Panicked (msg : string).

Arguments Returned {A} a.
Arguments Panicked {A} msg.

Definition handler (S : Type) : Type := forall X : Type, call X -> S -> X * S.

Fixpoint run {S A : Type} (h : handler S) (p : prog A) (s : S)
  : outcome A * list event * S :=
  match p with
  | Ret a => (Returned a, [], s)
  | Panic msg => (Panicked msg, [], s)
  | Call c k =>
      let '(x, s1) := h _ c s in
      let '(o, t, s2) := run h (k x) s1 in
      (o, Event c x :: t, s2)
  end.

(** ** The launchable's methods *)

(** [err != nil && cond(err)]: the error when the test holds. *)
Definition notNilAnd (cond : error -> bool) (err : option error)
  : option error :=
  match err with
  | Some e => if cond e then Some e else None
  | None => None
  end.

(** What the Go runtime says when a slice bound is out of range. *)
Definition slicePanic : string := "runtime error: slice bounds out of range".

(** The version of the artifact is derived from the location, using the
    naming scheme [<the-app>_<unique-version-string>.tar.gz]. *)
Definition Version (hl : Launchable) : prog string :=
  let fileName := filepath.Base (Location hl) in
  match slice_to fileName (len fileName - len ".tar.gz") with
  | Some version => Ret version
  | None => Panic slicePanic
  end.

Definition InstallDir (hl : Launchable) : prog string :=
  launchableName <- Version hl ;;
  Ret (filepath.Join [RootDir hl; "installs"; launchableName]).

Definition Installed (hl : Launchable) : prog bool :=
  installDir <- InstallDir hl ;;
  r <- do (os_Stat installDir) ;;
  Ret (match r with inl _ => true | inr _ => false end).

Definition invokeBinScript (hl : Launchable) (script : string)
  : prog (string * option error) :=
  installDir <- InstallDir hl ;;
  let cmdPath := filepath.Join [installDir; "bin"; script] in
  r <- do (os_Stat cmdPath) ;;
  match r with
  | inr err => Ret ("", Some err)
  | inl _ =>
      '(output, err) <-
        do (cmd_Run (Chpst hl) ["-u"; RunAs hl; "-e"; ConfigDir hl; cmdPath]) ;;
      match err with
      | Some e => Ret (output, Some e)
      | None => Ret (output, None)
      end
  end.

Definition PostActivate (hl : Launchable) : prog (string * option error) :=
  '(output, err) <- invokeBinScript hl "post-activate" ;;
  (* providing a post-activate script is optional, ignore those errors *)
  match err with
  | Some e => if negb (os.IsNotExist e) then Ret (output, Some e)
              else Ret (output, None)
  | None => Ret (output, None)
  end.

Definition Disable (hl : Launchable) : prog (string * option error) :=
  '(output, err) <- invokeBinScript hl "disable" ;;
  (* providing a disable script is optional, ignore those errors *)
  match err with
  | Some e => if negb (os.IsNotExist e) then Ret (output, Some e)
              else Ret (output, None)
  | None => Ret (output, None)
  end.

Definition Enable (hl : Launchable) : prog (string * option error) :=
  '(output, err) <- invokeBinScript hl "enable" ;;
  (* providing an enable script is optional, ignore those errors *)
  match err with
  | Some e => if negb (os.IsNotExist e) then Ret (output, Some e)
              else Ret (output, None)
  | None => Ret (output, None)
  end.

Definition Executables (hl : Launchable) (serviceBuilder : runit.ServiceBuilder)
  : prog (list Executable * option error) :=
  installed <- Installed hl ;;
  if negb installed then
    Ret ([], Some (Errorf "%s is not installed" [ArgString (Id hl)]))
  else
    installDir <- InstallDir hl ;;
    let binLaunchPath := filepath.Join [installDir; "bin"; "launch"] in
    r <- do (os_Stat binLaunchPath) ;;
    match r with
    | inr err => Ret ([], Some (Errorf "%s" [ArgError err]))
    | inl binLaunchInfo =>
        (* we support bin/launch being a file, or a directory *)
        listing <-
          (if os.IsDir binLaunchInfo then
             r <- do (ioutil_ReadDir binLaunchPath) ;;
             Ret (binLaunchPath, r)
           else
             Ret (filepath.Dir binLaunchPath, inl [binLaunchInfo])) ;;
        match listing with
        | (_, inr err) => Ret ([], Some err)
        | (serviceDir, inl services) =>
            Ret (map (fun service =>
                        let serviceName :=
                          Id hl ++ "__" ++ os.Name service in
                        {| Service :=
                             {| runit.Path :=
                                  filepath.Join
                                    [runit.RunitRoot serviceBuilder;
                                     serviceName];
                                runit.Name := serviceName |};
                           ExecPath :=
                             filepath.Join [serviceDir; os.Name service];
                           exe_Chpst := Chpst hl;
                           exe_Cgexec := Cgexec hl;
                           exe_CgroupConfig := CgroupConfig hl;
                           Nolimit := "/usr/bin/nolimit";
                           exe_RunAs := RunAs hl;
                           exe_ConfigDir := ConfigDir hl |})
                     services,
                 None)
        end
    end.

(** The body of the [for ... range executables] loop of [Stop]. *)
Fixpoint stopEach (executables : list Executable) : prog (option error) :=
  match executables with
  | [] => Ret None
  | executable :: rest =>
      '(_, err) <- do (sv_Stop (Service executable)) ;;
      match err with
      | Some e => Ret (Some e)
      | None => stopEach rest
      end
  end.

Definition Stop (hl : Launchable) (serviceBuilder : runit.ServiceBuilder)
  : prog (option error) :=
  '(executables, err) <- Executables hl serviceBuilder ;;
  match err with
  | Some e => Ret (Some e)
  | None => stopEach executables
  end.

(** The body of the [for ... range executables] loop of [Start]:
    [if err != runit.SuperviseOkMissing { return err }]. *)
Fixpoint startEach (executables : list Executable) : prog (option error) :=
  match executables with
  | [] => Ret None
  | executable :: rest =>
      '(_, err) <- do (sv_Restart (Service executable)) ;;
      match err with
      | Some SuperviseOkMissing => startEach rest
      | _ => Ret err
      end
  end.

(** Start will take a launchable and start every runit service associated
    with the launchable.  All services will attempt to be started. *)
Definition Start (hl : Launchable) (serviceBuilder : runit.ServiceBuilder)
  : prog (option error) :=
  '(executables, err) <- Executables hl serviceBuilder ;;
  match err with
  | Some e => Ret (Some e)
  | None => startEach executables
  end.

Definition Launch (hl : Launchable) (serviceBuilder : runit.ServiceBuilder)
  : prog (option error) :=
  err <- do (cgroups_Write (CgroupConfig hl)) ;;
  match err with
  | Some e =>
      Ret (Some (Errorf "Could not configure cgroup %s: %s"
                   [ArgString (cgroups.Name (CgroupConfig hl)); ArgError e]))
  | None =>
      err <- Start hl serviceBuilder ;;
      match err with
      | Some e =>
          Ret (Some (Errorf "Could not launch %s: %s"
                       [ArgString (Id hl); ArgError e]))
      | None =>
          '(_, err) <- Enable hl ;;
          Ret err
      end
  end.

Definition CurrentDir (hl : Launchable) : string :=
  filepath.Join [RootDir hl; "current"].

Definition LastDir (hl : Launchable) : string :=
  filepath.Join [RootDir hl; "last"].

Definition flipSymlink (hl : Launchable) (newLinkPath : string)
  : prog (option error) :=
  r <- do (ioutil_TempDir (RootDir hl) (Id hl)) ;;
  match r with
  | inr err =>
      Ret (Some (Errorf "Couldn't create temporary directory for symlink: %s"
                   [ArgError err]))
  | inl dir =>
      defer (_ <- do (os_RemoveAll dir) ;; Ret tt)
        (let tempLinkPath := filepath.Join [dir; Id hl] in
         installDir <- InstallDir hl ;;
         err <- do (os_Symlink installDir tempLinkPath) ;;
         match err with
         | Some e =>
             Ret (Some (Errorf
                          "Couldn't create symlink for hoist launchable %s: %s"
                          [ArgString (Id hl); ArgError e]))
         | None =>
             ids <- do (user_IDs (RunAs hl)) ;;
             match ids with
             | inr e =>
                 Ret (Some (Errorf
                   "Couldn't retrieve UID/GID for hoist launchable %s user %s: %s"
                   [ArgString (Id hl); ArgString (RunAs hl); ArgError e]))
             | inl (uid, gid) =>
                 err <- do (os_Lchown tempLinkPath uid gid) ;;
                 match err with
                 | Some e =>
                     Ret (Some (Errorf
                       "Couldn't lchown symlink for hoist launchable %s: %s"
                       [ArgString (Id hl); ArgError e]))
                 | None => do (os_Rename tempLinkPath newLinkPath)
                 end
             end
         end)
  end.

Definition MakeCurrent (hl : Launchable) : prog (option error) :=
  flipSymlink hl (CurrentDir hl).

Definition MakeLast (hl : Launchable) : prog (option error) :=
  flipSymlink hl (LastDir hl).

Definition Halt (hl : Launchable) (serviceBuilder : runit.ServiceBuilder)
  : prog (option error) :=
  '(_, err) <- Disable hl ;;
  match err with
  | Some e => Ret (Some e)
  | None =>
      err <- Stop hl serviceBuilder ;;
      match err with
      | Some e => Ret (Some e)
      | None => MakeLast hl
      end
  end.

(** The [for] loop of [extractTarGz] over the entries still to come.
    [name] is [fp.Name()]. *)
Fixpoint extractEntries (hl : Launchable) (name dest : string) (uid gid : Z)
    (tr : tarReader) : prog (option error) :=
  match tr with
  | TarEOF => Ret None
  | TarError err =>
      Ret (Some (Errorf "Unable to read %s: %s" [ArgString name; ArgError err]))
  | TarEntry hdr body rest =>
      let fpath := filepath.Join [dest; tar.Name hdr] in
      let flag := tar.Typeflag hdr in
      if Ascii.eqb flag tar.TypeSymlink then
        err <- do (os_Symlink (tar.Linkname hdr) fpath) ;;
        match err with
        | Some e =>
            Ret (Some (Errorf
              "Unable to create destination symlink %s (to %s) when unpacking %s: %s"
              [ArgString fpath; ArgString (tar.Linkname hdr); ArgString name;
               ArgError e]))
        | None => extractEntries hl name dest uid gid rest
        end
      else if Ascii.eqb flag tar.TypeLink then
        (* hardlink paths are encoded relative to the tarball root, rather
           than the path of the link itself, so we need to resolve that
           path *)
        match filepath.Rel (filepath.Dir (tar.Name hdr)) (tar.Linkname hdr) with
        | inr msg =>
            Ret (Some (Errorf
              "Unable to resolve relative path for hardlink %s (to %s) when unpacking %s: %s"
              [ArgString fpath; ArgString (tar.Linkname hdr); ArgString name;
               ArgError (errorString msg)]))
        | inl linkTarget =>
            (* we can't make the hardlink right away because the target
               might not exist, so we'll just make a symlink instead *)
            err <- do (os_Symlink linkTarget fpath) ;;
            match err with
            | Some e =>
                Ret (Some (Errorf
                  "Unable to create destination symlink %s (resolved %s to %s) when unpacking %s: %s"
                  [ArgString fpath; ArgString linkTarget;
                   ArgString (tar.Linkname hdr); ArgString name; ArgError e]))
            | None => extractEntries hl name dest uid gid rest
            end
        end
      else if Ascii.eqb flag tar.TypeDir then
        err <- do (os_Mkdir fpath (tar.Mode hdr)) ;;
        match notNilAnd (fun e => negb (os.IsExist e)) err with
        | Some e =>
            Ret (Some (Errorf
              "Unable to create destination directory %s when unpacking %s: %s"
              [ArgString fpath; ArgString name; ArgError e]))
        | None =>
            err <- do (os_Chown fpath uid gid) ;;
            match err with
            | Some e =>
                Ret (Some (Errorf
                  "Unable to chown destination directory %s to %s when unpacking %s: %s"
                  [ArgString fpath; ArgString (RunAs hl); ArgString name;
                   ArgError e]))
            | None => extractEntries hl name dest uid gid rest
            end
        end
      else if Ascii.eqb flag tar.TypeReg || Ascii.eqb flag tar.TypeRegA then
        err <- do (os_OpenFile fpath (tar.Mode hdr)) ;;
        match err with
        | Some e =>
            Ret (Some (Errorf
              "Unable to open destination file %s when unpacking %s: %s"
              [ArgString fpath; ArgString name; ArgError e]))
        | None =>
            defer (_ <- do (File_Close fpath) ;; Ret tt)
              (err <- do (File_Chown fpath uid gid) ;;
               match err with
               | Some e =>
                   Ret (Some (Errorf
                     "Unable to chown destination file %s to %s when unpacking %s: %s"
                     [ArgString fpath; ArgString (RunAs hl); ArgString name;
                      ArgError e]))
               | None =>
                   err <- do (io_Copy fpath body) ;;
                   match err with
                   | Some e =>
                       Ret (Some (Errorf
                         "Unable to copy into destination file %s when unpacking %s: %s"
                         [ArgString fpath; ArgString name; ArgError e]))
                   | None =>
                       (* eagerly release file descriptors *)
                       _ <- do (File_Close fpath) ;;
                       extractEntries hl name dest uid gid rest
                   end
               end)
        end
      else
        Ret (Some (Errorf "Unhandled type flag %q (header %v) when unpacking %s"
                     [ArgByte flag; ArgHeader hdr; ArgString name]))
  end.

(** [fp] is what [gzip.NewReader] makes of the opened file and [name] is
    [fp.Name()].  The deferred [fz.Close()] calls nothing outside the
    process and is left out. *)
Definition extractTarGz (hl : Launchable) (name : string) (fp : gzipReader)
    (dest : string) : prog (option error) :=
  match fp with
  | inr err =>
      Ret (Some (Errorf "Unable to create gzip reader: %s" [ArgError err]))
  | inl tr =>
      ids <- do (user_IDs (RunAs hl)) ;;
      match ids with
      | inr err => Ret (Some err)
      | inl (uid, gid) =>
          err <- do (util_MkdirChownAll dest uid gid 493) ;;
          match err with
          | Some e =>
              Ret (Some (Errorf
                "Unable to create root directory %s when unpacking %s: %s"
                [ArgString dest; ArgString name; ArgError e]))
          | None =>
              err <- do (os_Chown dest uid gid) ;;
              match err with
              | Some e =>
                  Ret (Some (Errorf
                    "Unable to chown root directory %s to %s when unpacking %s: %s"
                    [ArgString dest; ArgString (RunAs hl); ArgString name;
                     ArgError e]))
              | None => extractEntries hl name dest uid gid tr
              end
          end
      end
  end.

Definition Install (hl : Launchable) : prog (option error) :=
  installed <- Installed hl ;;
  if installed then
    (* install is idempotent, no-op if already installed *)
    Ret None
  else
    version <- Version hl ;;
    r <- do (ioutil_TempDir "" version) ;;
    let outDir := match r with inl dir => dir | inr _ => "" end in
    defer (_ <- do (os_RemoveAll outDir) ;; Ret tt)
      (match r with
       | inr err =>
           version <- Version hl ;;
           Ret (Some (Errorf
             "Could not create temporary directory to install %s: %s"
             [ArgString version; ArgError err]))
       | inl _ =>
           version <- Version hl ;;
           let outPath := filepath.Join [outDir; version] in
           err <- do (FetchToFile (Location hl) outPath) ;;
           match err with
           | Some e => Ret (Some e)
           | None =>
               r <- do (os_Open outPath) ;;
               match r with
               | inr e => Ret (Some e)
               | inl fd =>
                   defer (_ <- do (File_Close outPath) ;; Ret tt)
                     (installDir <- InstallDir hl ;;
                      err <- extractTarGz hl outPath fd installDir ;;
                      match err with
                      | Some e => Ret (Some e)
                      | None => Ret None
                      end)
               end
           end
       end).

(** ** Reading traces *)

Definition outcome_of {S A : Type} (r : outcome A * list event * S) : outcome A :=
  fst (fst r).

Definition trace_of {S A : Type} (r : outcome A * list event * S) : list event :=
  snd (fst r).

Definition state_of {S A : Type} (r : outcome A * list event * S) : S :=
  snd r.

(** The answer an environment gives to one call, and the state it moves
    to. *)
Definition answer {S X : Type} (h : handler S) (c : call X) (s : S) : X :=
  fst (h X c s).

Definition after {S X : Type} (h : handler S) (c : call X) (s : S) : S :=
  snd (h X c s).

(** The entries of an archive, in order. *)
Fixpoint entries (tr : tarReader) : list tar.Header :=
  match tr with
  | TarEOF => []
  | TarError _ => []
  | TarEntry hdr _ rest => hdr :: entries rest
  end.

(** The type flags [extractTarGz] has a case for. *)
Definition handledTypeflag (flag : ascii) : bool :=
  Ascii.eqb flag tar.TypeSymlink || Ascii.eqb flag tar.TypeLink
  || Ascii.eqb flag tar.TypeDir || Ascii.eqb flag tar.TypeReg
  || Ascii.eqb flag tar.TypeRegA.

(** ** Sample hosts

    Concrete launchables and environments, used to run the programs. *)

Definition myapp : Launchable :=
  {| Location := "http://repo/artifacts/myapp_1.2.3.tar.gz";
     Id := "myapp";
     RunAs := "app";
     ConfigDir := "/etc/myapp";
     RootDir := "/data/pods/myapp";
     Chpst := "/usr/bin/chpst";
     Cgexec := "/usr/bin/cgexec";
     CgroupConfig := {| cgroups.Name := "myapp" |} |}.

Definition shortName : Launchable :=
  {| Location := "x.gz";
     Id := "x";
     RunAs := "app";
     ConfigDir := "/etc/x";
     RootDir := "/data/pods/x";
     Chpst := "/usr/bin/chpst";
     Cgexec := "/usr/bin/cgexec";
     CgroupConfig := {| cgroups.Name := "x" |} |}.

Definition runitRoot : runit.ServiceBuilder :=
  {| runit.RunitRoot := "/var/service" |}.

(** A host where every call succeeds: every path exists, as a plain file
    when it lies in a [bin] directory and as a directory otherwise;
    directories are empty; commands print nothing and exit with 0. *)
Definition allGood (X : Type) (c : call X) : X :=
  match c in call X0 return X0 with
  | os_Stat path =>
      inl {| os.Name := filepath.Base path;
             os.IsDir := negb (filepath.Base (filepath.Dir path) =? "bin") |}
  | ioutil_ReadDir _ => inl []
  | ioutil_TempDir dir prefix =>
      (* an empty [dir] stands for [os.TempDir()] *)
      inl (filepath.Join [if dir =? "" then "/tmp" else dir; prefix ++ "042"])
  | os_RemoveAll _ => None
  | os_Symlink _ _ => None
  | os_Lchown _ _ _ => None
  | os_Chown _ _ _ => None
  | os_Rename _ _ => None
  | os_Mkdir _ _ => None
  | os_Open _ => inl (inl TarEOF)
  | os_OpenFile _ _ => None
  | File_Chown _ _ _ => None
  | io_Copy _ _ => None
  | File_Close _ => None
  | user_IDs _ => inl (1000%Z, 1000%Z)
  | util_MkdirChownAll _ _ _ _ => None
  | FetchToFile _ _ => None
  | cgroups_Write _ => None
  | sv_Restart _ => ("", None)
  | sv_Stop _ => ("", None)
  | cmd_Run _ _ => ("", None)
  end.

(** An environment without state, from a table of answers. *)
Definition stateless (table : forall X : Type, call X -> X) : handler unit :=
  fun X c s => (table X c, s).

Definition noSuchFile (op path : string) : error := PathError op path os.ENOENT.

(** A host on which nothing is installed: every [Stat] says the path does
    not exist. *)
Definition nothingInstalled (X : Type) (c : call X) : X :=
  match c in call X0 return X0 with
  | os_Stat path => inr (noSuchFile "stat" path)
  | c0 => allGood _ c0
  end.

(** A host where [bin/launch] is a directory holding [web] and [worker],
    and the supervisor restarts whatever it is asked to. *)
Definition twoServices (X : Type) (c : call X) : X :=
  match c in call X0 return X0 with
  | os_Stat path => inl {| os.Name := filepath.Base path; os.IsDir := true |}
  | ioutil_ReadDir _ =>
      inl [ {| os.Name := "web"; os.IsDir := false |};
            {| os.Name := "worker"; os.IsDir := false |} ]
  | c0 => allGood _ c0
  end.

(** The same host before the supervisor has picked the services up: every
    restart finds the [supervise/ok] file missing. *)
Definition notSupervisedYet (X : Type) (c : call X) : X :=
  match c in call X0 return X0 with
  | sv_Restart _ => ("", Some SuperviseOkMissing)
  | c0 => twoServices _ c0
  end.

(** A host whose [chpst] binary is not where the launchable says it is:
    starting the command fails with [fork/exec <path>: no such file or
    directory], a [*os.PathError] that [os.IsNotExist] accepts. *)
Definition chpstMissing (X : Type) (c : call X) : X :=
  match c in call X0 return X0 with
  | cmd_Run name _ => ("", Some (noSuchFile "fork/exec" name))
  | c0 => allGood _ c0
  end.

(** A host whose hook scripts print a line and exit with status 1. *)
Definition hooksFail (X : Type) (c : call X) : X :=
  match c in call X0 return X0 with
  | cmd_Run _ _ => ("enable: cannot register", Some (ExitError 1))
  | c0 => allGood _ c0
  end.

(** A host that refuses the cgroup configuration. *)
Definition cgroupBroken (X : Type) (c : call X) : X :=
  match c in call X0 return X0 with
  | cgroups_Write _ => Some (errorString "open /cgroup/cpu/myapp: permission denied")
  | c0 => twoServices _ c0
  end.

(** The executable [Executables] derives for [myapp] from the entry
    [name] of a [bin/launch] directory. *)
Definition myappExecutable (name : string) : Executable :=
  {| Service := {| runit.Path := "/var/service/myapp__" ++ name;
                   runit.Name := "myapp__" ++ name |};
     ExecPath := "/data/pods/myapp/installs/myapp_1.2.3/bin/launch/" ++ name;
     exe_Chpst := "/usr/bin/chpst";
     exe_Cgexec := "/usr/bin/cgexec";
     exe_CgroupConfig := {| cgroups.Name := "myapp" |};
     Nolimit := "/usr/bin/nolimit";
     exe_RunAs := "app";
     exe_ConfigDir := "/etc/myapp" |}.

(** A host whose supervisor cannot be reached. *)
Definition supervisorDown (X : Type) (c : call X) : X :=
  match c in call X0 return X0 with
  | sv_Restart _ =>
      ("", Some (errorString "unable to open supervise/control"))
  | c0 => twoServices _ c0
  end.

(** The services a trace asks the supervisor to restart, in order. *)
Fixpoint restarted (t : list event) : list runit.Service :=
  match t with
  | [] => []
  | Event c _ :: rest =>
      match c with
      | sv_Restart service => service :: restarted rest
      | _ => restarted rest
      end
  end.

(** What the three hook methods make of the result of [invokeBinScript]:
    an error that [os.IsNotExist] accepts becomes [nil], whichever call
    it came from. *)
Definition swallowNotExist (r : string * option error) : string * option error :=
  match r with
  | (output, Some e) => if os.IsNotExist e then (output, None) else (output, Some e)
  | (output, None) => (output, None)
  end.

(** The three optional hooks, each with the name of its script. *)
Definition hooks (hl : Launchable)
  : list (string * prog (string * option error)) :=
  [("enable", Enable hl); ("disable", Disable hl);
   ("post-activate", PostActivate hl)].

(** ** The pointer flip, step by step

    The calls [flipSymlink] makes between creating the temporary directory
    [dir] and removing it, with the outcome each run ends in.  The link is
    made and given to the run-as user at [dir/<id>]; the pointer path is
    named by one call only, the rename that ends the last case. *)
Inductive flipSteps (hl : Launchable) (newLinkPath dir : string)
  : list event -> outcome (option error) -> Prop :=
| flip_panics (msg : string) :
    InstallDir hl = Panic msg ->
    flipSteps hl newLinkPath dir [] (Panicked msg)
| flip_symlink_fails (installDir : string) (e : error) :
    InstallDir hl = Ret installDir ->
    flipSteps hl newLinkPath dir
      [Event (os_Symlink installDir (filepath.Join [dir; Id hl])) (Some e)]
      (Returned (Some (Errorf
         "Couldn't create symlink for hoist launchable %s: %s"
         [ArgString (Id hl); ArgError e])))
| flip_ids_fail (installDir : string) (e : error) :
    InstallDir hl = Ret installDir ->
    flipSteps hl newLinkPath dir
      [Event (os_Symlink installDir (filepath.Join [dir; Id hl])) None;
       Event (user_IDs (RunAs hl)) (inr e)]
      (Returned (Some (Errorf
         "Couldn't retrieve UID/GID for hoist launchable %s user %s: %s"
         [ArgString (Id hl); ArgString (RunAs hl); ArgError e])))
| flip_lchown_fails (installDir : string) (uid gid : Z) (e : error) :
    InstallDir hl = Ret installDir ->
    flipSteps hl newLinkPath dir
      [Event (os_Symlink installDir (filepath.Join [dir; Id hl])) None;
       Event (user_IDs (RunAs hl)) (inl (uid, gid));
       Event (os_Lchown (filepath.Join [dir; Id hl]) uid gid) (Some e)]
      (Returned (Some (Errorf
         "Couldn't lchown symlink for hoist launchable %s: %s"
         [ArgString (Id hl); ArgError e])))
| flip_renames (installDir : string) (uid gid : Z) (renamed : option error) :
    InstallDir hl = Ret installDir ->
    flipSteps hl newLinkPath dir
      [Event (os_Symlink installDir (filepath.Join [dir; Id hl])) None;
       Event (user_IDs (RunAs hl)) (inl (uid, gid));
       Event (os_Lchown (filepath.Join [dir; Id hl]) uid gid) None;
       Event (os_Rename (filepath.Join [dir; Id hl]) newLinkPath) renamed]
      (Returned renamed).

(** A run of a pointer flip onto [newLinkPath]: either no temporary
    directory could be made and nothing else was called, or the calls are
    the creation of [dir], the steps above, and the removal of [dir]. *)
Definition pointerFlip {S : Type} (h : handler S) (s : S) (hl : Launchable)
    (newLinkPath : string) (p : prog (option error)) : Prop :=
  let mktemp := ioutil_TempDir (RootDir hl) (Id hl) in
  match answer h mktemp s with
  | inr e =>
      run h p s =
        (Returned (Some (Errorf
           "Couldn't create temporary directory for symlink: %s" [ArgError e])),
         [Event mktemp (inr e)],
         after h mktemp s)
  | inl dir =>
      exists steps cleanup,
        trace_of (run h p s) =
          (Event mktemp (inl dir) :: steps
             ++ [Event (os_RemoveAll dir) cleanup])%list /\
        flipSteps hl newLinkPath dir steps (outcome_of (run h p s))
  end.

(** The paths a trace renames onto. *)
Fixpoint renamedOnto (t : list event) : list string :=
  match t with
  | [] => []
  | Event c _ :: rest =>
      match c with
      | os_Rename _ newpath => newpath :: renamedOnto rest
      | _ => renamedOnto rest
      end
  end.

(** A run renames nothing and does not succeed, or it renames once, onto
    [newLinkPath]. *)
Definition renamesOnce {S : Type} (h : handler S) (s : S)
    (newLinkPath : string) (p : prog (option error)) : Prop :=
  (renamedOnto (trace_of (run h p s)) = [] /\
   outcome_of (run h p s) <> Returned None) \/
  renamedOnto (trace_of (run h p s)) = [newLinkPath].

(** What the first successful [os.Open] of a trace delivered. *)
Fixpoint opened (t : list event) : option gzipReader :=
  match t with
  | [] => None
  | Event c x :: rest =>
      match c in call X return X -> option gzipReader with
      | os_Open _ => fun x =>
          match x with
          | inl fd => Some fd
          | inr _ => opened rest
          end
      | _ => fun _ => opened rest
      end x
  end.

(** An archive entry that is a hardlink named [a/c/link] to [a/b/target],
    and one that is a FIFO. *)
Definition hardlinkEntry : tar.Header :=
  {| tar.Name := "a/c/link"; tar.Linkname := "a/b/target";
     tar.Typeflag := tar.TypeLink; tar.Mode := 420 |}.

Definition fifoEntry : tar.Header :=
  {| tar.Name := "run/control"; tar.Linkname := "";
     tar.Typeflag := tar.TypeFifo; tar.Mode := 420 |}.

Definition binDirEntry : tar.Header :=
  {| tar.Name := "bin"; tar.Linkname := "";
     tar.Typeflag := tar.TypeDir; tar.Mode := 493 |}.

(** A host with nothing installed whose fetched artifact holds a
    directory and then a FIFO. *)
Definition fifoArtifact (X : Type) (c : call X) : X :=
  match c in call X0 return X0 with
  | os_Open _ =>
      inl (inl (TarEntry binDirEntry "" (TarEntry fifoEntry "" TarEOF)))
  | c0 => nothingInstalled _ c0
  end.

(** An archive [extractTarGz] can unpack: it ends at [io.EOF], every entry
    has a type with a case in the [switch], and every hardlink has a link
    name [Rel] can take relative to the directory of its name. *)
Fixpoint extractable (tr : tarReader) : bool :=
  match tr with
  | TarEOF => true
  | TarError _ => false
  | TarEntry hdr _ rest =>
      handledTypeflag (tar.Typeflag hdr)
      && (if Ascii.eqb (tar.Typeflag hdr) tar.TypeLink then
            match filepath.Rel (filepath.Dir (tar.Name hdr)) (tar.Linkname hdr) with
            | inl _ => true
            | inr _ => false
            end
          else true)
      && extractable rest
  end.

(** A host with a disk: the state is the list of paths that exist.  The
    calls that create a path add it, [os.RemoveAll] drops a path and what
    lies below it, a rename moves a path, and a stat succeeds for the
    paths that are there.  The fetched artifact unpacks as [artifact]. *)
Definition present (disk : list string) (path : string) : bool :=
  existsb (String.eqb path) disk.

Definition below (dir path : string) : bool :=
  (path =? dir) || prefix (dir ++ "/") path.

Definition onDisk (artifact : tarReader) : handler (list string) :=
  fun X c =>
    match c in call X0 return list string -> X0 * list string with
    | os_Stat path => fun disk =>
        (if present disk path
         then inl {| os.Name := filepath.Base path; os.IsDir := true |}
         else inr (noSuchFile "stat" path),
         disk)
    | ioutil_TempDir dir prefix => fun disk =>
        let made :=
          filepath.Join [if dir =? "" then "/tmp" else dir; prefix ++ "042"] in
        (inl made, made :: disk)
    | os_RemoveAll path => fun disk =>
        (None, filter (fun p => negb (below path p)) disk)
    | os_Symlink _ newname => fun disk => (None, newname :: disk)
    | os_Rename oldpath newpath => fun disk =>
        (None,
         newpath :: filter (fun p => negb (p =? oldpath) && negb (p =? newpath))
                      disk)
    | os_Mkdir path _ => fun disk => (None, path :: disk)
    | os_Open _ => fun disk => (inl (inl artifact), disk)
    | os_OpenFile path _ => fun disk => (None, path :: disk)
    | util_MkdirChownAll path _ _ _ => fun disk => (None, path :: disk)
    | FetchToFile _ path => fun disk => (None, path :: disk)
    | c0 => fun disk => (allGood _ c0, disk)
    end.

(** An artifact with a [bin] directory and a hardlink. *)
Definition smallArtifact : tarReader :=
  TarEntry binDirEntry "" (TarEntry hardlinkEntry "" TarEOF).

(** ** AppManifest *)

(** [os.IsNotExist(err)] for the [err] of a stat; [nil] is not such an
    error. *)
Definition statNotExist {A : Type} (r : A + error) : bool :=
  match r with
  | inl _ => false
  | inr err => os.IsNotExist err
  end.

(** [AppManifest] ends in [return artifact.ManifestFromPath(manPath)]: the
    parser is another package's, and what it returns is returned as it
    is.  The program gives the path the parser is called on ([inl]), or
    the error [AppManifest] returns without calling it ([inr]). *)
Definition AppManifest (hl : Launchable) : prog (string + error) :=
  installed <- Installed hl ;;
  if negb installed then
    Ret (inr (Errorf "%s has not been installed yet" [ArgString (Id hl)]))
  else
    installDir <- InstallDir hl ;;
    let manPath := filepath.Join [installDir; "app-manifest.yaml"] in
    r <- do (os_Stat manPath) ;;
    if statNotExist r then
      installDir <- InstallDir hl ;;
      let manPath := filepath.Join [installDir; "app-manifest.yml"] in
      r <- do (os_Stat manPath) ;;
      if statNotExist r then
        Ret (inr (Errorf "No app manifest was found in the Hoist launchable %s"
                    [ArgString (Id hl)]))
      else Ret (inl manPath)
    else Ret (inl manPath).

(** [Type] of a launchable. *)
Definition Type_ (hl : Launchable) : string := "hoist".

(** ** More ways to read a trace *)

(** The services a trace asks the supervisor to stop, in order. *)
Fixpoint stopped (t : list event) : list runit.Service :=
  match t with
  | [] => []
  | Event c _ :: rest =>
      match c with
      | sv_Stop service => service :: stopped rest
      | _ => stopped rest
      end
  end.

(** A call that only looks: a stat or a directory listing. *)
Definition readOnly (ev : event) : bool :=
  match ev with
  | Event c _ =>
      match c with
      | os_Stat _ => true
      | ioutil_ReadDir _ => true
      | _ => false
      end
  end.

(** The paths a trace asks to create as a symlink, a directory or a
    file, in order, whether the call succeeded or not. *)
Fixpoint created (t : list event) : list string :=
  match t with
  | [] => []
  | Event c _ :: rest =>
      match c with
      | os_Symlink _ newname => newname :: created rest
      | os_Mkdir path _ => path :: created rest
      | os_OpenFile path _ => path :: created rest
      | _ => created rest
      end
  end.

(** The paths a trace gave to [uid:gid] with success, by [os.Chown] or by
    [Chown] on an open file. *)
Fixpoint owned (uid gid : Z) (t : list event) : list string :=
  match t with
  | [] => []
  | Event c x :: rest =>
      match c in call X return X -> list string with
      | os_Chown path u g => fun x =>
          match x with
          | None => if (u =? uid)%Z && (g =? gid)%Z
                    then path :: owned uid gid rest else owned uid gid rest
          | Some _ => owned uid gid rest
          end
      | File_Chown path u g => fun x =>
          match x with
          | None => if (u =? uid)%Z && (g =? gid)%Z
                    then path :: owned uid gid rest else owned uid gid rest
          | Some _ => owned uid gid rest
          end
      | _ => fun _ => owned uid gid rest
      end x
  end.

(** The files still open after a trace, given those open before it: a
    successful [os.Open] or [os.OpenFile] opens its path, a [Close] of
    the file at a path closes it. *)
Fixpoint leftOpen (open : list string) (t : list event) : list string :=
  match t with
  | [] => open
  | Event c x :: rest =>
      match c in call X return X -> list string with
      | os_Open path => fun x =>
          match x with
          | inl _ => leftOpen (path :: open) rest
          | inr _ => leftOpen open rest
          end
      | os_OpenFile path _ => fun x =>
          match x with
          | None => leftOpen (path :: open) rest
          | Some _ => leftOpen open rest
          end
      | File_Close path => fun _ =>
          leftOpen (filter (fun p => negb (p =? path)) open) rest
      | _ => fun _ => leftOpen open rest
      end x
  end.

(** Does a trace call [os.Lchown] or [os.Rename]? *)
Fixpoint touchesLinks (t : list event) : bool :=
  match t with
  | [] => false
  | Event c _ :: rest =>
      match c with
      | os_Lchown _ _ _ => true
      | os_Rename _ _ => true
      | _ => touchesLinks rest
      end
  end.

(** Where an entry goes under [dest], and whether [extractTarGz] gives it
    to the run-as user (directories and regular files). *)
Definition entryPath (dest : string) (hdr : tar.Header) : string :=
  filepath.Join [dest; tar.Name hdr].

Definition chownedEntry (hdr : tar.Header) : bool :=
  Ascii.eqb (tar.Typeflag hdr) tar.TypeDir
  || Ascii.eqb (tar.Typeflag hdr) tar.TypeReg
  || Ascii.eqb (tar.Typeflag hdr) tar.TypeRegA.

(** No byte of the string is a separator. *)
Fixpoint noSeparator (s : string) : bool :=
  match s with
  | EmptyString => true
  | String c rest => negb (filepath.IsPathSeparator c) && noSeparator rest
  end.

(** ** More sample hosts *)

Definition permissionDenied (op path : string) : error := PathError op path 13.

(** A host where nothing can be looked at: every stat is refused. *)
Definition statDenied (X : Type) (c : call X) : X :=
  match c in call X0 return X0 with
  | os_Stat path => inr (permissionDenied "stat" path)
  | c0 => allGood _ c0
  end.

(** A host whose hooks print a line and exit with 0. *)
Definition hooksTalk (X : Type) (c : call X) : X :=
  match c in call X0 return X0 with
  | cmd_Run _ _ => ("registered", None)
  | c0 => allGood _ c0
  end.

(** The two-service host with a supervisor that refuses to stop
    anything. *)
Definition stopRefused (X : Type) (c : call X) : X :=
  match c in call X0 return X0 with
  | sv_Stop _ => ("", Some (errorString "unable to open supervise/control"))
  | c0 => twoServices _ c0
  end.

(** A host with nothing installed and an artifact that cannot be
    fetched. *)
Definition fetchFails (X : Type) (c : call X) : X :=
  match c in call X0 return X0 with
  | FetchToFile location _ => Some (errorString ("404 Not Found: " ++ location))
  | c0 => nothingInstalled _ c0
  end.

(** A host where every directory of the archive is there already. *)
Definition dirsExist (X : Type) (c : call X) : X :=
  match c in call X0 return X0 with
  | os_Mkdir path _ => Some (PathError "mkdir" path os.EEXIST)
  | c0 => allGood _ c0
  end.

(** A host whose install directory holds [app-manifest.yml] and no
    [app-manifest.yaml]. *)
Definition manifestYml (X : Type) (c : call X) : X :=
  match c in call X0 return X0 with
  | os_Stat path =>
      if filepath.Base path =? "app-manifest.yaml"
      then inr (noSuchFile "stat" path)
      else inl {| os.Name := filepath.Base path; os.IsDir := false |}
  | c0 => allGood _ c0
  end.

(** A launchable whose artifact is a zip file. *)
Definition zipped : Launchable :=
  {| Location := "http://repo/artifacts/myapp_1.2.3.zip";
     Id := "myapp";
     RunAs := "app";
     ConfigDir := "/etc/myapp";
     RootDir := "/data/pods/myapp";
     Chpst := "/usr/bin/chpst";
     Cgexec := "/usr/bin/cgexec";
     CgroupConfig := {| cgroups.Name := "myapp" |} |}.

(** A stretch of a trace that leaves no file open that was not open
    before it. *)
Definition closesItsFiles (t : list event) : Prop :=
  forall open, incl (leftOpen open t) open.

(** What the calls made for one archive entry at [fpath] may be: at most
    the one creation, every file closed again, no link chowned and
    nothing renamed. *)
Definition entryCalls (fpath : string) (t : list event) : Prop :=
  (created t = [] \/ created t = [fpath]) /\
  closesItsFiles t /\
  touchesLinks t = false.

(** A host where [bin/launch] cannot be looked at. *)
Definition launchUnreadable (X : Type) (c : call X) : X :=
  match c in call X0 return X0 with
  | os_Stat path =>
      if filepath.Base path =? "launch"
      then inr (permissionDenied "stat" path)
      else inl {| os.Name := filepath.Base path; os.IsDir := true |}
  | c0 => allGood _ c0
  end.

(** A host where [app-manifest.yaml] cannot be looked at. *)
Definition manifestUnreadable (X : Type) (c : call X) : X :=
  match c in call X0 return X0 with
  | os_Stat path =>
      if filepath.Base path =? "app-manifest.yaml"
      then inr (permissionDenied "stat" path)
      else inl {| os.Name := filepath.Base path; os.IsDir := false |}
  | c0 => allGood _ c0
  end.

(** ** Paths of names *)

(** A name: a path element that is not empty, not [.] and not [..]. *)
Definition plainElement (e : string) : bool :=
  negb (e =? "") && negb (e =? ".") && negb (e =? "..").

(** A relative path of names, as the entries of an archive usually are:
    every element between its separators is a name. *)
Definition plainPath (path : string) : bool :=
  forallb plainElement (filepath.splitSeparator path).

(** A rooted path of names, or the root itself. *)
Definition plainAbsolute (path : string) : bool :=
  match path with
  | EmptyString => false
  | String c rest =>
      filepath.IsPathSeparator c && ((rest =? "") || plainPath rest)
  end.

(** The buffer of [Clean] after the names [names] of a path that is
    rooted or not, and what [Clean] returns for it. *)
Definition afterNames (rooted : bool) (names : list string) : filepath.lazybuf :=
  {| filepath.buf := (if rooted then "/" else "") ++ String.concat "/" names;
     filepath.dotdot := if rooted then 1 else 0 |}.

Definition pathOf (rooted : bool) (names : list string) : string :=
  match rooted, names with
  | false, [] => "."
  | _, _ => (if rooted then "/" else "") ++ String.concat "/" names
  end.

(** A list of names with no separator in them. *)
Definition names (es : list string) : Prop :=
  Forall (fun e => plainElement e = true /\ noSeparator e = true) es.

(** A hardlink entry whose link name is absolute. *)
Definition absoluteLinkEntry : tar.Header :=
  {| tar.Name := "a/link"; tar.Linkname := "/etc/passwd";
     tar.Typeflag := tar.TypeLink; tar.Mode := 420 |}.

(** A hardlink entry above the root of the archive. *)
Definition outsideLinkEntry : tar.Header :=
  {| tar.Name := "../../link"; tar.Linkname := "..";
     tar.Typeflag := tar.TypeLink; tar.Mode := 420 |}.

(** * Properties *)

(** ** Strings and base names *)

Lemma append_is_empty (p s : string) : p ++ s = "" -> s = "".
Proof. destruct p; simpl; [trivial | discriminate]. Qed.

Lemma length_append (p s : string) :
  String.length (p ++ s) = (String.length p + String.length s)%nat.
Proof. induction p as [|c p IH]; simpl; [reflexivity | now rewrite IH]. Qed.

Lemma substring_append_prefix (p s : string) :
  substring 0 (String.length p) (p ++ s) = p.
Proof.
  induction p as [|c p IH]; simpl.
  - destruct s; reflexivity.
  - now rewrite IH.
Qed.

Lemma slice_to_strips_suffix (p s : string) :
  slice_to (p ++ s) (len (p ++ s) - len s) = Some p.
Proof.
  unfold slice_to, len. rewrite length_append.
  replace (Z.of_nat (String.length p + String.length s) -
           Z.of_nat (String.length s))%Z
    with (Z.of_nat (String.length p)) by lia.
  destruct (Z.ltb_spec (Z.of_nat (String.length p)) 0); [lia|].
  destruct (Z.ltb_spec (Z.of_nat (String.length p + String.length s))
              (Z.of_nat (String.length p))); [lia|].
  simpl. rewrite Nat2Z.id. now rewrite substring_append_prefix.
Qed.

Lemma slice_to_short (s : string) (hi : Z) :
  (hi < 0)%Z -> slice_to s hi = None.
Proof.
  intros H. unfold slice_to.
  destruct (Z.ltb_spec hi 0); [reflexivity | lia].
Qed.

Lemma slice_to_within (s : string) (hi : Z) :
  (0 <= hi <= len s)%Z -> exists v, slice_to s hi = Some v.
Proof.
  intros H. unfold slice_to.
  destruct (Z.ltb_spec hi 0); [lia|].
  destruct (Z.ltb_spec (len s) hi); [lia|].
  simpl. eauto.
Qed.

Module filepath_facts.
Import filepath.

(** A suffix that keeps its last byte under [stripTrailingSeparators]
    protects everything before it. *)
Lemma stripTrailingSeparators_append (p s : string) :
  s <> "" -> stripTrailingSeparators s = s ->
  stripTrailingSeparators (p ++ s) = p ++ s.
Proof.
  intros Hne Hs. induction p as [|c p IH]; simpl; [exact Hs|].
  rewrite IH. destruct (p ++ s) eqn:E; [|reflexivity].
  apply append_is_empty in E. contradiction.
Qed.

Lemma afterLastSeparator_append (p s : string) :
  afterLastSeparator s = None ->
  afterLastSeparator (p ++ s) =
    match afterLastSeparator p with
    | Some tail => Some (tail ++ s)
    | None => None
    end.
Proof.
  intros Hs. induction p as [|c p IH]; simpl; [exact Hs|].
  rewrite IH. destruct (afterLastSeparator p); [reflexivity|].
  destruct (IsPathSeparator c); reflexivity.
Qed.

(** The base name of a location that ends in a separator-free suffix
    ends in that suffix. *)
Lemma Base_keeps_suffix (p s : string) :
  s <> "" -> stripTrailingSeparators s = s -> afterLastSeparator s = None ->
  exists stem, Base (p ++ s) = stem ++ s.
Proof.
  intros Hne Hstrip Hsep. unfold Base.
  destruct (String.eqb_spec (p ++ s) "") as [E|_].
  { apply append_is_empty in E. contradiction. }
  rewrite (stripTrailingSeparators_append p s Hne Hstrip).
  rewrite (afterLastSeparator_append p s Hsep).
  destruct (afterLastSeparator p) as [tail|].
  - exists tail. destruct (String.eqb_spec (tail ++ s) "") as [E|_];
      [apply append_is_empty in E; contradiction | reflexivity].
  - exists p. destruct (String.eqb_spec (p ++ s) "") as [E|_];
      [apply append_is_empty in E; contradiction | reflexivity].
Qed.

(** The base name of [dir/name] is [name], for a name with no separator. *)
Lemma Base_of_child (dir name : string) :
  name <> "" -> stripTrailingSeparators name = name ->
  afterLastSeparator name = None ->
  Base (dir ++ "/" ++ name) = name.
Proof.
  intros Hne Hstrip Hsep. unfold Base.
  destruct (String.eqb_spec (dir ++ "/" ++ name) "") as [E|_].
  { apply append_is_empty in E. discriminate. }
  replace (dir ++ "/" ++ name) with ((dir ++ "/") ++ name).
  2:{ clear. induction dir as [|c d IH]; simpl; [reflexivity | now rewrite IH]. }
  rewrite (stripTrailingSeparators_append _ name Hne Hstrip).
  rewrite (afterLastSeparator_append _ name Hsep).
  assert (Hdir : afterLastSeparator (dir ++ "/") = Some "").
  { clear. induction dir as [|c d IH]; simpl; [reflexivity | now rewrite IH]. }
  rewrite Hdir. simpl.
  destruct (String.eqb_spec name "") as [E|_]; [contradiction | reflexivity].
Qed.

End filepath_facts.

(** * Paths of names under [Clean], [Dir], [Join] and [Rel] *)

Module plain_paths.
Import filepath.

Local Abbreviation cat := (String.concat "/").

Lemma append_assoc (a b c : string) : (a ++ b) ++ c = a ++ b ++ c.
Proof. induction a as [|x a IH]; simpl; [reflexivity | now rewrite IH]. Qed.

Lemma append_empty_r (a : string) : a ++ "" = a.
Proof. induction a as [|x a IH]; simpl; [reflexivity | now rewrite IH]. Qed.

Lemma splitSeparator_nonempty (s : string) : splitSeparator s <> [].
Proof.
  destruct s as [|c s]; simpl; [discriminate|].
  destruct (IsPathSeparator c); [discriminate|].
  destruct (splitSeparator s); discriminate.
Qed.

Lemma splitSeparator_noSeparator (s : string) :
  Forall (fun e => noSeparator e = true) (splitSeparator s).
Proof.
  induction s as [|c s IH]; simpl.
  - now repeat constructor.
  - destruct (IsPathSeparator c) eqn:Hc.
    + constructor; [reflexivity | exact IH].
    + destruct (splitSeparator s) as [|e es].
      * repeat constructor. simpl. now rewrite Hc.
      * inversion IH; subst. constructor; [|assumption].
        simpl. now rewrite Hc.
Qed.

Lemma splitSeparator_name (e : string) :
  noSeparator e = true -> splitSeparator e = [e].
Proof.
  induction e as [|c e IH]; simpl; [reflexivity|].
  intros H. apply andb_prop in H. destruct H as [Hc He].
  apply negb_true_iff in Hc. rewrite Hc, (IH He). reflexivity.
Qed.

Lemma splitSeparator_app (a b : string) :
  splitSeparator (a ++ "/" ++ b) = (splitSeparator a ++ splitSeparator b)%list.
Proof.
  induction a as [|c a IH]; [reflexivity|].
  change (String c a ++ "/" ++ b) with (String c (a ++ "/" ++ b)).
  cbn [splitSeparator]. rewrite IH.
  destruct (IsPathSeparator c); [reflexivity|].
  pose proof (splitSeparator_nonempty a) as Hne.
  destruct (splitSeparator a); [contradiction | reflexivity].
Qed.

Lemma cat_cons (e : string) (es : list string) :
  es <> [] -> cat (e :: es) = e ++ "/" ++ cat es.
Proof. destruct es; [contradiction | reflexivity]. Qed.

Lemma cat_app (es fs : list string) :
  es <> [] -> fs <> [] -> cat (es ++ fs) = cat es ++ "/" ++ cat fs.
Proof.
  intros Hes Hfs. induction es as [|e es IH]; [contradiction|].
  destruct es as [|e' es].
  - cbn [app]. now rewrite cat_cons.
  - change ((e :: e' :: es) ++ fs)%list with (e :: ((e' :: es) ++ fs))%list.
    rewrite cat_cons by discriminate. rewrite IH by discriminate.
    rewrite (cat_cons e (e' :: es)) by discriminate.
    now rewrite !append_assoc.
Qed.

Lemma splitSeparator_cat (es : list string) :
  es <> [] -> Forall (fun e => noSeparator e = true) es ->
  splitSeparator (cat es) = es.
Proof.
  intros Hne Hes. induction es as [|e es IH]; [contradiction|].
  inversion Hes as [|? ? He Hrest]; subst.
  destruct es as [|e' es].
  - now apply splitSeparator_name.
  - rewrite cat_cons by discriminate.
    rewrite splitSeparator_app, (splitSeparator_name e He).
    rewrite IH; [reflexivity | discriminate | assumption].
Qed.

Lemma cat_splitSeparator (s : string) : cat (splitSeparator s) = s.
Proof.
  induction s as [|c s IH]; [reflexivity|].
  cbn [splitSeparator].
  pose proof (splitSeparator_nonempty s) as Hne.
  destruct (IsPathSeparator c) eqn:Hc.
  - rewrite cat_cons by assumption. rewrite IH.
    unfold IsPathSeparator, Separator in Hc. apply Ascii.eqb_eq in Hc.
    now subst c.
  - destruct (splitSeparator s) as [|e es]; [contradiction|].
    rewrite <- IH. destruct es; reflexivity.
Qed.

Lemma plainPath_names (path : string) :
  plainPath path = true ->
  exists es, es <> [] /\ names es /\ path = cat es.
Proof.
  intros H. exists (splitSeparator path).
  split; [apply splitSeparator_nonempty|].
  split; [|now rewrite cat_splitSeparator].
  unfold plainPath in H. rewrite forallb_forall in H.
  pose proof (splitSeparator_noSeparator path) as Hsep.
  rewrite Forall_forall in Hsep. apply Forall_forall.
  intros e He. split; [now apply H | now apply Hsep].
Qed.

(** ** The buffer of [Clean] under names *)

Lemma name_tests (e : string) :
  plainElement e = true ->
  (e =? "") = false /\ (e =? ".") = false /\ (e =? "..") = false.
Proof.
  unfold plainElement. intros H.
  apply andb_prop in H. destruct H as [H H3].
  apply andb_prop in H. destruct H as [H1 H2].
  now rewrite (proj1 (negb_true_iff _) H1), (proj1 (negb_true_iff _) H2),
    (proj1 (negb_true_iff _) H3).
Qed.

Lemma name_length (e : string) :
  plainElement e = true -> (0 < String.length e)%nat.
Proof.
  intros H. destruct e; [discriminate | simpl; lia].
Qed.

Lemma cat_length (es : list string) :
  names es -> es <> [] -> (0 < String.length (cat es))%nat.
Proof.
  intros Hes Hne. destruct es as [|e es]; [contradiction|].
  inversion Hes as [|? ? [He _] _]; subst.
  pose proof (name_length e He).
  destruct es; [assumption|].
  rewrite cat_cons by discriminate. rewrite length_append. lia.
Qed.

Lemma names_app (es fs : list string) :
  names (es ++ fs) <-> names es /\ names fs.
Proof. apply Forall_app. Qed.

Lemma bufw_afterNames (rooted : bool) (ds : list string) :
  bufw (afterNames rooted ds)
    = ((if rooted then 1 else 0) + String.length (cat ds))%nat.
Proof.
  unfold bufw, afterNames. cbn [buf]. rewrite length_append.
  destruct rooted; reflexivity.
Qed.

(** A name is written after what is there, with a separator unless it is
    the first. *)
Lemma cleanElement_name (rooted : bool) (ds : list string) (e : string) :
  names ds -> plainElement e = true ->
  cleanElement rooted (afterNames rooted ds) e = afterNames rooted (ds ++ [e]).
Proof.
  intros Hds He. destruct (name_tests e He) as (H1 & H2 & H3).
  unfold cleanElement. rewrite H1, H2, H3, bufw_afterNames.
  destruct ds as [|d ds].
  - destruct rooted; reflexivity.
  - pose proof (cat_length (d :: ds) Hds ltac:(discriminate)) as Hlen.
    assert (E1 : (1 + String.length (cat (d :: ds)) =? 1)%nat = false)
      by (apply Nat.eqb_neq; lia).
    assert (E0 : (0 + String.length (cat (d :: ds)) =? 0)%nat = false)
      by (apply Nat.eqb_neq; lia).
    destruct rooted; rewrite ?E1, ?E0; cbn [andb orb negb];
      unfold afterNames; cbn [buf dotdot]; f_equal;
      rewrite cat_app by discriminate; cbn [String.concat];
      now rewrite !append_assoc.
Qed.

Lemma cleanElement_names (rooted : bool) (es ds : list string) :
  names ds -> names es ->
  fold_left (cleanElement rooted) es (afterNames rooted ds)
    = afterNames rooted (ds ++ es).
Proof.
  intros Hds Hes. revert ds Hds.
  induction es as [|e es IH]; intros ds Hds; cbn [fold_left].
  - now rewrite app_nil_r.
  - inversion Hes as [|? ? [He Hsep] Hrest]; subst.
    rewrite (cleanElement_name rooted ds e Hds He).
    rewrite IH; [now rewrite <- app_assoc | assumption |].
    apply names_app. split; [assumption|]. now repeat constructor.
Qed.

(** *** Backtracking over a name *)

Lemma get_name (e : string) (j : nat) :
  noSeparator e = true ->
  match String.get j e with
  | Some c => IsPathSeparator c
  | None => false
  end = false.
Proof.
  revert j. induction e as [|c e IH]; intros j H; [reflexivity|].
  cbn [noSeparator] in H. apply andb_prop in H. destruct H as [Hc He].
  destruct j as [|j]; cbn [String.get].
  - now apply negb_true_iff.
  - now apply IH.
Qed.

Lemma separatorAt_after (p : string) (c : ascii) (e : string) (j : nat) :
  noSeparator e = true ->
  separatorAt (p ++ String c e) (String.length p + S j) = false.
Proof.
  intros He. unfold separatorAt.
  rewrite Nat.add_comm, <- append_correct2. cbn [String.get].
  now apply get_name.
Qed.

Lemma separatorAt_here (p : string) (c : ascii) (e : string) :
  separatorAt (p ++ String c e) (String.length p) = IsPathSeparator c.
Proof.
  unfold separatorAt.
  change (String.length p) with (0 + String.length p)%nat.
  now rewrite <- append_correct2.
Qed.

Lemma backtrack_name (p : string) (c : ascii) (e : string) (stop k : nat) :
  noSeparator e = true -> (stop <= String.length p)%nat ->
  backtrack (p ++ String c e) stop (String.length p + k)
    = backtrack (p ++ String c e) stop (String.length p).
Proof.
  intros He Hstop. induction k as [|k IH].
  - now rewrite Nat.add_0_r.
  - rewrite Nat.add_succ_r at 1. cbn [backtrack].
    rewrite <- Nat.add_succ_r, (separatorAt_after p c e k He).
    replace (stop <? String.length p + S k)%nat with true
      by (symmetry; apply Nat.ltb_lt; lia).
    cbn [andb negb]. exact IH.
Qed.

Lemma backtrack_stops (p : string) (c : ascii) (e : string) (stop : nat) :
  IsPathSeparator c = true \/ stop = String.length p ->
  backtrack (p ++ String c e) stop (String.length p) = String.length p.
Proof.
  intros H.
  assert (Hhere : (stop <? String.length p)%nat
                  && negb (separatorAt (p ++ String c e) (String.length p))
                  = false).
  { rewrite separatorAt_here. destruct H as [->| ->].
    - now rewrite andb_false_r.
    - now rewrite Nat.ltb_irrefl. }
  destruct (String.length p) as [|n]; [reflexivity|].
  cbn [backtrack]. now rewrite Hhere.
Qed.

(** [..] after a name takes the name away. *)
Lemma cleanElement_dotdot (rooted : bool) (ds : list string) (e : string) :
  names ds -> plainElement e = true -> noSeparator e = true ->
  cleanElement rooted (afterNames rooted (ds ++ [e])) ".."
    = afterNames rooted ds.
Proof.
  intros Hds He Hsep.
  set (p := (if rooted then "/" else "") ++ cat ds).
  assert (Hp : (String.length p
                = (if rooted then 1 else 0) + String.length (cat ds))%nat).
  { unfold p. rewrite length_append. destruct rooted; reflexivity. }
  destruct e as [|c e]; [discriminate|].
  cbn [noSeparator] in Hsep. apply andb_prop in Hsep.
  destruct Hsep as [Hc Hsep].
  unfold cleanElement. cbn [String.eqb Ascii.eqb Bool.eqb andb].
  rewrite bufw_afterNames.
  destruct ds as [|d ds].
  - (* the name is the first *)
    cbn [app String.concat] in *.
    replace (dotdot (afterNames rooted [String c e])
             <? (if rooted then 1 else 0) + String.length (String c e))%nat
      with true by (symmetry; apply Nat.ltb_lt; destruct rooted; simpl; lia).
    unfold afterNames. cbn [buf dotdot String.concat]. f_equal.
    replace ((if rooted then 1 else 0) + String.length (String c e) - 1)%nat
      with (String.length (if rooted then "/" else "") + String.length e)%nat
      by (destruct rooted; simpl; lia).
    rewrite backtrack_name
      by (try assumption; destruct rooted; simpl; lia).
    rewrite backtrack_stops by (right; destruct rooted; reflexivity).
    rewrite substring_append_prefix. now rewrite append_empty_r.
  - (* the name follows a separator *)
    pose proof (cat_length (d :: ds) Hds ltac:(discriminate)) as Hlen.
    assert (Hbuf : buf (afterNames rooted ((d :: ds) ++ [String c e]))
                   = p ++ String "/" (String c e)).
    { unfold afterNames, p. cbn [buf]. rewrite cat_app by discriminate.
      cbn [String.concat]. now rewrite !append_assoc. }
    replace (dotdot (afterNames rooted ((d :: ds) ++ [String c e]))
             <? (if rooted then 1 else 0)
                + String.length (cat ((d :: ds) ++ [String c e])))%nat
      with true.
    2:{ symmetry. apply Nat.ltb_lt. rewrite cat_app by discriminate.
        rewrite !length_append. destruct rooted; simpl; lia. }
    rewrite Hbuf.
    replace ((if rooted then 1 else 0)
             + String.length (cat ((d :: ds) ++ [String c e])) - 1)%nat
      with (String.length p + String.length (String c e))%nat.
    2:{ rewrite cat_app by discriminate. rewrite !length_append, Hp.
        cbn [String.concat String.length]. lia. }
    rewrite backtrack_name.
    + rewrite backtrack_stops by (left; reflexivity).
      rewrite substring_append_prefix. unfold afterNames, p. reflexivity.
    + cbn [noSeparator]. now rewrite Hc, Hsep.
    + unfold afterNames. cbn [dotdot]. rewrite Hp. destruct rooted; lia.
Qed.

Lemma cleanElement_dotdots (rooted : bool) (ds es : list string) :
  names ds -> names es ->
  fold_left (cleanElement rooted) (map (fun _ => "..") es)
    (afterNames rooted (ds ++ es)) = afterNames rooted ds.
Proof.
  intros Hds Hes. induction es as [|e es IH] using rev_ind.
  - now rewrite app_nil_r.
  - apply names_app in Hes. destruct Hes as [Hes He].
    inversion He as [|? ? [Hplain Hsep] _]; subst.
    rewrite map_app. cbn [map]. 
    assert (Hmap : (map (fun _ : string => "..") es ++ [".."])%list
                   = (".." :: map (fun _ : string => "..") es)).
    { clear. induction es as [|x es IH]; [reflexivity|].
      cbn [map app]. now rewrite IH. }
    rewrite Hmap. cbn [fold_left]. rewrite app_assoc.
    rewrite cleanElement_dotdot; try assumption.
    + now apply IH.
    + apply names_app. now split.
Qed.

(** ** [Clean], [Dir] and [Join] on paths of names *)

Lemma cleaned_afterNames (rooted : bool) (ds : list string) :
  names ds ->
  (if (bufw (afterNames rooted ds) =? 0)%nat then "."
   else buf (afterNames rooted ds)) = pathOf rooted ds.
Proof.
  intros Hds. rewrite bufw_afterNames.
  destruct rooted; [destruct ds; reflexivity|].
  destruct ds as [|d ds]; [reflexivity|].
  pose proof (cat_length (d :: ds) Hds ltac:(discriminate)) as Hlen.
  replace (0 + String.length (cat (d :: ds)) =? 0)%nat with false
    by (symmetry; apply Nat.eqb_neq; lia).
  reflexivity.
Qed.

Lemma pathOf_head (rooted : bool) (ds : list string) :
  names ds ->
  exists c rest, pathOf rooted ds = String c rest /\ IsPathSeparator c = rooted.
Proof.
  intros Hds. destruct rooted.
  - exists "/"%char, (cat ds). split; [destruct ds|]; reflexivity.
  - destruct ds as [|d ds]; [now exists "."%char, ""|].
    inversion Hds as [|? ? [Hd Hsep] _]; subst.
    destruct d as [|c d]; [discriminate|].
    cbn [noSeparator] in Hsep. apply andb_prop in Hsep.
    destruct Hsep as [Hc _]. apply negb_true_iff in Hc.
    exists c. destruct ds as [|d' ds].
    + exists d. now split.
    + exists (d ++ "/" ++ cat (d' :: ds)). now split.
Qed.

Lemma cleanElement_skip (rooted : bool) (b : lazybuf) (es : list string) :
  fold_left (cleanElement rooted) ("" :: es) b
    = fold_left (cleanElement rooted) es b.
Proof. reflexivity. Qed.

Lemma splitSeparator_pathOf (rooted : bool) (ds : list string) :
  names ds ->
  fold_left (cleanElement rooted) (splitSeparator (pathOf rooted ds))
    (afterNames rooted []) = afterNames rooted ds.
Proof.
  intros Hds.
  assert (Hsep : Forall (fun e => noSeparator e = true) ds).
  { eapply Forall_impl; [|exact Hds]. now intros e [_ He]. }
  destruct ds as [|d ds].
  - destruct rooted; reflexivity.
  - destruct rooted.
    + change (pathOf true (d :: ds)) with ("" ++ "/" ++ cat (d :: ds)).
      rewrite splitSeparator_app, splitSeparator_cat
        by (assumption || discriminate).
      change (splitSeparator "" ++ d :: ds)%list with ("" :: d :: ds).
      rewrite cleanElement_skip.
      now rewrite cleanElement_names by (assumption || constructor).
    + change (pathOf false (d :: ds)) with (cat (d :: ds)).
      rewrite splitSeparator_cat by (assumption || discriminate).
      now rewrite cleanElement_names by (assumption || constructor).
Qed.

(** [Clean] of a path of names followed by more: the names are kept, and
    what follows is read after them. *)
Lemma Clean_after (rooted : bool) (ds : list string) (x : string) :
  names ds ->
  Clean (pathOf rooted ds ++ "/" ++ x) =
    let b := fold_left (cleanElement rooted) (splitSeparator x)
               (afterNames rooted ds) in
    if (bufw b =? 0)%nat then "." else buf b.
Proof.
  intros Hds. cbv zeta.
  destruct (pathOf_head rooted ds Hds) as (c & rest & Hpath & Hc).
  rewrite <- (splitSeparator_pathOf rooted ds Hds), <- fold_left_app.
  rewrite <- splitSeparator_app, Hpath.
  change (String c rest ++ "/" ++ x) with (String c (rest ++ "/" ++ x)).
  unfold Clean. cbv beta iota zeta. subst rooted.
  destruct (IsPathSeparator c); reflexivity.
Qed.

Lemma Clean_pathOf (rooted : bool) (ds : list string) :
  names ds -> Clean (pathOf rooted ds) = pathOf rooted ds.
Proof.
  intros Hds.
  destruct (pathOf_head rooted ds Hds) as (c & rest & Hpath & Hc).
  assert (H : Clean (pathOf rooted ds) =
              let b := fold_left (cleanElement rooted)
                         (splitSeparator (pathOf rooted ds))
                         (afterNames rooted []) in
              if (bufw b =? 0)%nat then "." else buf b).
  { rewrite Hpath. unfold Clean. cbv beta iota zeta. subst rooted.
    destruct (IsPathSeparator c); reflexivity. }
  rewrite H. cbv zeta. rewrite splitSeparator_pathOf by assumption.
  now apply cleaned_afterNames.
Qed.

Lemma Clean_after_names (rooted : bool) (ds es : list string) :
  names ds -> names es -> es <> [] ->
  Clean (pathOf rooted ds ++ "/" ++ cat es) = pathOf rooted (ds ++ es).
Proof.
  intros Hds Hes Hne. rewrite Clean_after by assumption. cbv zeta.
  rewrite splitSeparator_cat.
  - rewrite cleanElement_names by assumption.
    apply cleaned_afterNames. apply names_app. now split.
  - assumption.
  - eapply Forall_impl; [|exact Hes]. now intros e [_ He].
Qed.

Lemma pathOf_nonempty (rooted : bool) (ds : list string) :
  names ds -> (pathOf rooted ds =? "") = false.
Proof.
  intros Hds. destruct (pathOf_head rooted ds Hds) as (c & rest & -> & _).
  reflexivity.
Qed.

(** [Join] of a path of names and a relative path of names. *)
Lemma Join_names (rooted : bool) (ds es : list string) :
  names ds -> names es -> es <> [] ->
  Join [pathOf rooted ds; cat es] = pathOf rooted (ds ++ es).
Proof.
  intros Hds Hes Hne. cbn [Join]. rewrite pathOf_nonempty by assumption.
  cbn [String.concat]. now apply Clean_after_names.
Qed.

Lemma afterLastSeparator_name (e : string) :
  noSeparator e = true -> afterLastSeparator e = None.
Proof.
  induction e as [|c e IH]; [reflexivity|].
  cbn [noSeparator afterLastSeparator]. intros H.
  apply andb_prop in H. destruct H as [Hc He].
  apply negb_true_iff in Hc. now rewrite (IH He), Hc.
Qed.

Lemma uptoLastSeparator_name (e : string) :
  noSeparator e = true -> uptoLastSeparator e = "".
Proof.
  destruct e as [|c e]; [reflexivity|].
  cbn [noSeparator uptoLastSeparator]. intros H.
  apply andb_prop in H. destruct H as [Hc He].
  apply negb_true_iff in Hc. now rewrite (afterLastSeparator_name e He), Hc.
Qed.

Lemma afterLastSeparator_child (p e : string) :
  afterLastSeparator (p ++ "/" ++ e) <> None.
Proof.
  induction p as [|c p IH].
  - cbn [append afterLastSeparator].
    destruct (afterLastSeparator e); discriminate.
  - change (String c p ++ "/" ++ e) with (String c (p ++ "/" ++ e)).
    cbn [afterLastSeparator].
    destruct (afterLastSeparator (p ++ "/" ++ e)); [discriminate|].
    contradiction.
Qed.

Lemma uptoLastSeparator_child (p e : string) :
  noSeparator e = true -> uptoLastSeparator (p ++ "/" ++ e) = p ++ "/".
Proof.
  intros He. induction p as [|c p IH].
  - cbn [append uptoLastSeparator].
    now rewrite (afterLastSeparator_name e He).
  - change (String c p ++ "/" ++ e) with (String c (p ++ "/" ++ e)).
    cbn [uptoLastSeparator].
    pose proof (afterLastSeparator_child p e) as Hsome.
    destruct (afterLastSeparator (p ++ "/" ++ e)); [|contradiction].
    now rewrite IH.
Qed.

(** [Dir] takes the last name away. *)
Lemma Dir_names (rooted : bool) (ds : list string) (e : string) :
  names ds -> plainElement e = true -> noSeparator e = true ->
  Dir (pathOf rooted (ds ++ [e])) = pathOf rooted ds.
Proof.
  intros Hds He Hsep. unfold Dir.
  destruct ds as [|d ds].
  - destruct rooted.
    + change (pathOf true ([] ++ [e])) with ("" ++ "/" ++ e).
      now rewrite uptoLastSeparator_child.
    + change (pathOf false ([] ++ [e])) with e.
      now rewrite uptoLastSeparator_name.
  - assert (Hpath : pathOf rooted ((d :: ds) ++ [e])
                    = pathOf rooted (d :: ds) ++ "/" ++ e).
    { destruct rooted; cbn [pathOf app];
        change (d :: (ds ++ [e])%list) with ((d :: ds) ++ [e])%list;
        rewrite cat_app by discriminate; cbn [String.concat];
        now rewrite ?append_assoc. }
    rewrite Hpath, uptoLastSeparator_child by assumption.
    change (pathOf rooted (d :: ds) ++ "/")
      with (pathOf rooted (d :: ds) ++ "/" ++ "").
    rewrite Clean_after by assumption. cbv zeta.
    cbn [splitSeparator fold_left].
    change (cleanElement rooted (afterNames rooted (d :: ds)) "")
      with (afterNames rooted (d :: ds)).
    now apply cleaned_afterNames.
Qed.

(** ** [Rel] between paths of names *)

Lemma relPosition_shares (base targ : list string) :
  exists shared,
    base = (shared ++ fst (relPosition base targ))%list /\
    targ = (shared ++ snd (relPosition base targ))%list.
Proof.
  revert targ. induction base as [|be base IH]; intros targ.
  - now exists [].
  - destruct targ as [|te targ]; [now exists []|].
    cbn [relPosition]. destruct (String.eqb_spec te be) as [->|Hne].
    + destruct (IH targ) as (shared & Hb & Ht).
      exists (be :: shared). cbn [app]. now rewrite <- Hb, <- Ht.
    + now exists [].
Qed.

Lemma cat_names_inj (es fs : list string) :
  names es -> names fs -> es <> [] -> fs <> [] -> cat es = cat fs -> es = fs.
Proof.
  intros Hes Hfs Hne Hnf Heq.
  rewrite <- (splitSeparator_cat es), <- (splitSeparator_cat fs);
    try assumption.
  - now rewrite Heq.
  - eapply Forall_impl; [|exact Hfs]. now intros e [_ He].
  - eapply Forall_impl; [|exact Hes]. now intros e [_ He].
Qed.

Lemma cat_names_not_dot (es : list string) :
  names es -> es <> [] -> cat es <> ".".
Proof.
  intros Hes Hne Heq.
  assert (Hsplit : splitSeparator (cat es) = es).
  { apply splitSeparator_cat; [assumption|].
    eapply Forall_impl; [|exact Hes]. now intros e [_ He]. }
  rewrite Heq in Hsplit. cbn in Hsplit. subst es.
  inversion Hes as [|? ? [Hdot _] _]. discriminate.
Qed.

Lemma pathOf_names_inj (ns ls : list string) :
  names ns -> names ls -> ls <> [] -> cat ls = pathOf false ns -> ns = ls.
Proof.
  intros Hns Hls Hne Heq. destruct ns as [|n ns].
  - now apply cat_names_not_dot in Heq.
  - symmetry. apply cat_names_inj; try assumption. discriminate.
Qed.

Lemma elements_names (es : list string) :
  names es -> es <> [] -> elements (cat es) = es.
Proof.
  intros Hes Hne. unfold elements.
  pose proof (cat_length es Hes Hne) as Hlen.
  destruct (String.eqb_spec (cat es) "") as [E|_].
  { rewrite E in Hlen. simpl in Hlen. lia. }
  rewrite splitSeparator_cat;
    [|assumption | eapply Forall_impl; [|exact Hes]; now intros e [_ He]].
  destruct (exists_last Hne) as (front & e & ->).
  rewrite last_last. apply names_app in Hes. destruct Hes as [_ He].
  inversion He as [|? ? [Hplain _] _]; subst.
  now rewrite (proj1 (name_tests e Hplain)).
Qed.

Lemma unrooted_names (es : list string) :
  names es -> prefix "/" (cat es) && negb (cat es =? "") = false.
Proof.
  intros Hes. destruct es as [|e es]; [reflexivity|].
  destruct (pathOf_head false (e :: es) Hes) as (c & rest & Hpath & Hc).
  change (pathOf false (e :: es)) with (cat (e :: es)) in Hpath.
  rewrite Hpath. cbn [prefix].
  destruct (ascii_dec "/" c) as [<-|_]; [discriminate | reflexivity].
Qed.

(** Between paths of names [Rel] always has an answer: [.] for the
    directory itself, and otherwise one [..] for every name the base has
    of its own, then the names the target has of its own. *)
Lemma Rel_names (ns ls : list string) :
  names ns -> names ls -> ls <> [] ->
  Rel (pathOf false ns) (cat ls) =
    inl (if cat ls =? pathOf false ns then "."
         else cat (map (fun _ => "..") (fst (relPosition ns ls))
                   ++ snd (relPosition ns ls))%list).
Proof.
  intros Hns Hls Hne. unfold Rel.
  rewrite (Clean_pathOf false ns Hns).
  replace (Clean (cat ls)) with (cat ls).
  2:{ symmetry. replace (cat ls) with (pathOf false ls)
        by (destruct ls; [contradiction | reflexivity]).
      now apply Clean_pathOf. }
  cbv zeta. destruct (cat ls =? pathOf false ns) eqn:Esame; [reflexivity|].
  replace (cat ls =? ".") with false
    by (symmetry; apply String.eqb_neq; now apply cat_names_not_dot).
  rewrite (unrooted_names ls Hls), (elements_names ls Hls Hne).
  assert (Hbase : exists base,
             (if pathOf false ns =? "." then "" else pathOf false ns) = base
             /\ elements base = ns
             /\ prefix "/" base && negb (base =? "") = false).
  { destruct ns as [|n ns].
    - exists "". repeat split.
    - exists (cat (n :: ns)).
      change (pathOf false (n :: ns)) with (cat (n :: ns)).
      replace (cat (n :: ns) =? ".") with false
        by (symmetry; apply String.eqb_neq; apply cat_names_not_dot;
            [assumption | discriminate]).
      repeat split.
      + apply elements_names; [assumption | discriminate].
      + now apply unrooted_names. }
  destruct Hbase as (base & -> & -> & ->). cbn [Bool.eqb negb].
  destruct (relPosition_shares ns ls) as (shared & Hb & _).
  destruct (relPosition ns ls) as [baseLeft targLeft]. cbn [fst snd] in *.
  destruct baseLeft as [|be baseLeft]; [reflexivity|].
  rewrite Hb in Hns. apply names_app in Hns. destruct Hns as [_ Hleft].
  inversion Hleft as [|? ? [Hbe _] _]; subst.
  destruct (name_tests be Hbe) as (_ & _ & ->). reflexivity.
Qed.

(** The answer of [Rel], joined to a directory that ends in the names of
    the base, leads to the same directory with the names of the target
    in their place. *)
Lemma Rel_resolves (rooted : bool) (ds ns ls : list string) (r : string) :
  names ds -> names ns -> names ls -> ls <> [] ->
  Rel (pathOf false ns) (cat ls) = inl r ->
  Join [pathOf rooted (ds ++ ns); r] = pathOf rooted (ds ++ ls).
Proof.
  intros Hds Hns Hls Hne Hrel.
  rewrite (Rel_names ns ls Hns Hls Hne) in Hrel.
  assert (Hdir : names (ds ++ ns)) by (apply names_app; now split).
  cbn [Join]. rewrite pathOf_nonempty by assumption. cbn [String.concat].
  rewrite Clean_after by assumption. cbv zeta.
  destruct (String.eqb_spec (cat ls) (pathOf false ns)) as [Esame|Ediff];
    injection Hrel as <-.
  - apply (pathOf_names_inj ns ls Hns Hls Hne) in Esame. subst ls.
    cbn [splitSeparator fold_left].
    change (cleanElement rooted (afterNames rooted (ds ++ ns)) ".")
      with (afterNames rooted (ds ++ ns)).
    now apply cleaned_afterNames.
  - destruct (relPosition_shares ns ls) as (shared & Hb & Ht).
    destruct (relPosition ns ls) as [baseLeft targLeft]. cbn [fst snd] in *.
    assert (Hshared : names shared /\ names baseLeft /\ names targLeft).
    { rewrite Hb in Hns. rewrite Ht in Hls.
      apply names_app in Hns. apply names_app in Hls. tauto. }
    destruct Hshared as (Hs & Hbl & Htl).
    assert (Hsome : (map (fun _ : string => "..") baseLeft ++ targLeft)%list
                    <> []).
    { intros Hnil. apply app_eq_nil in Hnil. destruct Hnil as [Hmap ->].
      apply map_eq_nil in Hmap. subst baseLeft.
      rewrite app_nil_r in Hb, Ht. apply Ediff. subst ns ls.
      destruct shared; [contradiction | reflexivity]. }
    rewrite splitSeparator_cat; [|assumption|].
    2:{ apply Forall_app. split.
        - apply Forall_forall. intros e He. apply in_map_iff in He.
          now destruct He as (_ & <- & _).
        - eapply Forall_impl; [|exact Htl]. now intros e [_ He]. }
    rewrite fold_left_app, Hb, app_assoc.
    rewrite cleanElement_dotdots
      by (try assumption; apply names_app; now split).
    rewrite cleanElement_names
      by (try assumption; apply names_app; now split).
    rewrite <- app_assoc, <- Ht.
    apply cleaned_afterNames. apply names_app. now split.
Qed.

Lemma plain_root (dest : string) :
  plainPath dest = true \/ plainAbsolute dest = true ->
  exists rooted ds, names ds /\ dest = pathOf rooted ds.
Proof.
  intros [Hrel|Habs].
  - destruct (plainPath_names dest Hrel) as (ds & Hne & Hds & ->).
    exists false, ds. split; [assumption|].
    destruct ds; [contradiction | reflexivity].
  - destruct dest as [|c rest]; [discriminate|].
    cbn [plainAbsolute] in Habs. apply andb_prop in Habs.
    destruct Habs as [Hc Hrest].
    unfold IsPathSeparator, Separator in Hc. apply Ascii.eqb_eq in Hc.
    subst c. apply orb_prop in Hrest. destruct Hrest as [Hnil|Hrest].
    + apply String.eqb_eq in Hnil. subst rest.
      exists true, []. split; [constructor | reflexivity].
    + destruct (plainPath_names rest Hrest) as (ds & Hne & Hds & ->).
      exists true, ds. split; [assumption|].
      destruct ds; [contradiction | reflexivity].
Qed.

(** For names all the way, the link target that [extractTarGz] computes
    exists, and from the directory of the link it leads to the link name
    under the destination. *)
Lemma relative_target_resolves (dest name linkname : string) :
  plainPath dest = true \/ plainAbsolute dest = true ->
  plainPath name = true -> plainPath linkname = true ->
  exists linkTarget,
    Rel (Dir name) linkname = inl linkTarget /\
    Join [Dir (Join [dest; name]); linkTarget] = Join [dest; linkname].
Proof.
  intros Hdest Hname Hlink.
  destruct (plain_root dest Hdest) as (rooted & ds & Hds & ->).
  destruct (plainPath_names name Hname) as (nms & Hnms & Hnames & ->).
  destruct (plainPath_names linkname Hlink) as (ls & Hne & Hls & ->).
  destruct (exists_last Hnms) as (ns & n & ->).
  pose proof Hnames as Hall.
  apply names_app in Hnames. destruct Hnames as [Hns Hn].
  inversion Hn as [|? ? [Hplain Hsep] _]; subst.
  replace (cat (ns ++ [n])) with (pathOf false (ns ++ [n]))
    by (destruct ns; reflexivity).
  rewrite (Dir_names false ns n Hns Hplain Hsep).
  rewrite (Rel_names ns ls Hns Hls Hne). eexists. split; [reflexivity|].
  replace (pathOf false (ns ++ [n])) with (cat (ns ++ [n]))
    by (destruct ns; reflexivity).
  rewrite (Join_names rooted ds (ns ++ [n])), (Join_names rooted ds ls);
    try assumption.
  rewrite app_assoc, Dir_names;
    [|apply names_app; now split | assumption | assumption].
  apply Rel_resolves; try assumption.
  now apply Rel_names.
Qed.

End plain_paths.

(** [Rel] on the cases its documentation and tests go through: shared
    leading elements are dropped, each element left of the base costs one
    [..], and a base that goes on with [..] has no answer. *)
Example Rel_by_example :
  map (fun '(base, targ) => filepath.Rel base targ)
    [("a/b", "a/b/."); ("ab/cd", "ab/cde"); ("a/b", "a/b/c/d");
     ("a/b", "a/b/../c"); ("a/b/../c", "a/b"); ("a/b/c", "a/c/d");
     ("a/b/c/d/", "a/b/"); ("../../a/b", "../../a/b/c/d");
     ("/a/b/c", "/a/c/d"); ("/a/b/c/d", "/a/b"); (".", "a/b"); (".", "..");
     ("a", ".")]
  = [inl "."; inl "../cde"; inl "c/d"; inl "../c"; inl "../b";
     inl "../../c/d"; inl "../.."; inl "c/d"; inl "../../c/d"; inl "../..";
     inl "a/b"; inl ".."; inl ".."] /\
  map (fun '(base, targ) => filepath.Rel base targ)
    [("..", "."); ("..", "a"); ("../..", ".."); ("../../x", "..");
     ("a", "/a"); ("/a", "a")]
  = [inr "Rel: can't make . relative to ..";
     inr "Rel: can't make a relative to ..";
     inr "Rel: can't make .. relative to ../..";
     inr "Rel: can't make .. relative to ../../x";
     inr "Rel: can't make /a relative to a";
     inr "Rel: can't make a relative to /a"].
Proof. split; reflexivity. Qed.

(** ** Version *)

Lemma Version_of_suffixed (hl : Launchable) (stem : string) :
  filepath.Base (Location hl) = stem ++ ".tar.gz" -> Version hl = Ret stem.
Proof.
  intros H. unfold Version. rewrite H.
  now rewrite (slice_to_strips_suffix stem ".tar.gz").
Qed.

(** C5.  For a location ending in [.tar.gz], [Version] returns the base
    name of the location without that suffix: putting the suffix back
    gives the base name again.  A location [dir/myapp_1.2.3.tar.gz] has
    version [myapp_1.2.3]. *)
Theorem Version_strips_tar_gz :
  (forall (hl : Launchable) (stem : string),
      Location hl = stem ++ ".tar.gz" ->
      exists version,
        Version hl = Ret version /\
        version ++ ".tar.gz" = filepath.Base (Location hl)) /\
  (forall (hl : Launchable) (dir : string),
      Location hl = dir ++ "/" ++ "myapp_1.2.3.tar.gz" ->
      Version hl = Ret "myapp_1.2.3").
Proof.
  split.
  - intros hl stem Hloc.
    destruct (filepath_facts.Base_keeps_suffix stem ".tar.gz") as [v Hv];
      try reflexivity; try discriminate.
    rewrite <- Hloc in Hv. exists v. split.
    + now apply Version_of_suffixed.
    + now rewrite Hv.
  - intros hl dir Hloc.
    apply (Version_of_suffixed hl "myapp_1.2.3"). rewrite Hloc.
    apply filepath_facts.Base_of_child; try reflexivity; discriminate.
Qed.

Lemma Version_strips_tar_gz_witness :
  exists version,
    Version myapp = Ret version /\
    version ++ ".tar.gz" = "myapp_1.2.3.tar.gz".
Proof.
  exact (proj1 Version_strips_tar_gz myapp
           "http://repo/artifacts/myapp_1.2.3" eq_refl).
Defined.

Lemma Version_short (hl : Launchable) :
  (len (filepath.Base (Location hl)) < 7)%Z -> Version hl = Panic slicePanic.
Proof.
  intros H. unfold Version. rewrite slice_to_short; [reflexivity|].
  change (len ".tar.gz") with 7%Z. lia.
Qed.

Lemma Version_long (hl : Launchable) :
  (7 <= len (filepath.Base (Location hl)))%Z ->
  exists version, Version hl = Ret version.
Proof.
  intros H. unfold Version.
  destruct (slice_to_within (filepath.Base (Location hl))
              (len (filepath.Base (Location hl)) - len ".tar.gz")) as [v Hv].
  { change (len ".tar.gz") with 7%Z. lia. }
  rewrite Hv. eauto.
Qed.

(** C10.  When the base name of the location is shorter than [.tar.gz],
    the slice in [Version] has a negative bound and [Version] panics; so
    do [InstallDir], [Installed], [Install] and [Executables], before any
    call to the outside.  [Version] returns a value exactly when the base
    name has at least 7 bytes.  The location [x.gz] is such an input. *)
Theorem Version_panics_on_short_base_name (hl : Launchable) :
  ((len (filepath.Base (Location hl)) < 7)%Z ->
     Version hl = Panic slicePanic /\
     InstallDir hl = Panic slicePanic /\
     Installed hl = Panic slicePanic /\
     Install hl = Panic slicePanic /\
     forall serviceBuilder, Executables hl serviceBuilder = Panic slicePanic) /\
  ((exists version, Version hl = Ret version) <->
     (7 <= len (filepath.Base (Location hl)))%Z).
Proof.
  split.
  - intros H. pose proof (Version_short hl H) as HV.
    assert (HD : InstallDir hl = Panic slicePanic)
      by (unfold InstallDir; now rewrite HV).
    assert (HI : Installed hl = Panic slicePanic)
      by (unfold Installed; now rewrite HD).
    repeat split; trivial.
    + unfold Install. now rewrite HI.
    + intros sb. unfold Executables. now rewrite HI.
  - split.
    + intros [v Hv].
      destruct (Z.lt_ge_cases (len (filepath.Base (Location hl))) 7)
        as [Hlt|Hge]; [|exact Hge].
      rewrite (Version_short hl Hlt) in Hv. discriminate.
    + apply Version_long.
Qed.

Lemma Version_panics_on_short_base_name_witness :
  Location shortName = "x.gz" /\
  Version shortName = Panic slicePanic /\
  Install shortName = Panic slicePanic.
Proof.
  split; [reflexivity|].
  refine ((fun H => conj (proj1 H) (proj1 (proj2 (proj2 (proj2 H)))))
            (proj1 (Version_panics_on_short_base_name shortName) _)).
  reflexivity.
Defined.

(** ** Running programs *)

Section Running.

Context {S : Type} (h : handler S).

Lemma run_bind {A B : Type} (p : prog A) (f : A -> prog B) (s : S) :
  run h (bind p f) s =
    match run h p s with
    | (Returned a, t, s1) =>
        let '(o, t', s2) := run h (f a) s1 in (o, (t ++ t')%list, s2)
    | (Panicked msg, t, s1) => (Panicked msg, t, s1)
    end.
Proof.
  revert s. induction p as [a|msg|X c k IH]; intros s; simpl.
  - destruct (run h (f a) s) as [[o t] s2]. reflexivity.
  - reflexivity.
  - destruct (h X c s) as [x s1]. rewrite IH.
    destruct (run h (k x) s1) as [[[a|msg] t] s2]; simpl.
    + destruct (run h (f a) s2) as [[o t'] s3]. reflexivity.
    + reflexivity.
Qed.

(** A deferred call runs last, whatever way the body leaves, and the
    body's outcome stands.  (The cleanup is [_ <- do c ;; Ret tt] with the
    monad unfolded.) *)
Lemma run_defer {A X : Type} (c : call X) (body : prog A) (s : S) :
  run h (defer (Call c (fun _ => Ret tt)) body) s =
    let '(o, t, s1) := run h body s in
    (o, (t ++ [Event c (answer h c s1)])%list, after h c s1).
Proof.
  revert s. induction body as [a|msg|Y d k IH]; intros s; simpl.
  - unfold answer, after. destruct (h X c s) as [x s1]. reflexivity.
  - unfold answer, after. destruct (h X c s) as [x s1]. reflexivity.
  - destruct (h Y d s) as [y s1]. rewrite IH.
    destruct (run h (k y) s1) as [[o t] s2]. reflexivity.
Qed.

Lemma run_do {X : Type} (c : call X) (s : S) :
  run h (do c) s = (Returned (answer h c s), [Event c (answer h c s)], after h c s).
Proof.
  unfold do, answer, after. simpl. destruct (h X c s) as [x s1]. reflexivity.
Qed.

Lemma run_call {A X : Type} (c : call X) (k : X -> prog A) (s : S) :
  run h (Call c k) s =
    let '(o, t, s2) := run h (k (answer h c s)) (after h c s) in
    (o, Event c (answer h c s) :: t, s2).
Proof.
  unfold answer, after. simpl. destruct (h X c s) as [x s1]. reflexivity.
Qed.

End Running.

(** Programs of this file are finite trees: running one is a matter of
    unfolding the monad and following the environment's answers. *)
Ltac unfold_prog := cbn [bind defer do].
Ltac ran_to_end := unfold trace_of, outcome_of, state_of; cbn [run fst snd].
Ltac next_call := unfold_prog; rewrite run_call; cbv zeta; unfold_prog.

(** ** Installed, Executables, Install *)

Lemma run_Installed {S : Type} (h : handler S) (s : S) (hl : Launchable)
    (dir : string) :
  InstallDir hl = Ret dir ->
  run h (Installed hl) s =
    (Returned (match answer h (os_Stat dir) s with
               | inl _ => true
               | inr _ => false
               end),
     [Event (os_Stat dir) (answer h (os_Stat dir) s)],
     after h (os_Stat dir) s).
Proof.
  intros Hdir. unfold Installed. rewrite Hdir. simpl bind.
  rewrite run_call. reflexivity.
Qed.

Lemma InstallDir_myapp :
  InstallDir myapp = Ret "/data/pods/myapp/installs/myapp_1.2.3".
Proof. reflexivity. Qed.

(** C9.  When the stat of the install directory fails, [Executables]
    returns no executables and the error [<id> is not installed], and the
    stat is the only call it makes; when the stat succeeds, discovery goes
    on to [<installDir>/bin/launch]. *)
Theorem Executables_not_installed {S : Type} (h : handler S) (s : S)
    (hl : Launchable) (serviceBuilder : runit.ServiceBuilder) (dir : string) :
  InstallDir hl = Ret dir ->
  (forall err,
      answer h (os_Stat dir) s = inr err ->
      run h (Executables hl serviceBuilder) s =
        (Returned ([], Some (Errorf "%s is not installed" [ArgString (Id hl)])),
         [Event (os_Stat dir) (inr err)],
         after h (os_Stat dir) s)) /\
  (forall info,
      answer h (os_Stat dir) s = inl info ->
      exists o t s',
        run h (Executables hl serviceBuilder) s =
          (o,
           Event (os_Stat dir) (inl info)
             :: Event (os_Stat (filepath.Join [dir; "bin"; "launch"]))
                  (answer h (os_Stat (filepath.Join [dir; "bin"; "launch"]))
                     (after h (os_Stat dir) s))
             :: t,
           s')).
Proof.
  intros Hdir. split.
  - intros err Herr. unfold Executables.
    rewrite run_bind, (run_Installed h s hl dir Hdir), Herr. reflexivity.
  - intros info Hinfo. unfold Executables.
    rewrite run_bind, (run_Installed h s hl dir Hdir), Hinfo.
    cbn [negb]. cbv iota. rewrite Hdir. simpl bind. rewrite run_call.
    destruct (run h _ _) as [[o t] s']. simpl. eauto.
Qed.

Lemma Executables_not_installed_witness :
  run (stateless nothingInstalled) (Executables myapp runitRoot) tt =
    (Returned ([], Some (Errorf "%s is not installed" [ArgString "myapp"])),
     [Event (os_Stat "/data/pods/myapp/installs/myapp_1.2.3")
        (inr (noSuchFile "stat" "/data/pods/myapp/installs/myapp_1.2.3"))],
     tt).
Proof.
  exact (proj1 (Executables_not_installed (stateless nothingInstalled) tt myapp
                  runitRoot "/data/pods/myapp/installs/myapp_1.2.3"
                  InstallDir_myapp)
           (noSuchFile "stat" "/data/pods/myapp/installs/myapp_1.2.3") eq_refl).
Defined.

(** C2.  When the install directory exists (its stat succeeds), [Install]
    returns [nil] and the stat is the only call it makes: nothing is
    fetched, nothing is extracted, no call changes a file.  On a host that
    a stat leaves as it is, a second [Install] does the same and the host
    is still as it was. *)
Theorem Install_already_installed {S : Type} (h : handler S) (s : S)
    (hl : Launchable) (dir : string) (info : os.FileInfo) :
  InstallDir hl = Ret dir ->
  answer h (os_Stat dir) s = inl info ->
  run h (Install hl) s =
    (Returned None, [Event (os_Stat dir) (inl info)], after h (os_Stat dir) s) /\
  (after h (os_Stat dir) s = s ->
   run h (_ <- Install hl ;; Install hl) s =
     (Returned None,
      [Event (os_Stat dir) (inl info); Event (os_Stat dir) (inl info)],
      s)).
Proof.
  intros Hdir Hinfo.
  assert (Hone : forall s0, answer h (os_Stat dir) s0 = inl info ->
            run h (Install hl) s0 =
              (Returned None, [Event (os_Stat dir) (inl info)],
               after h (os_Stat dir) s0)).
  { intros s0 H0. unfold Install.
    rewrite run_bind, (run_Installed h s0 hl dir Hdir), H0. reflexivity. }
  split.
  - now apply Hone.
  - intros Hsame. rewrite run_bind, (Hone s Hinfo), Hsame.
    rewrite (Hone s Hinfo), Hsame. reflexivity.
Qed.

Lemma Install_already_installed_witness :
  run (stateless allGood) (Install myapp) tt =
    (Returned None,
     [Event (os_Stat "/data/pods/myapp/installs/myapp_1.2.3")
        (inl {| os.Name := "myapp_1.2.3"; os.IsDir := true |})],
     tt).
Proof.
  exact (proj1 (Install_already_installed (stateless allGood) tt myapp
                  "/data/pods/myapp/installs/myapp_1.2.3"
                  {| os.Name := "myapp_1.2.3"; os.IsDir := true |}
                  InstallDir_myapp eq_refl)).
Defined.

(** On a host with an empty disk the first [Install] fetches and unpacks
    the artifact; the second finds the install directory, makes the one
    stat, and leaves the disk as the first left it. *)
Example Install_twice_unpacks_once :
  let installDir := "/data/pods/myapp/installs/myapp_1.2.3" in
  let first := run (onDisk smallArtifact) (Install myapp) [] in
  outcome_of first = Returned None /\
  state_of first =
    [installDir ++ "/a/c/link"; installDir ++ "/bin"; installDir] /\
  run (onDisk smallArtifact) (Install myapp) (state_of first) =
    (Returned None,
     [Event (os_Stat installDir)
        (inl {| os.Name := "myapp_1.2.3"; os.IsDir := true |})],
     state_of first).
Proof. cbv zeta. repeat split; reflexivity. Qed.

(** ** Start *)

Lemma run_startEach_nil {S : Type} (h : handler S) (s : S) :
  run h (startEach []) s = (Returned None, [], s).
Proof. reflexivity. Qed.

(** One turn of the loop: only [SuperviseOkMissing] leads to the next
    executable; any other result of the restart, [nil] included, is
    returned at once. *)
Lemma run_startEach_cons {S : Type} (h : handler S) (s : S)
    (executable : Executable) (rest : list Executable) :
  run h (startEach (executable :: rest)) s =
    let c := sv_Restart (Service executable) in
    match snd (answer h c s) with
    | Some SuperviseOkMissing =>
        let '(o, t, s2) := run h (startEach rest) (after h c s) in
        (o, Event c (answer h c s) :: t, s2)
    | err => (Returned err, [Event c (answer h c s)], after h c s)
    end.
Proof.
  cbv zeta. change (startEach (executable :: rest)) with
    ('(_, err) <- do (sv_Restart (Service executable)) ;;
     match err with
     | Some SuperviseOkMissing => startEach rest
     | _ => Ret err
     end).
  unfold do. simpl bind. rewrite run_call.
  destruct (answer h (sv_Restart (Service executable)) s) as [out err].
  destruct err as [[ | | | | ]|]; simpl; try reflexivity.
Qed.

(** X3.  While the supervisor answers [SuperviseOkMissing], every
    executable is sent a restart and the loop ends with [nil]. *)
Lemma startEach_tolerates_missing {S : Type} (h : handler S)
    (executables : list Executable) :
  (forall service s, snd (answer h (sv_Restart service) s)
                     = Some SuperviseOkMissing) ->
  forall s,
    outcome_of (run h (startEach executables) s) = Returned None /\
    restarted (trace_of (run h (startEach executables) s))
      = map Service executables.
Proof.
  intros Hmiss. induction executables as [|e rest IH]; intros s.
  - split; reflexivity.
  - rewrite run_startEach_cons. cbv zeta. rewrite Hmiss.
    destruct (IH (after h (sv_Restart (Service e)) s)) as [Ho Ht].
    destruct (run h (startEach rest) _) as [[o t] s2].
    unfold outcome_of, trace_of in *. simpl in *. split; [exact Ho|].
    now rewrite Ht.
Qed.

(** X4.  A restart that fails with anything but [SuperviseOkMissing]
    ends the loop: the error is returned and the executables after it get
    no request. *)
Lemma startEach_aborts_on_error {S : Type} (h : handler S) (s : S)
    (executable : Executable) (rest : list Executable) (out : string)
    (e : error) :
  answer h (sv_Restart (Service executable)) s = (out, Some e) ->
  e <> SuperviseOkMissing ->
  run h (startEach (executable :: rest)) s =
    (Returned (Some e),
     [Event (sv_Restart (Service executable)) (out, Some e)],
     after h (sv_Restart (Service executable)) s).
Proof.
  intros Ha Hne. rewrite run_startEach_cons. cbv zeta. rewrite Ha. simpl.
  destruct e; try reflexivity. contradiction.
Qed.

(** A restart that succeeds ends the loop as well. *)
Lemma startEach_returns_on_success {S : Type} (h : handler S) (s : S)
    (executable : Executable) (rest : list Executable) (out : string) :
  answer h (sv_Restart (Service executable)) s = (out, None) ->
  run h (startEach (executable :: rest)) s =
    (Returned None,
     [Event (sv_Restart (Service executable)) (out, None)],
     after h (sv_Restart (Service executable)) s).
Proof.
  intros Ha. rewrite run_startEach_cons. cbv zeta. rewrite Ha. reflexivity.
Qed.

Lemma startEach_tolerates_missing_witness :
  outcome_of (run (stateless notSupervisedYet)
                (startEach (map myappExecutable ["web"; "worker"])) tt)
    = Returned None /\
  restarted (trace_of (run (stateless notSupervisedYet)
                         (startEach (map myappExecutable ["web"; "worker"])) tt))
    = map Service (map myappExecutable ["web"; "worker"]).
Proof.
  apply (startEach_tolerates_missing (stateless notSupervisedYet)
           (map myappExecutable ["web"; "worker"])).
  intros service s. reflexivity.
Defined.

Lemma startEach_aborts_on_error_witness :
  run (stateless supervisorDown)
    (startEach (map myappExecutable ["web"; "worker"])) tt =
    (Returned (Some (errorString "unable to open supervise/control")),
     [Event (sv_Restart (Service (myappExecutable "web")))
        ("", Some (errorString "unable to open supervise/control"))],
     tt).
Proof.
  apply (startEach_aborts_on_error (stateless supervisorDown) tt
           (myappExecutable "web") [myappExecutable "worker"] ""
           (errorString "unable to open supervise/control")).
  - reflexivity.
  - discriminate.
Defined.

(** C1 (the code at the failing input).  On a host whose [bin/launch]
    holds [web] and [worker] and whose supervisor restarts both without
    error, [Start] discovers both, restarts [myapp__web], and returns
    [nil]: [myapp__worker] is never sent a restart. *)
Theorem Start_leaves_services_unstarted :
  outcome_of (run (stateless twoServices) (Executables myapp runitRoot) tt)
    = Returned (map myappExecutable ["web"; "worker"], None) /\
  outcome_of (run (stateless twoServices) (Start myapp runitRoot) tt)
    = Returned None /\
  restarted (trace_of (run (stateless twoServices) (Start myapp runitRoot) tt))
    = [Service (myappExecutable "web")].
Proof. repeat split; reflexivity. Qed.

(** ** Hooks *)

Lemma run_invokeBinScript {S : Type} (h : handler S) (s : S) (hl : Launchable)
    (script dir : string) :
  InstallDir hl = Ret dir ->
  let cmdPath := filepath.Join [dir; "bin"; script] in
  let stat := os_Stat cmdPath in
  let cmd := cmd_Run (Chpst hl) ["-u"; RunAs hl; "-e"; ConfigDir hl; cmdPath] in
  run h (invokeBinScript hl script) s =
    match answer h stat s with
    | inr err => (Returned ("", Some err), [Event stat (inr err)], after h stat s)
    | inl info =>
        (Returned (answer h cmd (after h stat s)),
         [Event stat (inl info); Event cmd (answer h cmd (after h stat s))],
         after h cmd (after h stat s))
    end.
Proof.
  intros Hdir. cbv zeta. unfold invokeBinScript. rewrite Hdir. simpl bind.
  rewrite run_call. destruct (answer h (os_Stat _) s) as [info|err].
  - simpl bind. rewrite run_call.
    destruct (answer h (cmd_Run _ _) _) as [output [e|]]; reflexivity.
  - reflexivity.
Qed.

Lemma run_hook {S : Type} (h : handler S) (s : S) (hl : Launchable)
    (script : string) (hook : prog (string * option error)) :
  hook = ('(output, err) <- invokeBinScript hl script ;;
          match err with
          | Some e => if negb (os.IsNotExist e) then Ret (output, Some e)
                      else Ret (output, None)
          | None => Ret (output, None)
          end) ->
  run h hook s =
    match run h (invokeBinScript hl script) s with
    | (Returned r, t, s1) => (Returned (swallowNotExist r), t, s1)
    | (Panicked msg, t, s1) => (Panicked msg, t, s1)
    end.
Proof.
  intros ->. rewrite run_bind.
  destruct (run h (invokeBinScript hl script) s) as [[[[output err]|msg] t] s1];
    [|reflexivity].
  destruct err as [e|]; simpl; [|now rewrite app_nil_r].
  destruct (os.IsNotExist e); simpl; now rewrite app_nil_r.
Qed.

Lemma run_hooks {S : Type} (h : handler S) (s : S) (hl : Launchable)
    (script : string) (hook : prog (string * option error)) :
  In (script, hook) (hooks hl) ->
  run h hook s =
    match run h (invokeBinScript hl script) s with
    | (Returned r, t, s1) => (Returned (swallowNotExist r), t, s1)
    | (Panicked msg, t, s1) => (Panicked msg, t, s1)
    end.
Proof.
  intros [H|[H|[H|[]]]]; injection H as <- <-; now apply run_hook.
Qed.

(** X1.  A hook whose script is absent succeeds with empty output, and
    runs nothing. *)
Lemma hooks_absent_script {S : Type} (h : handler S) (s : S) (hl : Launchable)
    (dir script : string) (hook : prog (string * option error)) (err : error) :
  InstallDir hl = Ret dir ->
  In (script, hook) (hooks hl) ->
  let cmdPath := filepath.Join [dir; "bin"; script] in
  answer h (os_Stat cmdPath) s = inr err ->
  os.IsNotExist err = true ->
  run h hook s =
    (Returned ("", None), [Event (os_Stat cmdPath) (inr err)],
     after h (os_Stat cmdPath) s).
Proof.
  intros Hdir Hin cmdPath Hstat Hne. rewrite (run_hooks h s hl script hook Hin).
  rewrite (run_invokeBinScript h s hl script dir Hdir). cbv zeta.
  fold cmdPath. rewrite Hstat. simpl. now rewrite Hne.
Qed.

Lemma hooks_absent_script_witness :
  run (stateless nothingInstalled) (Disable myapp) tt =
    (Returned ("", None),
     [Event (os_Stat "/data/pods/myapp/installs/myapp_1.2.3/bin/disable")
        (inr (noSuchFile "stat"
                "/data/pods/myapp/installs/myapp_1.2.3/bin/disable"))],
     tt).
Proof.
  apply (hooks_absent_script (stateless nothingInstalled) tt myapp
           "/data/pods/myapp/installs/myapp_1.2.3" "disable" (Disable myapp)
           (noSuchFile "stat"
              "/data/pods/myapp/installs/myapp_1.2.3/bin/disable")
           InstallDir_myapp).
  - simpl. auto.
  - reflexivity.
  - reflexivity.
Defined.

(** X2.  A hook whose script is there and whose run fails with an error
    that [os.IsNotExist] rejects (a non-zero exit is one) returns the
    captured output and that error. *)
Lemma hooks_failing_script {S : Type} (h : handler S) (s : S) (hl : Launchable)
    (dir script : string) (hook : prog (string * option error))
    (info : os.FileInfo) (output : string) (e : error) :
  InstallDir hl = Ret dir ->
  In (script, hook) (hooks hl) ->
  let cmdPath := filepath.Join [dir; "bin"; script] in
  let cmd := cmd_Run (Chpst hl) ["-u"; RunAs hl; "-e"; ConfigDir hl; cmdPath] in
  answer h (os_Stat cmdPath) s = inl info ->
  answer h cmd (after h (os_Stat cmdPath) s) = (output, Some e) ->
  os.IsNotExist e = false ->
  run h hook s =
    (Returned (output, Some e),
     [Event (os_Stat cmdPath) (inl info); Event cmd (output, Some e)],
     after h cmd (after h (os_Stat cmdPath) s)).
Proof.
  intros Hdir Hin cmdPath cmd Hstat Hrun Hne.
  rewrite (run_hooks h s hl script hook Hin).
  rewrite (run_invokeBinScript h s hl script dir Hdir). cbv zeta.
  fold cmdPath. fold cmd. rewrite Hstat, Hrun. simpl. now rewrite Hne.
Qed.

Lemma hooks_failing_script_witness :
  run (stateless hooksFail) (Enable myapp) tt =
    (Returned ("enable: cannot register", Some (ExitError 1)),
     [Event (os_Stat "/data/pods/myapp/installs/myapp_1.2.3/bin/enable")
        (inl {| os.Name := "enable"; os.IsDir := false |});
      Event (cmd_Run "/usr/bin/chpst"
               ["-u"; "app"; "-e"; "/etc/myapp";
                "/data/pods/myapp/installs/myapp_1.2.3/bin/enable"])
        ("enable: cannot register", Some (ExitError 1))],
     tt).
Proof.
  apply (hooks_failing_script (stateless hooksFail) tt myapp
           "/data/pods/myapp/installs/myapp_1.2.3" "enable" (Enable myapp)
           {| os.Name := "enable"; os.IsDir := false |}
           "enable: cannot register" (ExitError 1) InstallDir_myapp).
  - simpl. auto.
  - reflexivity.
  - reflexivity.
  - reflexivity.
Defined.

(** X24.  A stat of the script that fails with an error other than
    not-exist ends the hook: that error is returned as it is, with empty
    output, and the script is not run. *)
Lemma hooks_stat_error {S : Type} (h : handler S) (s : S) (hl : Launchable)
    (dir script : string) (hook : prog (string * option error)) (err : error) :
  InstallDir hl = Ret dir ->
  In (script, hook) (hooks hl) ->
  let cmdPath := filepath.Join [dir; "bin"; script] in
  answer h (os_Stat cmdPath) s = inr err ->
  os.IsNotExist err = false ->
  run h hook s =
    (Returned ("", Some err), [Event (os_Stat cmdPath) (inr err)],
     after h (os_Stat cmdPath) s).
Proof.
  intros Hdir Hin cmdPath Hstat Hne. rewrite (run_hooks h s hl script hook Hin).
  rewrite (run_invokeBinScript h s hl script dir Hdir). cbv zeta.
  fold cmdPath. rewrite Hstat. simpl. now rewrite Hne.
Qed.

Lemma hooks_stat_error_witness :
  run (stateless statDenied) (PostActivate myapp) tt =
    (Returned ("", Some (permissionDenied "stat"
                 "/data/pods/myapp/installs/myapp_1.2.3/bin/post-activate")),
     [Event (os_Stat "/data/pods/myapp/installs/myapp_1.2.3/bin/post-activate")
        (inr (permissionDenied "stat"
                "/data/pods/myapp/installs/myapp_1.2.3/bin/post-activate"))],
     tt).
Proof.
  apply (hooks_stat_error (stateless statDenied) tt myapp
           "/data/pods/myapp/installs/myapp_1.2.3" "post-activate"
           (PostActivate myapp)
           (permissionDenied "stat"
              "/data/pods/myapp/installs/myapp_1.2.3/bin/post-activate")
           InstallDir_myapp).
  - simpl. auto.
  - reflexivity.
  - reflexivity.
Defined.

(** C3 (the code at the failing input).  The hook scripts exist, and the
    [chpst] binary named by the launchable does not: running the command
    fails with a [*os.PathError] for [ENOENT].  [Enable], [Disable] and
    [PostActivate] each stat their script, run the command, and return
    [nil]: the failure to execute is swallowed. *)
Theorem hooks_swallow_missing_chpst :
  let installed := "/data/pods/myapp/installs/myapp_1.2.3/bin/" in
  let ran (script : string) :=
    [ Event (os_Stat (installed ++ script))
        (inl {| os.Name := script; os.IsDir := false |});
      Event (cmd_Run "/usr/bin/chpst"
               ["-u"; "app"; "-e"; "/etc/myapp"; installed ++ script])
        ("", Some (PathError "fork/exec" "/usr/bin/chpst" os.ENOENT)) ] in
  run (stateless chpstMissing) (Enable myapp) tt
    = (Returned ("", None), ran "enable", tt) /\
  run (stateless chpstMissing) (Disable myapp) tt
    = (Returned ("", None), ran "disable", tt) /\
  run (stateless chpstMissing) (PostActivate myapp) tt
    = (Returned ("", None), ran "post-activate", tt).
Proof. cbv zeta. repeat split; reflexivity. Qed.

(** ** Launch *)

(** C4.  When the cgroup configuration fails, [Launch] returns the
    wrapped error and the write of the configuration is the only call it
    makes: no restart request, no enable hook.  When it succeeds, the
    calls of [Start] follow; the calls of [Enable] follow those only if
    [Start] returned [nil], and a failure of [Start] is returned wrapped
    with no call after it. *)
Theorem Launch_short_circuits {S : Type} (h : handler S) (s : S)
    (hl : Launchable) (serviceBuilder : runit.ServiceBuilder) :
  let write := cgroups_Write (CgroupConfig hl) in
  (forall e,
      answer h write s = Some e ->
      run h (Launch hl serviceBuilder) s =
        (Returned (Some (Errorf "Could not configure cgroup %s: %s"
                           [ArgString (cgroups.Name (CgroupConfig hl));
                            ArgError e])),
         [Event write (Some e)],
         after h write s)) /\
  (answer h write s = None ->
   run h (Launch hl serviceBuilder) s =
     match run h (Start hl serviceBuilder) (after h write s) with
     | (Returned None, started, s2) =>
         match run h (Enable hl) s2 with
         | (Returned (_, err), enabled, s3) =>
             (Returned err, (Event write None :: started ++ enabled)%list, s3)
         | (Panicked msg, enabled, s3) =>
             (Panicked msg, (Event write None :: started ++ enabled)%list, s3)
         end
     | (Returned (Some e), started, s2) =>
         (Returned (Some (Errorf "Could not launch %s: %s"
                            [ArgString (Id hl); ArgError e])),
          Event write None :: started, s2)
     | (Panicked msg, started, s2) =>
         (Panicked msg, Event write None :: started, s2)
     end).
Proof.
  cbv zeta. split.
  - intros e He. unfold Launch, do. simpl bind. rewrite run_call, He.
    reflexivity.
  - intros Hok. unfold Launch, do. simpl bind. rewrite run_call, Hok.
    rewrite run_bind.
    destruct (run h (Start hl serviceBuilder) _) as [[[[e|]|msg] started] s2].
    + simpl. now rewrite app_nil_r.
    + rewrite run_bind.
      destruct (run h (Enable hl) s2) as [[[[output err]|msg] enabled] s3].
      * simpl. now rewrite app_nil_r.
      * reflexivity.
    + reflexivity.
Qed.

Lemma Launch_short_circuits_witness :
  run (stateless cgroupBroken) (Launch myapp runitRoot) tt =
    (Returned (Some (Errorf "Could not configure cgroup %s: %s"
                       [ArgString "myapp";
                        ArgError (errorString
                          "open /cgroup/cpu/myapp: permission denied")])),
     [Event (cgroups_Write {| cgroups.Name := "myapp" |})
        (Some (errorString "open /cgroup/cpu/myapp: permission denied"))],
     tt).
Proof.
  exact (proj1 (Launch_short_circuits (stateless cgroupBroken) tt myapp
                  runitRoot)
           (errorString "open /cgroup/cpu/myapp: permission denied") eq_refl).
Defined.

(** ** The pointer flip *)

Lemma InstallDir_no_call (hl : Launchable) :
  (exists dir, InstallDir hl = Ret dir) \/ InstallDir hl = Panic slicePanic.
Proof.
  unfold InstallDir, Version. destruct (slice_to _ _); simpl; eauto.
Qed.

Lemma flipSymlink_pointerFlip {S : Type} (h : handler S) (s : S)
    (hl : Launchable) (newLinkPath : string) :
  pointerFlip h s hl newLinkPath (flipSymlink hl newLinkPath).
Proof.
  unfold pointerFlip, flipSymlink. cbv zeta. next_call.
  destruct (answer h (ioutil_TempDir (RootDir hl) (Id hl)) s) as [dir|e];
    [|reflexivity].
  set (s1 := after h (ioutil_TempDir (RootDir hl) (Id hl)) s).
  set (tmp := filepath.Join [dir; Id hl]).
  destruct (InstallDir_no_call hl) as [[installDir Hdir]|Hdir]; rewrite Hdir;
    next_call.
  - destruct (answer h (os_Symlink installDir tmp) s1) as [e|] eqn:Hsym.
    + next_call. ran_to_end.
      eexists _, _. split; [|eapply flip_symlink_fails; exact Hdir]. reflexivity.
    + next_call.
      destruct (answer h (user_IDs (RunAs hl)) _) as [[uid gid]|e].
      * next_call.
        destruct (answer h (os_Lchown tmp uid gid) _) as [e|].
        -- next_call. ran_to_end.
           eexists _, _. split; [|eapply flip_lchown_fails; exact Hdir]. reflexivity.
        -- do 2 next_call. ran_to_end.
           eexists _, _. split; [|eapply flip_renames; exact Hdir]. reflexivity.
      * next_call. ran_to_end.
        eexists _, _. split; [|eapply flip_ids_fail; exact Hdir]. reflexivity.
  - ran_to_end. eexists _, _. split; [|eapply flip_panics; exact Hdir]. reflexivity.
Qed.

Example MakeCurrent_on_a_good_host :
  run (stateless allGood) (MakeCurrent myapp) tt =
    (Returned None,
     [Event (ioutil_TempDir "/data/pods/myapp" "myapp")
        (inl "/data/pods/myapp/myapp042");
      Event (os_Symlink "/data/pods/myapp/installs/myapp_1.2.3"
               "/data/pods/myapp/myapp042/myapp") None;
      Event (user_IDs "app") (inl (1000%Z, 1000%Z));
      Event (os_Lchown "/data/pods/myapp/myapp042/myapp" 1000 1000) None;
      Event (os_Rename "/data/pods/myapp/myapp042/myapp"
               "/data/pods/myapp/current") None;
      Event (os_RemoveAll "/data/pods/myapp/myapp042") None],
     tt).
Proof. reflexivity. Qed.

(** On a disk where [current] points at an older install, a flip whose
    lchown fails leaves [current] and the rest of the disk as they were;
    a flip that goes through leaves the same paths behind. *)
Example MakeCurrent_on_disk :
  let disk := ["/data/pods/myapp/current";
               "/data/pods/myapp/installs/myapp_1.2.3"] in
  let lchownFails : handler (list string) :=
    fun X c =>
      match c in call X0 return list string -> X0 * list string with
      | os_Lchown path _ _ => fun d =>
          (Some (PathError "lchown" path 1), d)
      | c0 => onDisk smallArtifact _ c0
      end in
  state_of (run lchownFails (MakeCurrent myapp) disk) = disk /\
  renamedOnto (trace_of (run lchownFails (MakeCurrent myapp) disk)) = [] /\
  state_of (run (onDisk smallArtifact) (MakeCurrent myapp) disk) = disk /\
  renamedOnto (trace_of (run (onDisk smallArtifact) (MakeCurrent myapp) disk))
    = ["/data/pods/myapp/current"].
Proof. cbv zeta. repeat split; reflexivity. Qed.

Lemma flipSymlink_renamesOnce {S : Type} (h : handler S) (s : S)
    (hl : Launchable) (newLinkPath : string) :
  renamesOnce h s newLinkPath (flipSymlink hl newLinkPath).
Proof.
  pose proof (flipSymlink_pointerFlip h s hl newLinkPath) as Hflip.
  unfold pointerFlip, renamesOnce in *. cbv zeta in Hflip.
  destruct (run h (flipSymlink hl newLinkPath) s) as [[o t] s'].
  unfold trace_of, outcome_of in *. cbn [fst snd] in *.
  destruct (answer h (ioutil_TempDir (RootDir hl) (Id hl)) s) as [dir|e].
  - destruct Hflip as (steps & cleanup & -> & Hsteps).
    inversion Hsteps; subst; cbn [renamedOnto app];
      try (left; split; [reflexivity|discriminate]).
    right. reflexivity.
  - injection Hflip as -> -> _. left. split; [reflexivity|discriminate].
Qed.

(** C8.  In every run of [MakeCurrent] and of [MakeLast], on every host:
    if no temporary directory can be made the error is returned and
    nothing else is called; otherwise the calls are the creation of the
    temporary directory, then steps on the link inside it (symlink, id
    lookup, lchown) that end at the first failure with its error, then,
    only after all of them succeeded, the one rename of that link onto
    [<root>/current] (or [<root>/last]), whose result is the result of the
    method, and last, in every case, the removal of the temporary
    directory.  So a run that does not succeed before the rename renames
    nothing, and no run renames more than once or onto another path. *)
Theorem pointer_flip_touches_pointer_by_rename_only {S : Type}
    (h : handler S) (s : S) (hl : Launchable) :
  let current := filepath.Join [RootDir hl; "current"] in
  let last := filepath.Join [RootDir hl; "last"] in
  (pointerFlip h s hl current (MakeCurrent hl) /\
   renamesOnce h s current (MakeCurrent hl)) /\
  (pointerFlip h s hl last (MakeLast hl) /\
   renamesOnce h s last (MakeLast hl)).
Proof.
  cbv zeta. repeat split;
    first [apply flipSymlink_pointerFlip | apply flipSymlink_renamesOnce].
Qed.

(** ** Extraction *)

Lemma Typeflag_eqb (a b : ascii) : Ascii.eqb a b = true -> a = b.
Proof. apply Ascii.eqb_eq. Qed.

Section Extraction.

Context {S : Type} (h : handler S) (hl : Launchable) (name dest : string)
  (uid gid : Z).

(** An entry of a type with no case in the [switch] ends the extraction
    on the spot: no call is made for it and the entries after it are not
    read. *)
Lemma extractEntries_unhandled (s : S) (hdr : tar.Header) (body : string)
    (rest : tarReader) :
  handledTypeflag (tar.Typeflag hdr) = false ->
  run h (extractEntries hl name dest uid gid (TarEntry hdr body rest)) s =
    (Returned (Some (Errorf
       "Unhandled type flag %q (header %v) when unpacking %s"
       [ArgByte (tar.Typeflag hdr); ArgHeader hdr; ArgString name])),
     [], s).
Proof.
  unfold handledTypeflag. intros H.
  apply orb_false_elim in H. destruct H as [H HregA].
  apply orb_false_elim in H. destruct H as [H Hreg].
  apply orb_false_elim in H. destruct H as [H Hdir].
  apply orb_false_elim in H. destruct H as [Hsym Hlink].
  cbn [extractEntries]. rewrite Hsym, Hlink, Hdir, Hreg, HregA. reflexivity.
Qed.

(** One turn of the extraction loop: it either returns an error, or goes
    on to the entries that follow after the calls [before], leaving
    [deferred] calls for the end.  A hardlink entry that lets the loop go
    on has been made a symlink, at the entry's path under [dest], to the
    link name taken relative to the directory of the entry's name. *)
Lemma extractEntries_step (s : S) (hdr : tar.Header) (body : string)
    (rest : tarReader) :
  (exists e t s',
      run h (extractEntries hl name dest uid gid (TarEntry hdr body rest)) s
        = (Returned (Some e), t, s')) \/
  (exists (before : list event) (deferred : S -> list event) (fin : S -> S)
          (s1 : S),
      handledTypeflag (tar.Typeflag hdr) = true /\
      (tar.Typeflag hdr = tar.TypeLink ->
       exists linkTarget,
         filepath.Rel (filepath.Dir (tar.Name hdr)) (tar.Linkname hdr)
           = inl linkTarget /\
         In (Event (os_Symlink linkTarget
                      (filepath.Join [dest; tar.Name hdr])) None) before) /\
      run h (extractEntries hl name dest uid gid (TarEntry hdr body rest)) s =
        let '(o, t, s2) := run h (extractEntries hl name dest uid gid rest) s1 in
        (o, (before ++ t ++ deferred s2)%list, fin s2)).
Proof.
  cbn [extractEntries]. unfold handledTypeflag.
  set (fpath := filepath.Join [dest; tar.Name hdr]).
  set (continue := extractEntries hl name dest uid gid rest).
  destruct (Ascii.eqb (tar.Typeflag hdr) tar.TypeSymlink) eqn:Esym.
  { next_call.
    destruct (answer h (os_Symlink (tar.Linkname hdr) fpath) s) as [e|] eqn:Ha.
    - left. ran_to_end. eauto.
    - right. exists [Event (os_Symlink (tar.Linkname hdr) fpath) None],
        (fun _ => []), (fun s2 => s2), (after h (os_Symlink (tar.Linkname hdr) fpath) s).
      split; [reflexivity|]. split.
      + intros Hlink. apply Typeflag_eqb in Esym. rewrite Hlink in Esym.
        discriminate.
      + destruct (run h continue _) as [[o t] s2]. cbn [app].
        now rewrite app_nil_r. }
  destruct (Ascii.eqb (tar.Typeflag hdr) tar.TypeLink) eqn:Elink.
  { destruct (filepath.Rel _ _) as [linkTarget|msg] eqn:Hrel.
    - next_call.
      destruct (answer h (os_Symlink linkTarget fpath) s) as [e|] eqn:Ha.
      + left. ran_to_end. eauto.
      + right. exists [Event (os_Symlink linkTarget fpath) None],
          (fun _ => []), (fun s2 => s2), (after h (os_Symlink linkTarget fpath) s).
        split; [reflexivity|]. split.
        * intros _. exists linkTarget. split; [reflexivity | now left].
        * destruct (run h continue _) as [[o t] s2]. cbn [app].
          now rewrite app_nil_r.
    - left. ran_to_end. eauto. }
  destruct (Ascii.eqb (tar.Typeflag hdr) tar.TypeDir) eqn:Edir.
  { next_call. set (mk := os_Mkdir fpath (tar.Mode hdr)).
    destruct (notNilAnd _ (answer h mk s)) as [e|] eqn:Hmk.
    - left. ran_to_end. eauto.
    - next_call.
      destruct (answer h (os_Chown fpath uid gid) _) as [e|].
      + left. ran_to_end. eauto.
      + right. exists [Event mk (answer h mk s);
                       Event (os_Chown fpath uid gid) None],
          (fun _ => []), (fun s2 => s2),
          (after h (os_Chown fpath uid gid) (after h mk s)).
        split; [reflexivity|]. split.
        * intros Hl. rewrite Hl in Elink. discriminate.
        * destruct (run h continue _) as [[o t] s2]. cbn [app].
          now rewrite app_nil_r. }
  destruct (Ascii.eqb (tar.Typeflag hdr) tar.TypeReg
            || Ascii.eqb (tar.Typeflag hdr) tar.TypeRegA) eqn:Ereg.
  { next_call. set (s0 := after h (os_OpenFile fpath (tar.Mode hdr)) s).
    destruct (answer h (os_OpenFile fpath (tar.Mode hdr)) s) as [e|].
    - left. ran_to_end. eauto.
    - next_call.
      destruct (answer h (File_Chown fpath uid gid) s0) as [e|].
      + left. next_call. ran_to_end. eauto.
      + next_call.
        destruct (answer h (io_Copy fpath body) _) as [e|].
        * left. next_call. ran_to_end. eauto.
        * next_call. rewrite run_defer. fold continue.
          right.
          exists [Event (os_OpenFile fpath (tar.Mode hdr)) None;
                  Event (File_Chown fpath uid gid) None;
                  Event (io_Copy fpath body) None;
                  Event (File_Close fpath)
                    (answer h (File_Close fpath)
                       (after h (io_Copy fpath body)
                          (after h (File_Chown fpath uid gid) s0)))],
            (fun s2 => [Event (File_Close fpath) (answer h (File_Close fpath) s2)]),
            (fun s2 => after h (File_Close fpath) s2),
            (after h (File_Close fpath)
               (after h (io_Copy fpath body)
                  (after h (File_Chown fpath uid gid) s0))).
          split; [cbn [orb]; exact Ereg|]. split.
          -- intros Hl. rewrite Hl in Elink. discriminate.
          -- destruct (run h continue _) as [[o t] s2]. reflexivity. }
  left. ran_to_end. eauto.
Qed.

Lemma extractEntries_rejects_unhandled (hdr : tar.Header) (tr : tarReader) :
  In hdr (entries tr) -> handledTypeflag (tar.Typeflag hdr) = false ->
  forall s, exists e t s',
    run h (extractEntries hl name dest uid gid tr) s = (Returned (Some e), t, s').
Proof.
  intros Hin Hbad. induction tr as [|err|hdr0 body rest IH]; intros s.
  - destruct Hin.
  - destruct Hin.
  - destruct (extractEntries_step s hdr0 body rest)
      as [Hstop|(before & deferred & fin & s1 & Hok & _ & Hrun)];
      [exact Hstop|].
    destruct Hin as [<-|Hin]; [congruence|].
    destruct (IH Hin s1) as (e & t & s' & Hrest).
    rewrite Hrun, Hrest. eauto.
Qed.

Lemma extractEntries_links (hdr : tar.Header) (tr : tarReader) :
  In hdr (entries tr) -> tar.Typeflag hdr = tar.TypeLink ->
  forall s,
    outcome_of (run h (extractEntries hl name dest uid gid tr) s)
      = Returned None ->
    exists linkTarget,
      filepath.Rel (filepath.Dir (tar.Name hdr)) (tar.Linkname hdr)
        = inl linkTarget /\
      In (Event (os_Symlink linkTarget (filepath.Join [dest; tar.Name hdr]))
            None)
         (trace_of (run h (extractEntries hl name dest uid gid tr) s)).
Proof.
  intros Hin Hlink. induction tr as [|err|hdr0 body rest IH]; intros s Hok.
  - destruct Hin.
  - destruct Hin.
  - destruct (extractEntries_step s hdr0 body rest)
      as [(e & t & s' & Hstop)|(before & deferred & fin & s1 & _ & Hsym & Hrun)].
    + rewrite Hstop in Hok. discriminate.
    + rewrite Hrun in Hok |- *.
      destruct (run h (extractEntries hl name dest uid gid rest) s1)
        as [[o t] s2] eqn:Hrest.
      unfold outcome_of, trace_of in *. cbn [fst snd] in *.
      destruct Hin as [<-|Hin].
      * destruct (Hsym Hlink) as (target & Hrel & Hev).
        exists target. split; [exact Hrel|]. apply in_or_app. now left.
      * specialize (IH Hin s1). rewrite Hrest in IH. cbn [fst snd] in IH.
        destruct (IH Hok) as (target & Hrel & Hev).
        exists target. split; [exact Hrel|].
        apply in_or_app. right. apply in_or_app. now left.
Qed.

(** Extraction does not panic. *)
Lemma extractEntries_returns (tr : tarReader) :
  forall s, exists err,
    outcome_of (run h (extractEntries hl name dest uid gid tr) s) = Returned err.
Proof.
  induction tr as [|err|hdr body rest IH]; intros s.
  - now exists None.
  - eexists. reflexivity.
  - destruct (extractEntries_step s hdr body rest)
      as [(e & t & s' & Hstop)|(before & deferred & fin & s1 & _ & _ & Hrun)].
    + rewrite Hstop. eexists. reflexivity.
    + rewrite Hrun. destruct (IH s1) as [err Herr].
      destruct (run h (extractEntries hl name dest uid gid rest) s1)
        as [[o t] s2]. exists err. exact Herr.
Qed.

End Extraction.

Lemma extractTarGz_rejects_unhandled {S : Type} (h : handler S)
    (hl : Launchable) (name dest : string) (hdr : tar.Header) (tr : tarReader) :
  In hdr (entries tr) -> handledTypeflag (tar.Typeflag hdr) = false ->
  forall s, exists e t s',
    run h (extractTarGz hl name (inl tr) dest) s = (Returned (Some e), t, s').
Proof.
  intros Hin Hbad s. unfold extractTarGz. next_call.
  destruct (answer h (user_IDs (RunAs hl)) s) as [[uid gid]|e].
  - next_call.
    destruct (answer h (util_MkdirChownAll dest uid gid 493) _) as [e|].
    + ran_to_end. eauto.
    + next_call. destruct (answer h (os_Chown dest uid gid) _) as [e|].
      * ran_to_end. eauto.
      * destruct (extractEntries_rejects_unhandled h hl name dest uid gid hdr
                    tr Hin Hbad
                    (after h (os_Chown dest uid gid)
                       (after h (util_MkdirChownAll dest uid gid 493)
                          (after h (user_IDs (RunAs hl)) s))))
          as (e & t & s' & Hrun).
        rewrite Hrun. eauto.
  - ran_to_end. eauto.
Qed.

Lemma Version_then_InstallDir (hl : Launchable) :
  (exists version,
      Version hl = Ret version /\
      InstallDir hl
        = Ret (filepath.Join [RootDir hl; "installs"; version])) \/
  (Version hl = Panic slicePanic /\ InstallDir hl = Panic slicePanic).
Proof.
  unfold InstallDir, Version. destruct (slice_to _ _); simpl; eauto.
Qed.

Lemma Install_rejects_unhandled {S : Type} (h : handler S) (s : S)
    (hl : Launchable) (hdr : tar.Header) (tr : tarReader) :
  In hdr (entries tr) -> handledTypeflag (tar.Typeflag hdr) = false ->
  opened (trace_of (run h (Install hl) s)) = Some (inl tr) ->
  exists e, outcome_of (run h (Install hl) s) = Returned (Some e).
Proof.
  intros Hin Hbad. unfold Install, Installed.
  destruct (Version_then_InstallDir hl) as [(version & Hv & Hd)|[Hv Hd]];
    rewrite !Hd, !Hv.
  2:{ ran_to_end. cbn [opened bind]. discriminate. }
  set (dir := filepath.Join [RootDir hl; "installs"; version]).
  next_call. destruct (answer h (os_Stat dir) s) as [info|e0].
  { ran_to_end. cbn [opened]. discriminate. }
  cbv iota. next_call.
  destruct (answer h (ioutil_TempDir "" version) _) as [outDir|e1].
  2:{ next_call. ran_to_end. cbn [opened]. discriminate. }
  set (outPath := filepath.Join [outDir; version]).
  next_call. destruct (answer h (FetchToFile (Location hl) outPath) _) as [e2|].
  { next_call. ran_to_end. cbn [opened]. discriminate. }
  next_call. destruct (answer h (os_Open outPath) _) as [fd|e3] eqn:Hopen.
  2:{ next_call. ran_to_end. cbn [opened]. discriminate. }
  rewrite !run_defer, run_bind.
  destruct fd as [tr'|gzerr].
  - match goal with |- context [run h (extractTarGz hl outPath (inl tr') dir) ?s0] =>
      destruct (run h (extractTarGz hl outPath (inl tr') dir) s0)
        as [[[[e|]|msg] t] s2] eqn:Hrun
    end;
      ran_to_end; cbn [opened]; intros Heq; injection Heq as ->;
      [eauto| |];
      destruct (extractTarGz_rejects_unhandled h hl outPath dir hdr tr Hin Hbad
                  (after h (os_Open outPath)
                     (after h (FetchToFile (Location hl) outPath)
                        (after h (ioutil_TempDir "" version)
                           (after h (os_Stat dir) s)))))
        as (e & t0 & s0 & Hstop);
      rewrite Hstop in Hrun; discriminate.
  - unfold extractTarGz. ran_to_end. cbn [opened]. discriminate.
Qed.

(** X5.  On a host where every call succeeds, an extractable archive is
    unpacked to the end. *)
Lemma extraction_succeeds_on_good_host (hl : Launchable) (name dest : string)
    (uid gid : Z) (tr : tarReader) :
  extractable tr = true ->
  outcome_of (run (stateless allGood) (extractEntries hl name dest uid gid tr) tt)
    = Returned None.
Proof.
  induction tr as [|err|hdr body rest IH]; intros Hok.
  - reflexivity.
  - discriminate.
  - cbn [extractable] in Hok.
    apply andb_prop in Hok. destruct Hok as [Hok Hrest].
    apply andb_prop in Hok. destruct Hok as [Hflag Hrel].
    specialize (IH Hrest). unfold handledTypeflag in Hflag.
    cbn [extractEntries].
    destruct (Ascii.eqb (tar.Typeflag hdr) tar.TypeSymlink).
    { next_call. cbn [answer after stateless allGood fst snd].
      destruct (run (stateless allGood) _ _) as [[o t] s2]. exact IH. }
    destruct (Ascii.eqb (tar.Typeflag hdr) tar.TypeLink).
    { destruct (filepath.Rel _ _) as [target|msg]; [|discriminate].
      next_call. cbn [answer after stateless allGood fst snd].
      destruct (run (stateless allGood) _ _) as [[o t] s2]. exact IH. }
    destruct (Ascii.eqb (tar.Typeflag hdr) tar.TypeDir).
    { next_call. cbn [answer after stateless allGood fst snd notNilAnd].
      next_call. cbn [answer after stateless allGood fst snd].
      destruct (run (stateless allGood) _ _) as [[o t] s2]. exact IH. }
    cbn [orb] in Hflag. rewrite Hflag.
    next_call. cbn [answer after stateless allGood fst snd].
    next_call. cbn [answer after stateless allGood fst snd].
    next_call. cbn [answer after stateless allGood fst snd].
    next_call. cbn [answer after stateless allGood fst snd].
    rewrite run_defer.
    destruct (run (stateless allGood) _ _) as [[o t] s2]. exact IH.
Qed.

Lemma extraction_succeeds_on_good_host_witness :
  outcome_of
    (run (stateless allGood)
       (extractEntries myapp "/tmp/myapp_1.2.3042/myapp_1.2.3"
          "/data/pods/myapp/installs/myapp_1.2.3" 1000 1000
          (TarEntry binDirEntry "" (TarEntry hardlinkEntry "" TarEOF))) tt)
    = Returned None.
Proof.
  apply (extraction_succeeds_on_good_host myapp
           "/tmp/myapp_1.2.3042/myapp_1.2.3"
           "/data/pods/myapp/installs/myapp_1.2.3" 1000 1000
           (TarEntry binDirEntry "" (TarEntry hardlinkEntry "" TarEOF))).
  reflexivity.
Defined.

Example hardlink_on_a_good_host :
  run (stateless allGood)
    (extractEntries myapp "/tmp/myapp_1.2.3042/myapp_1.2.3"
       "/data/pods/myapp/installs/myapp_1.2.3" 1000 1000
       (TarEntry hardlinkEntry "" TarEOF)) tt =
    (Returned None,
     [Event (os_Symlink "../b/target"
               "/data/pods/myapp/installs/myapp_1.2.3/a/c/link") None],
     tt).
Proof. reflexivity. Qed.

(** A hardlink whose link name is rooted, under an entry name that is
    not: the link name cannot be taken relative to the directory of the
    entry, the extraction ends with that error, and no link is made. *)
Lemma hardlink_with_rooted_link_name_makes_no_link :
  run (stateless allGood)
    (extractEntries myapp "/tmp/myapp_1.2.3042/myapp_1.2.3"
       "/data/pods/myapp/installs/myapp_1.2.3" 1000 1000
       (TarEntry absoluteLinkEntry "" TarEOF)) tt =
    (Returned (Some (Errorf
       "Unable to resolve relative path for hardlink %s (to %s) when unpacking %s: %s"
       [ArgString "/data/pods/myapp/installs/myapp_1.2.3/a/link";
        ArgString "/etc/passwd";
        ArgString "/tmp/myapp_1.2.3042/myapp_1.2.3";
        ArgError (errorString
          "Rel: can't make /etc/passwd relative to a")])),
     [], tt).
Proof. reflexivity. Qed.

(** A hardlink above the root of the archive, whose link name is the
    directory above it, is refused in the same way; one to the root of
    the archive is made a symlink to [..]. *)
Example hardlink_above_the_archive :
  extractable (TarEntry outsideLinkEntry "" TarEOF) = false /\
  run (stateless allGood)
    (extractEntries myapp "/tmp/myapp_1.2.3042/myapp_1.2.3"
       "/data/pods/myapp/installs/myapp_1.2.3" 1000 1000
       (TarEntry outsideLinkEntry "" TarEOF)) tt =
    (Returned (Some (Errorf
       "Unable to resolve relative path for hardlink %s (to %s) when unpacking %s: %s"
       [ArgString "/data/pods/myapp/link"; ArgString "..";
        ArgString "/tmp/myapp_1.2.3042/myapp_1.2.3";
        ArgError (errorString "Rel: can't make .. relative to ../..")])),
     [], tt) /\
  run (stateless allGood)
    (extractEntries myapp "/tmp/myapp_1.2.3042/myapp_1.2.3"
       "/data/pods/myapp/installs/myapp_1.2.3" 1000 1000
       (TarEntry {| tar.Name := "a/link"; tar.Linkname := ".";
                    tar.Typeflag := tar.TypeLink; tar.Mode := 420 |}
          "" TarEOF)) tt =
    (Returned None,
     [Event (os_Symlink ".."
               "/data/pods/myapp/installs/myapp_1.2.3/a/link") None],
     tt).
Proof. repeat split. Qed.

(** C6 (amended).  A hardlink entry reached by the extraction loop is
    made a symlink whenever its link name can be taken relative to the
    directory of its name: the call for it is [os.Symlink] with that
    relative path as its target and the entry's name under [dest] as its
    path; the loop goes on if the call succeeds and returns its error
    otherwise.  When the link name cannot be taken relative to that
    directory the loop returns an error and makes no link.  An
    extraction that returns [nil] has made that call, with success, for
    every hardlink entry of the archive.

    The relative path is there, and is the right one, for every entry
    whose name and link name are relative paths of names (no element
    empty, [.] or [..]), under a destination that is a path of names,
    rooted or not: the first call for such an entry is [os.Symlink] at
    [<dest>/<name>] with a target that, followed from the directory of
    [<dest>/<name>], leads to [<dest>/<link name>].  For the entry
    [a/c/link] with link name [a/b/target] it is [../b/target]. *)
Theorem hardlink_becomes_relative_symlink {S : Type} (h : handler S) (s : S)
    (hl : Launchable) (name dest : string) (uid gid : Z) :
  (forall hdr body rest linkTarget,
      tar.Typeflag hdr = tar.TypeLink ->
      filepath.Rel (filepath.Dir (tar.Name hdr)) (tar.Linkname hdr)
        = inl linkTarget ->
      let link := os_Symlink linkTarget (filepath.Join [dest; tar.Name hdr]) in
      run h (extractEntries hl name dest uid gid (TarEntry hdr body rest)) s =
        match answer h link s with
        | None =>
            let '(o, t, s2) :=
              run h (extractEntries hl name dest uid gid rest) (after h link s) in
            (o, Event link None :: t, s2)
        | Some e =>
            (Returned (Some (Errorf
               "Unable to create destination symlink %s (resolved %s to %s) when unpacking %s: %s"
               [ArgString (filepath.Join [dest; tar.Name hdr]);
                ArgString linkTarget; ArgString (tar.Linkname hdr);
                ArgString name; ArgError e])),
             [Event link (Some e)],
             after h link s)
        end) /\
  (forall hdr body rest msg,
      tar.Typeflag hdr = tar.TypeLink ->
      filepath.Rel (filepath.Dir (tar.Name hdr)) (tar.Linkname hdr) = inr msg ->
      run h (extractEntries hl name dest uid gid (TarEntry hdr body rest)) s =
        (Returned (Some (Errorf
           "Unable to resolve relative path for hardlink %s (to %s) when unpacking %s: %s"
           [ArgString (filepath.Join [dest; tar.Name hdr]);
            ArgString (tar.Linkname hdr); ArgString name;
            ArgError (errorString msg)])),
         [], s)) /\
  (forall tr hdr,
      In hdr (entries tr) ->
      tar.Typeflag hdr = tar.TypeLink ->
      outcome_of (run h (extractEntries hl name dest uid gid tr) s)
        = Returned None ->
      exists linkTarget,
        filepath.Rel (filepath.Dir (tar.Name hdr)) (tar.Linkname hdr)
          = inl linkTarget /\
        In (Event (os_Symlink linkTarget (filepath.Join [dest; tar.Name hdr]))
              None)
           (trace_of (run h (extractEntries hl name dest uid gid tr) s))) /\
  (forall hdr body rest,
      tar.Typeflag hdr = tar.TypeLink ->
      plainPath dest = true \/ plainAbsolute dest = true ->
      plainPath (tar.Name hdr) = true ->
      plainPath (tar.Linkname hdr) = true ->
      exists linkTarget,
        filepath.Rel (filepath.Dir (tar.Name hdr)) (tar.Linkname hdr)
          = inl linkTarget /\
        filepath.Join [filepath.Dir (filepath.Join [dest; tar.Name hdr]);
                       linkTarget]
          = filepath.Join [dest; tar.Linkname hdr] /\
        let link :=
          os_Symlink linkTarget (filepath.Join [dest; tar.Name hdr]) in
        exists t,
          trace_of
            (run h (extractEntries hl name dest uid gid (TarEntry hdr body rest))
               s)
            = Event link (answer h link s) :: t) /\
  (filepath.Rel (filepath.Dir "a/c/link") "a/b/target" = inl "../b/target" /\
   let installDir := "/data/pods/myapp/installs/myapp_1.2.3" in
   filepath.Join [filepath.Dir (filepath.Join [installDir; "a/c/link"]);
                  "../b/target"]
     = filepath.Join [installDir; "a/b/target"]).
Proof.
  split; [|split; [|split; [|split]]].
  - intros hdr body rest linkTarget Hflag Hrel. cbv zeta.
    cbn [extractEntries]. rewrite Hflag, Hrel.
    cbn [Ascii.eqb Bool.eqb tar.TypeLink tar.TypeSymlink].
    next_call.
    destruct (answer h (os_Symlink linkTarget _) s) as [e|]; reflexivity.
  - intros hdr body rest msg Hflag Hrel.
    cbn [extractEntries]. rewrite Hflag, Hrel. reflexivity.
  - intros tr hdr Hin Hflag Hok.
    exact (extractEntries_links h hl name dest uid gid hdr tr Hin Hflag s Hok).
  - intros hdr body rest Hflag Hdest Hname Hlink.
    destruct (plain_paths.relative_target_resolves dest (tar.Name hdr)
                (tar.Linkname hdr) Hdest Hname Hlink)
      as (linkTarget & Hrel & Hleads).
    exists linkTarget. split; [exact Hrel|]. split; [exact Hleads|].
    cbv zeta. cbn [extractEntries]. rewrite Hflag, Hrel.
    cbn [Ascii.eqb Bool.eqb tar.TypeLink tar.TypeSymlink].
    next_call.
    destruct (answer h (os_Symlink linkTarget _) s) as [e|].
    + now exists [].
    + destruct (run h (extractEntries hl name dest uid gid rest) _)
        as [[o t] s2].
      now exists t.
  - split; reflexivity.
Qed.

Lemma hardlink_becomes_relative_symlink_witness :
  (exists linkTarget,
      filepath.Rel (filepath.Dir "a/c/link") "a/b/target" = inl linkTarget /\
      In (Event (os_Symlink linkTarget
                   (filepath.Join ["/data/pods/myapp/installs/myapp_1.2.3";
                                   "a/c/link"])) None)
         (trace_of
            (run (stateless allGood)
               (extractEntries myapp "/tmp/myapp_1.2.3042/myapp_1.2.3"
                  "/data/pods/myapp/installs/myapp_1.2.3" 1000 1000
                  (TarEntry binDirEntry "" (TarEntry hardlinkEntry "" TarEOF)))
               tt))) /\
  (exists linkTarget,
      filepath.Rel (filepath.Dir "a/c/link") "a/b/target" = inl linkTarget /\
      filepath.Join
        [filepath.Dir (filepath.Join ["/data/pods/myapp/installs/myapp_1.2.3";
                                      "a/c/link"]);
         linkTarget]
        = filepath.Join ["/data/pods/myapp/installs/myapp_1.2.3";
                         "a/b/target"]).
Proof.
  split.
  - refine (proj1 (proj2 (proj2 (hardlink_becomes_relative_symlink
              (stateless allGood) tt myapp "/tmp/myapp_1.2.3042/myapp_1.2.3"
              "/data/pods/myapp/installs/myapp_1.2.3" 1000 1000)))
              (TarEntry binDirEntry "" (TarEntry hardlinkEntry "" TarEOF))
              hardlinkEntry _ eq_refl eq_refl).
    simpl. auto.
  - destruct (proj1 (proj2 (proj2 (proj2 (hardlink_becomes_relative_symlink
                (stateless allGood) tt myapp "/tmp/myapp_1.2.3042/myapp_1.2.3"
                "/data/pods/myapp/installs/myapp_1.2.3" 1000 1000))))
                hardlinkEntry "" TarEOF eq_refl (or_intror eq_refl) eq_refl
                eq_refl)
      as (linkTarget & Hrel & Hleads & _).
    exists linkTarget. split; [exact Hrel | exact Hleads].
Defined.

(** C7.  An entry whose type flag is none of regular file ([0] or NUL),
    directory, symlink and hardlink ends the extraction loop with the
    error [Unhandled type flag ...], before any call is made for it and
    without looking at the entries after it.  So an archive that holds
    such an entry is never unpacked with success: [extractTarGz] returns
    an error on every host, and so does an [Install] that opened the
    archive. *)
Theorem unhandled_entry_aborts_install {S : Type} (h : handler S) (s : S)
    (hl : Launchable) (hdr : tar.Header) :
  tar.Typeflag hdr <> tar.TypeReg ->
  tar.Typeflag hdr <> tar.TypeRegA ->
  tar.Typeflag hdr <> tar.TypeDir ->
  tar.Typeflag hdr <> tar.TypeSymlink ->
  tar.Typeflag hdr <> tar.TypeLink ->
  (forall name dest uid gid body rest,
      run h (extractEntries hl name dest uid gid (TarEntry hdr body rest)) s =
        (Returned (Some (Errorf
           "Unhandled type flag %q (header %v) when unpacking %s"
           [ArgByte (tar.Typeflag hdr); ArgHeader hdr; ArgString name])),
         [], s)) /\
  (forall tr,
      In hdr (entries tr) ->
      (forall name dest, exists e,
          outcome_of (run h (extractTarGz hl name (inl tr) dest) s)
            = Returned (Some e)) /\
      (opened (trace_of (run h (Install hl) s)) = Some (inl tr) ->
       exists e, outcome_of (run h (Install hl) s) = Returned (Some e))).
Proof.
  intros Hreg HregA Hdir Hsym Hlink.
  assert (Hbad : handledTypeflag (tar.Typeflag hdr) = false).
  { unfold handledTypeflag.
    apply Ascii.eqb_neq in Hreg, HregA, Hdir, Hsym, Hlink.
    now rewrite Hreg, HregA, Hdir, Hsym, Hlink. }
  split.
  - intros. now apply extractEntries_unhandled.
  - intros tr Hin. split.
    + intros name dest.
      destruct (extractTarGz_rejects_unhandled h hl name dest hdr tr Hin Hbad s)
        as (e & t & s' & Hrun).
      rewrite Hrun. exists e. reflexivity.
    + now apply Install_rejects_unhandled with (hdr := hdr).
Qed.

Lemma unhandled_entry_aborts_install_witness :
  exists e,
    outcome_of (run (stateless fifoArtifact) (Install myapp) tt)
      = Returned (Some e).
Proof.
  refine (proj2 (proj2 (unhandled_entry_aborts_install
            (stateless fifoArtifact) tt myapp fifoEntry _ _ _ _ _)
            (TarEntry binDirEntry "" (TarEntry fifoEntry "" TarEOF)) _)
            eq_refl);
    try discriminate.
  simpl. auto.
Defined.

Example Install_of_a_fifo_artifact :
  run (stateless fifoArtifact) (Install myapp) tt =
    (Returned (Some (Errorf
       "Unhandled type flag %q (header %v) when unpacking %s"
       [ArgByte tar.TypeFifo; ArgHeader fifoEntry;
        ArgString "/tmp/myapp_1.2.3042/myapp_1.2.3"])),
     [Event (os_Stat "/data/pods/myapp/installs/myapp_1.2.3")
        (inr (noSuchFile "stat" "/data/pods/myapp/installs/myapp_1.2.3"));
      Event (ioutil_TempDir "" "myapp_1.2.3") (inl "/tmp/myapp_1.2.3042");
      Event (FetchToFile "http://repo/artifacts/myapp_1.2.3.tar.gz"
               "/tmp/myapp_1.2.3042/myapp_1.2.3") None;
      Event (os_Open "/tmp/myapp_1.2.3042/myapp_1.2.3")
        (inl (inl (TarEntry binDirEntry "" (TarEntry fifoEntry "" TarEOF))));
      Event (user_IDs "app") (inl (1000%Z, 1000%Z));
      Event (util_MkdirChownAll "/data/pods/myapp/installs/myapp_1.2.3"
               1000 1000 493) None;
      Event (os_Chown "/data/pods/myapp/installs/myapp_1.2.3" 1000 1000) None;
      Event (os_Mkdir "/data/pods/myapp/installs/myapp_1.2.3/bin" 493) None;
      Event (os_Chown "/data/pods/myapp/installs/myapp_1.2.3/bin" 1000 1000)
        None;
      Event (File_Close "/tmp/myapp_1.2.3042/myapp_1.2.3") None;
      Event (os_RemoveAll "/tmp/myapp_1.2.3042") None],
     tt).
Proof. reflexivity. Qed.

(** * Discovery, stopping and halting *)

(** ** Executables *)

Lemma run_Executables_installed {S : Type} (h : handler S) (s : S)
    (hl : Launchable) (serviceBuilder : runit.ServiceBuilder) (dir : string)
    (info : os.FileInfo) :
  InstallDir hl = Ret dir ->
  answer h (os_Stat dir) s = inl info ->
  let binLaunchPath := filepath.Join [dir; "bin"; "launch"] in
  let s1 := after h (os_Stat dir) s in
  let s2 := after h (os_Stat binLaunchPath) s1 in
  let executable (serviceDir : string) (service : os.FileInfo) :=
    {| Service :=
         {| runit.Path :=
              filepath.Join [runit.RunitRoot serviceBuilder;
                             Id hl ++ "__" ++ os.Name service];
            runit.Name := Id hl ++ "__" ++ os.Name service |};
       ExecPath := filepath.Join [serviceDir; os.Name service];
       exe_Chpst := Chpst hl;
       exe_Cgexec := Cgexec hl;
       exe_CgroupConfig := CgroupConfig hl;
       Nolimit := "/usr/bin/nolimit";
       exe_RunAs := RunAs hl;
       exe_ConfigDir := ConfigDir hl |} in
  run h (Executables hl serviceBuilder) s =
    match answer h (os_Stat binLaunchPath) s1 with
    | inr err =>
        (Returned ([], Some (Errorf "%s" [ArgError err])),
         [Event (os_Stat dir) (inl info);
          Event (os_Stat binLaunchPath) (inr err)], s2)
    | inl launchInfo =>
        if os.IsDir launchInfo then
          match answer h (ioutil_ReadDir binLaunchPath) s2 with
          | inl services =>
              (Returned (map (executable binLaunchPath) services, None),
               [Event (os_Stat dir) (inl info);
                Event (os_Stat binLaunchPath) (inl launchInfo);
                Event (ioutil_ReadDir binLaunchPath) (inl services)],
               after h (ioutil_ReadDir binLaunchPath) s2)
          | inr err =>
              (Returned ([], Some err),
               [Event (os_Stat dir) (inl info);
                Event (os_Stat binLaunchPath) (inl launchInfo);
                Event (ioutil_ReadDir binLaunchPath) (inr err)],
               after h (ioutil_ReadDir binLaunchPath) s2)
          end
        else
          (Returned ([executable (filepath.Dir binLaunchPath) launchInfo], None),
           [Event (os_Stat dir) (inl info);
            Event (os_Stat binLaunchPath) (inl launchInfo)], s2)
    end.
Proof.
  intros Hdir Hinfo. cbv zeta. unfold Executables.
  rewrite run_bind, (run_Installed h s hl dir Hdir), Hinfo.
  cbn [negb]. cbv iota. rewrite Hdir. next_call.
  set (binLaunchPath := filepath.Join [dir; "bin"; "launch"]).
  destruct (answer h (os_Stat binLaunchPath) (after h (os_Stat dir) s))
    as [launchInfo|err]; [|reflexivity].
  destruct (os.IsDir launchInfo).
  - next_call.
    destruct (answer h (ioutil_ReadDir binLaunchPath) _) as [services|err];
      reflexivity.
  - reflexivity.
Qed.

Lemma append_cancel_l (p a b : string) : p ++ a = p ++ b -> a = b.
Proof.
  induction p as [|c p IH]; simpl; [trivial|].
  intros H. injection H as H. now apply IH.
Qed.

Lemma NoDup_serviceNames (id : string) (names : list string) :
  NoDup names -> NoDup (map (fun name => id ++ "__" ++ name) names).
Proof.
  induction 1 as [|name names Hnin Hnd IH]; simpl; constructor; [|exact IH].
  intros Hin. apply in_map_iff in Hin. destruct Hin as (other & Heq & Hin).
  apply append_cancel_l in Heq. injection Heq as Heq. subst other.
  contradiction.
Qed.

(** X6.  Discovery over a [bin/launch] directory: one executable per
    child, in the order of the listing; it is supervised under the name
    [<id>__<child>] at [<RunitRoot>/<id>__<child>], runs
    [<installDir>/bin/launch/<child>], and carries the launchable's
    [chpst], [cgexec], cgroup configuration, user and configuration
    directory.  Children with different names get different service
    names. *)
Theorem Executables_of_a_launch_directory {S : Type} (h : handler S) (s : S)
    (hl : Launchable) (serviceBuilder : runit.ServiceBuilder) (dir : string)
    (info launchInfo : os.FileInfo) (services : list os.FileInfo) :
  InstallDir hl = Ret dir ->
  answer h (os_Stat dir) s = inl info ->
  let binLaunchPath := filepath.Join [dir; "bin"; "launch"] in
  let s1 := after h (os_Stat dir) s in
  answer h (os_Stat binLaunchPath) s1 = inl launchInfo ->
  os.IsDir launchInfo = true ->
  answer h (ioutil_ReadDir binLaunchPath) (after h (os_Stat binLaunchPath) s1)
    = inl services ->
  exists executables,
    outcome_of (run h (Executables hl serviceBuilder) s)
      = Returned (executables, None) /\
    map (fun e => runit.Name (Service e)) executables
      = map (fun f => Id hl ++ "__" ++ os.Name f) services /\
    map (fun e => runit.Path (Service e)) executables
      = map (fun f => filepath.Join [runit.RunitRoot serviceBuilder;
                                     Id hl ++ "__" ++ os.Name f]) services /\
    map ExecPath executables
      = map (fun f => filepath.Join [binLaunchPath; os.Name f]) services /\
    Forall (fun e => exe_Chpst e = Chpst hl /\ exe_Cgexec e = Cgexec hl /\
                     exe_CgroupConfig e = CgroupConfig hl /\
                     exe_RunAs e = RunAs hl /\ exe_ConfigDir e = ConfigDir hl /\
                     Nolimit e = "/usr/bin/nolimit") executables /\
    (NoDup (map os.Name services) ->
     NoDup (map (fun e => runit.Name (Service e)) executables)).
Proof.
  intros Hdir Hinfo binLaunchPath s1 Hlaunch Hisdir Hlist.
  rewrite (run_Executables_installed h s hl serviceBuilder dir info Hdir Hinfo).
  cbv zeta. fold binLaunchPath. fold s1. rewrite Hlaunch, Hisdir, Hlist.
  eexists. split; [reflexivity|].
  rewrite !map_map. cbn [Service ExecPath runit.Name runit.Path].
  repeat split; try reflexivity.
  - apply Forall_forall. intros e He. apply in_map_iff in He.
    destruct He as (f & <- & _). repeat split.
  - intros Hnd.
    rewrite <- (map_map os.Name (fun name => Id hl ++ "__" ++ name)).
    now apply NoDup_serviceNames.
Qed.

Lemma Executables_of_a_launch_directory_witness :
  exists executables,
    outcome_of (run (stateless twoServices) (Executables myapp runitRoot) tt)
      = Returned (executables, None) /\
    map (fun e => runit.Name (Service e)) executables
      = ["myapp__web"; "myapp__worker"] /\
    map ExecPath executables
      = ["/data/pods/myapp/installs/myapp_1.2.3/bin/launch/web";
         "/data/pods/myapp/installs/myapp_1.2.3/bin/launch/worker"].
Proof.
  destruct (Executables_of_a_launch_directory (stateless twoServices) tt myapp
              runitRoot "/data/pods/myapp/installs/myapp_1.2.3"
              {| os.Name := "myapp_1.2.3"; os.IsDir := true |}
              {| os.Name := "launch"; os.IsDir := true |}
              [ {| os.Name := "web"; os.IsDir := false |};
                {| os.Name := "worker"; os.IsDir := false |} ]
              InstallDir_myapp eq_refl eq_refl eq_refl eq_refl)
    as (executables & Hrun & Hnames & _ & Hpaths & _).
  exists executables. repeat split; assumption.
Defined.

(** X7.  Discovery over a [bin/launch] that is not a directory: the one
    executable is named after what the stat calls the file, and runs that
    name in the directory of [bin/launch]; the directory is not listed. *)
Theorem Executables_of_a_launch_file {S : Type} (h : handler S) (s : S)
    (hl : Launchable) (serviceBuilder : runit.ServiceBuilder) (dir : string)
    (info launchInfo : os.FileInfo) :
  InstallDir hl = Ret dir ->
  answer h (os_Stat dir) s = inl info ->
  let binLaunchPath := filepath.Join [dir; "bin"; "launch"] in
  answer h (os_Stat binLaunchPath) (after h (os_Stat dir) s) = inl launchInfo ->
  os.IsDir launchInfo = false ->
  exists executable,
    run h (Executables hl serviceBuilder) s =
      (Returned ([executable], None),
       [Event (os_Stat dir) (inl info);
        Event (os_Stat binLaunchPath) (inl launchInfo)],
       after h (os_Stat binLaunchPath) (after h (os_Stat dir) s)) /\
    runit.Name (Service executable) = Id hl ++ "__" ++ os.Name launchInfo /\
    runit.Path (Service executable)
      = filepath.Join [runit.RunitRoot serviceBuilder;
                       Id hl ++ "__" ++ os.Name launchInfo] /\
    ExecPath executable
      = filepath.Join [filepath.Dir binLaunchPath; os.Name launchInfo].
Proof.
  intros Hdir Hinfo binLaunchPath Hlaunch Hisdir.
  rewrite (run_Executables_installed h s hl serviceBuilder dir info Hdir Hinfo).
  cbv zeta. fold binLaunchPath. rewrite Hlaunch, Hisdir.
  eexists. split; [reflexivity|]. repeat split.
Qed.

Lemma Executables_of_a_launch_file_witness :
  exists executable,
    outcome_of (run (stateless allGood) (Executables myapp runitRoot) tt)
      = Returned ([executable], None) /\
    runit.Name (Service executable) = "myapp__launch" /\
    ExecPath executable
      = "/data/pods/myapp/installs/myapp_1.2.3/bin/launch".
Proof.
  destruct (Executables_of_a_launch_file (stateless allGood) tt myapp
              runitRoot "/data/pods/myapp/installs/myapp_1.2.3"
              {| os.Name := "myapp_1.2.3"; os.IsDir := true |}
              {| os.Name := "launch"; os.IsDir := false |}
              InstallDir_myapp eq_refl eq_refl eq_refl)
    as (executable & Hrun & Hname & _ & Hpath).
  exists executable. rewrite Hrun. repeat split; assumption.
Defined.

(** X8.  What discovery does when it cannot look: a failed stat of
    [bin/launch] is returned wrapped in a new error, a failed listing of
    the directory is returned as it is; in both cases there are no
    executables and no further call. *)
Theorem Executables_cannot_look {S : Type} (h : handler S) (s : S)
    (hl : Launchable) (serviceBuilder : runit.ServiceBuilder) (dir : string)
    (info : os.FileInfo) :
  InstallDir hl = Ret dir ->
  answer h (os_Stat dir) s = inl info ->
  let binLaunchPath := filepath.Join [dir; "bin"; "launch"] in
  let s1 := after h (os_Stat dir) s in
  let s2 := after h (os_Stat binLaunchPath) s1 in
  (forall err,
      answer h (os_Stat binLaunchPath) s1 = inr err ->
      run h (Executables hl serviceBuilder) s =
        (Returned ([], Some (Errorf "%s" [ArgError err])),
         [Event (os_Stat dir) (inl info);
          Event (os_Stat binLaunchPath) (inr err)], s2)) /\
  (forall launchInfo err,
      answer h (os_Stat binLaunchPath) s1 = inl launchInfo ->
      os.IsDir launchInfo = true ->
      answer h (ioutil_ReadDir binLaunchPath) s2 = inr err ->
      run h (Executables hl serviceBuilder) s =
        (Returned ([], Some err),
         [Event (os_Stat dir) (inl info);
          Event (os_Stat binLaunchPath) (inl launchInfo);
          Event (ioutil_ReadDir binLaunchPath) (inr err)],
         after h (ioutil_ReadDir binLaunchPath) s2)).
Proof.
  intros Hdir Hinfo binLaunchPath s1 s2.
  pose proof (run_Executables_installed h s hl serviceBuilder dir info Hdir
                Hinfo) as Hrun.
  cbv zeta in Hrun. fold binLaunchPath in Hrun. fold s1 in Hrun.
  fold s2 in Hrun. split.
  - intros err Herr. now rewrite Hrun, Herr.
  - intros launchInfo err Hlaunch Hisdir Herr.
    now rewrite Hrun, Hlaunch, Hisdir, Herr.
Qed.

Lemma Executables_cannot_look_witness :
  run (stateless launchUnreadable) (Executables myapp runitRoot) tt =
    (Returned ([], Some (Errorf "%s"
                 [ArgError (permissionDenied "stat"
                    "/data/pods/myapp/installs/myapp_1.2.3/bin/launch")])),
     [Event (os_Stat "/data/pods/myapp/installs/myapp_1.2.3")
        (inl {| os.Name := "myapp_1.2.3"; os.IsDir := true |});
      Event (os_Stat "/data/pods/myapp/installs/myapp_1.2.3/bin/launch")
        (inr (permissionDenied "stat"
                "/data/pods/myapp/installs/myapp_1.2.3/bin/launch"))],
     tt).
Proof.
  exact (proj1 (Executables_cannot_look (stateless launchUnreadable) tt myapp
                  runitRoot "/data/pods/myapp/installs/myapp_1.2.3"
                  {| os.Name := "myapp_1.2.3"; os.IsDir := true |}
                  InstallDir_myapp eq_refl)
           (permissionDenied "stat"
              "/data/pods/myapp/installs/myapp_1.2.3/bin/launch")
           eq_refl).
Defined.

Lemma Executables_reads {S : Type} (h : handler S) (s : S) (hl : Launchable)
    (serviceBuilder : runit.ServiceBuilder) :
  forallb readOnly (trace_of (run h (Executables hl serviceBuilder) s)) = true.
Proof.
  destruct (InstallDir_no_call hl) as [[dir Hdir]|Hdir].
  - destruct (answer h (os_Stat dir) s) as [info|err] eqn:Hstat.
    + rewrite (run_Executables_installed h s hl serviceBuilder dir info Hdir
                 Hstat).
      cbv zeta.
      destruct (answer h (os_Stat (filepath.Join [dir; "bin"; "launch"])) _)
        as [launchInfo|err]; [|reflexivity].
      destruct (os.IsDir launchInfo); [|reflexivity].
      destruct (answer h (ioutil_ReadDir _) _); reflexivity.
    + unfold Executables.
      rewrite run_bind, (run_Installed h s hl dir Hdir), Hstat. reflexivity.
  - unfold Executables, Installed. rewrite Hdir. reflexivity.
Qed.

Lemma readOnly_calls_nothing (t : list event) :
  forallb readOnly t = true ->
  stopped t = [] /\ restarted t = [] /\ created t = [] /\ renamedOnto t = [].
Proof.
  induction t as [|[X c x] t IH]; [now repeat split|].
  cbn [forallb]. intros H. apply andb_prop in H. destruct H as [Hc Ht].
  specialize (IH Ht). destruct c; try discriminate; exact IH.
Qed.

(** X9.  Looking is all discovery does: [Installed], [Executables] and
    [AppManifest] (up to the path it hands to the parser) call nothing
    but [os.Stat] and [ioutil.ReadDir], on every host, so they create
    nothing and ask nothing of the supervisor. *)
Theorem discovery_only_reads {S : Type} (h : handler S) (s : S)
    (hl : Launchable) (serviceBuilder : runit.ServiceBuilder) :
  forallb readOnly (trace_of (run h (Installed hl) s)) = true /\
  forallb readOnly (trace_of (run h (Executables hl serviceBuilder) s)) = true /\
  forallb readOnly (trace_of (run h (AppManifest hl) s)) = true.
Proof.
  split; [|split].
  - destruct (InstallDir_no_call hl) as [[dir Hdir]|Hdir].
    + now rewrite (run_Installed h s hl dir Hdir).
    + unfold Installed. now rewrite Hdir.
  - apply Executables_reads.
  - unfold AppManifest.
    destruct (InstallDir_no_call hl) as [[dir Hdir]|Hdir].
    + rewrite run_bind, (run_Installed h s hl dir Hdir).
      destruct (answer h (os_Stat dir) s) as [info|err]; [|reflexivity].
      cbn [negb]. cbv iota. rewrite Hdir. next_call.
      destruct (answer h (os_Stat _) (after h (os_Stat dir) s)) as [i|e];
        cbn [statNotExist]; [reflexivity|].
      destruct (os.IsNotExist e); [|reflexivity].
      next_call.
      destruct (answer h (os_Stat (filepath.Join [dir; "app-manifest.yml"])) _)
        as [i|e']; cbn [statNotExist]; [reflexivity|].
      destruct (os.IsNotExist e'); reflexivity.
    + unfold Installed. now rewrite Hdir.
Qed.

(** ** Stop *)

(** One turn of the loop of [Stop]: an error ends it, [nil] leads to the
    next executable. *)
Lemma run_stopEach_cons {S : Type} (h : handler S) (s : S)
    (executable : Executable) (rest : list Executable) :
  run h (stopEach (executable :: rest)) s =
    let c := sv_Stop (Service executable) in
    match snd (answer h c s) with
    | Some e => (Returned (Some e), [Event c (answer h c s)], after h c s)
    | None =>
        let '(o, t, s2) := run h (stopEach rest) (after h c s) in
        (o, Event c (answer h c s) :: t, s2)
    end.
Proof.
  cbv zeta. cbn [stopEach]. next_call.
  destruct (answer h (sv_Stop (Service executable)) s) as [out [e|]];
    reflexivity.
Qed.

Lemma stopEach_all {S : Type} (h : handler S) (executables : list Executable) :
  (forall service s, snd (answer h (sv_Stop service) s) = None) ->
  forall s,
    outcome_of (run h (stopEach executables) s) = Returned None /\
    stopped (trace_of (run h (stopEach executables) s))
      = map Service executables.
Proof.
  intros Hok. induction executables as [|e rest IH]; intros s.
  - split; reflexivity.
  - rewrite run_stopEach_cons. cbv zeta. rewrite Hok.
    destruct (IH (after h (sv_Stop (Service e)) s)) as [Ho Ht].
    destruct (run h (stopEach rest) _) as [[o t] s2].
    unfold outcome_of, trace_of in *. cbn [fst snd stopped] in *.
    split; [exact Ho|]. now rewrite Ht.
Qed.

(** X10.  When the supervisor stops whatever it is asked to, [Stop] asks
    it to stop every discovered executable, in order, and returns
    [nil]. *)
Theorem Stop_stops_every_service {S : Type} (h : handler S) (s : S)
    (hl : Launchable) (serviceBuilder : runit.ServiceBuilder)
    (executables : list Executable) (t1 : list event) (s1 : S) :
  run h (Executables hl serviceBuilder) s
    = (Returned (executables, None), t1, s1) ->
  (forall service s', snd (answer h (sv_Stop service) s') = None) ->
  outcome_of (run h (Stop hl serviceBuilder) s) = Returned None /\
  stopped (trace_of (run h (Stop hl serviceBuilder) s))
    = map Service executables.
Proof.
  intros Hexe Hok.
  pose proof (Executables_reads h s hl serviceBuilder) as Hread.
  rewrite Hexe in Hread. apply readOnly_calls_nothing in Hread.
  destruct Hread as [Hnone _].
  unfold Stop. rewrite run_bind, Hexe.
  destruct (stopEach_all h executables Hok s1) as [Ho Ht].
  destruct (run h (stopEach executables) s1) as [[o t] s2].
  unfold outcome_of, trace_of in *. cbn [fst snd] in *.
  split; [exact Ho|].
  assert (Happ : forall a b, stopped (a ++ b) = (stopped a ++ stopped b)%list).
  { clear. induction a as [|[X c x] a IH]; intros b; [reflexivity|].
    destruct c; simpl; now rewrite IH. }
  unfold trace_of in Hnone. cbn [fst snd] in Hnone.
  now rewrite Happ, Hnone, Ht.
Qed.

Lemma Stop_stops_every_service_witness :
  outcome_of (run (stateless twoServices) (Stop myapp runitRoot) tt)
    = Returned None /\
  stopped (trace_of (run (stateless twoServices) (Stop myapp runitRoot) tt))
    = map Service (map myappExecutable ["web"; "worker"]).
Proof.
  apply (Stop_stops_every_service (stateless twoServices) tt myapp runitRoot
           (map myappExecutable ["web"; "worker"])
           (trace_of (run (stateless twoServices) (Executables myapp runitRoot)
                        tt))
           tt).
  - reflexivity.
  - intros service s'. reflexivity.
Defined.

(** X11.  The loop of [Stop] fails fast: when the services before one are
    stopped without error and that one is not, its error is returned and
    the services after it are never asked to stop. *)
Theorem stopEach_fails_fast {S : Type} (h : handler S)
    (done : list Executable) (failing : Executable) (rest : list Executable)
    (e : error) :
  (forall executable s, In executable done ->
     snd (answer h (sv_Stop (Service executable)) s) = None) ->
  (forall s, snd (answer h (sv_Stop (Service failing)) s) = Some e) ->
  forall s,
    outcome_of (run h (stopEach (done ++ failing :: rest)) s)
      = Returned (Some e) /\
    stopped (trace_of (run h (stopEach (done ++ failing :: rest)) s))
      = map Service (done ++ [failing]).
Proof.
  intros Hdone Hfail. induction done as [|d done IH]; intros s.
  - cbn [app]. rewrite run_stopEach_cons. cbv zeta. rewrite Hfail.
    split; reflexivity.
  - cbn [app]. rewrite run_stopEach_cons. cbv zeta.
    rewrite (Hdone d s (or_introl eq_refl)).
    destruct (IH (fun x s0 Hx => Hdone x s0 (or_intror Hx))
                (after h (sv_Stop (Service d)) s)) as [Ho Ht].
    destruct (run h (stopEach (done ++ failing :: rest)) _) as [[o t] s2].
    unfold outcome_of, trace_of in *. cbn [fst snd stopped map app] in *.
    split; [exact Ho|]. now rewrite Ht.
Qed.

Lemma stopEach_fails_fast_witness :
  outcome_of (run (stateless stopRefused)
                (stopEach (map myappExecutable ["web"; "worker"])) tt)
    = Returned (Some (errorString "unable to open supervise/control")) /\
  stopped (trace_of (run (stateless stopRefused)
                       (stopEach (map myappExecutable ["web"; "worker"])) tt))
    = [Service (myappExecutable "web")].
Proof.
  apply (stopEach_fails_fast (stateless stopRefused) [] (myappExecutable "web")
           [myappExecutable "worker"]
           (errorString "unable to open supervise/control")).
  - intros executable s [].
  - intros s. reflexivity.
Defined.

(** X12.  On a launchable that is not installed, [Start] and [Stop] return
    the [not installed] error of discovery as it is, after the one stat,
    and ask nothing of the supervisor; [Launch] writes the cgroup
    configuration first and returns the same error wrapped. *)
Theorem not_installed_nothing_supervised {S : Type} (h : handler S) (s : S)
    (hl : Launchable) (serviceBuilder : runit.ServiceBuilder) (dir : string)
    (err : error) :
  InstallDir hl = Ret dir ->
  let notInstalled := Errorf "%s is not installed" [ArgString (Id hl)] in
  (answer h (os_Stat dir) s = inr err ->
   run h (Start hl serviceBuilder) s =
     (Returned (Some notInstalled), [Event (os_Stat dir) (inr err)],
      after h (os_Stat dir) s) /\
   run h (Stop hl serviceBuilder) s =
     (Returned (Some notInstalled), [Event (os_Stat dir) (inr err)],
      after h (os_Stat dir) s)) /\
  (let write := cgroups_Write (CgroupConfig hl) in
   answer h write s = None ->
   answer h (os_Stat dir) (after h write s) = inr err ->
   run h (Launch hl serviceBuilder) s =
     (Returned (Some (Errorf "Could not launch %s: %s"
                        [ArgString (Id hl); ArgError notInstalled])),
      [Event write None; Event (os_Stat dir) (inr err)],
      after h (os_Stat dir) (after h write s))).
Proof.
  intros Hdir notInstalled.
  assert (Hexe : forall s0, answer h (os_Stat dir) s0 = inr err ->
            run h (Executables hl serviceBuilder) s0 =
              (Returned ([], Some notInstalled), [Event (os_Stat dir) (inr err)],
               after h (os_Stat dir) s0)).
  { intros s0 H0. unfold Executables.
    rewrite run_bind, (run_Installed h s0 hl dir Hdir), H0. reflexivity. }
  assert (Hstart : forall s0, answer h (os_Stat dir) s0 = inr err ->
            run h (Start hl serviceBuilder) s0 =
              (Returned (Some notInstalled), [Event (os_Stat dir) (inr err)],
               after h (os_Stat dir) s0)).
  { intros s0 H0. unfold Start. rewrite run_bind, (Hexe s0 H0). reflexivity. }
  split.
  - intros Herr. split; [now apply Hstart|].
    unfold Stop. rewrite run_bind, (Hexe s Herr). reflexivity.
  - cbv zeta. intros Hwrite Herr. unfold Launch. next_call. rewrite Hwrite.
    rewrite run_bind, (Hstart _ Herr). reflexivity.
Qed.

Lemma not_installed_nothing_supervised_witness :
  run (stateless nothingInstalled) (Launch myapp runitRoot) tt =
    (Returned (Some (Errorf "Could not launch %s: %s"
                       [ArgString "myapp";
                        ArgError (Errorf "%s is not installed"
                                    [ArgString "myapp"])])),
     [Event (cgroups_Write {| cgroups.Name := "myapp" |}) None;
      Event (os_Stat "/data/pods/myapp/installs/myapp_1.2.3")
        (inr (noSuchFile "stat" "/data/pods/myapp/installs/myapp_1.2.3"))],
     tt).
Proof.
  exact (proj2 (not_installed_nothing_supervised (stateless nothingInstalled)
                  tt myapp runitRoot "/data/pods/myapp/installs/myapp_1.2.3"
                  (noSuchFile "stat" "/data/pods/myapp/installs/myapp_1.2.3")
                  InstallDir_myapp)
           eq_refl eq_refl).
Defined.

(** ** Halt *)

Lemma renamedOnto_app (t1 t2 : list event) :
  renamedOnto (t1 ++ t2) = (renamedOnto t1 ++ renamedOnto t2)%list.
Proof.
  induction t1 as [|[X c x] t1 IH]; [reflexivity|].
  destruct c; simpl; now rewrite IH.
Qed.

Lemma run_Halt {S : Type} (h : handler S) (s : S) (hl : Launchable)
    (serviceBuilder : runit.ServiceBuilder) :
  run h (Halt hl serviceBuilder) s =
    match run h (Disable hl) s with
    | (Returned (_, Some e), t, s1) => (Returned (Some e), t, s1)
    | (Returned (_, None), t, s1) =>
        match run h (Stop hl serviceBuilder) s1 with
        | (Returned (Some e), t2, s2) => (Returned (Some e), (t ++ t2)%list, s2)
        | (Returned None, t2, s2) =>
            let '(o, t3, s3) := run h (MakeLast hl) s2 in
            (o, (t ++ t2 ++ t3)%list, s3)
        | (Panicked msg, t2, s2) => (Panicked msg, (t ++ t2)%list, s2)
        end
    | (Panicked msg, t, s1) => (Panicked msg, t, s1)
    end.
Proof.
  unfold Halt. rewrite run_bind.
  destruct (run h (Disable hl) s) as [[[[out [e|]]|msg] t] s1];
    [simpl; now rewrite app_nil_r| |reflexivity].
  rewrite run_bind.
  destruct (run h (Stop hl serviceBuilder) s1) as [[[[e|]|msg] t2] s2];
    [simpl; now rewrite app_nil_r| |reflexivity].
  destruct (run h (MakeLast hl) s2) as [[o t3] s3]. reflexivity.
Qed.

Lemma hook_renames_nothing {S : Type} (h : handler S) (s : S) (hl : Launchable)
    (script : string) (hook : prog (string * option error)) :
  In (script, hook) (hooks hl) ->
  renamedOnto (trace_of (run h hook s)) = [].
Proof.
  intros Hin. rewrite (run_hooks h s hl script hook Hin).
  destruct (InstallDir_no_call hl) as [[dir Hdir]|Hdir].
  - rewrite (run_invokeBinScript h s hl script dir Hdir). cbv zeta.
    destruct (answer h (os_Stat _) s); reflexivity.
  - unfold invokeBinScript. rewrite Hdir. reflexivity.
Qed.

Lemma stopEach_renames_nothing {S : Type} (h : handler S)
    (executables : list Executable) :
  forall s, renamedOnto (trace_of (run h (stopEach executables) s)) = [].
Proof.
  induction executables as [|e rest IH]; intros s; [reflexivity|].
  rewrite run_stopEach_cons. cbv zeta.
  destruct (snd (answer h (sv_Stop (Service e)) s)); [reflexivity|].
  specialize (IH (after h (sv_Stop (Service e)) s)).
  destruct (run h (stopEach rest) _) as [[o t] s2]. exact IH.
Qed.

Lemma Stop_renames_nothing {S : Type} (h : handler S) (s : S) (hl : Launchable)
    (serviceBuilder : runit.ServiceBuilder) :
  renamedOnto (trace_of (run h (Stop hl serviceBuilder) s)) = [].
Proof.
  pose proof (Executables_reads h s hl serviceBuilder) as Hread.
  apply readOnly_calls_nothing in Hread. destruct Hread as (_ & _ & _ & Hren).
  unfold Stop. rewrite run_bind.
  destruct (run h (Executables hl serviceBuilder) s)
    as [[[[executables [e|]]|msg] t] s1]; unfold trace_of in *;
    cbn [fst snd] in *.
  - cbn [run fst snd]. now rewrite renamedOnto_app, Hren.
  - pose proof (stopEach_renames_nothing h executables s1) as Hstop.
    destruct (run h (stopEach executables) s1) as [[o t2] s2].
    unfold trace_of in Hstop. cbn [fst snd] in *.
    now rewrite renamedOnto_app, Hren, Hstop.
  - exact Hren.
Qed.

(** X13.  [Halt] repoints [last] only at the end of a clean halt: a run of
    [Halt] renames nothing at all, unless the disable hook and then the
    stop of the services both returned [nil], and then the one rename it
    can make is onto [<root>/last]. *)
Theorem Halt_repoints_last_after_a_clean_stop {S : Type} (h : handler S)
    (s : S) (hl : Launchable) (serviceBuilder : runit.ServiceBuilder) :
  renamedOnto (trace_of (run h (Halt hl serviceBuilder) s)) = [] \/
  (renamedOnto (trace_of (run h (Halt hl serviceBuilder) s))
     = [filepath.Join [RootDir hl; "last"]] /\
   exists output t1 s1 t2 s2,
     run h (Disable hl) s = (Returned (output, None), t1, s1) /\
     run h (Stop hl serviceBuilder) s1 = (Returned None, t2, s2)).
Proof.
  rewrite run_Halt.
  pose proof (hook_renames_nothing h s hl "disable" (Disable hl)) as Hdis.
  assert (Hin : In ("disable", Disable hl) (hooks hl)) by (simpl; auto).
  specialize (Hdis Hin).
  destruct (run h (Disable hl) s) as [[[[output [e|]]|msg] t1] s1];
    unfold trace_of in *; cbn [fst snd] in *; [now left| |now left].
  pose proof (Stop_renames_nothing h s1 hl serviceBuilder) as Hstop.
  destruct (run h (Stop hl serviceBuilder) s1) as [[[[e|]|msg] t2] s2] eqn:Hs;
    unfold trace_of in *; cbn [fst snd] in *;
    try (left; now rewrite renamedOnto_app, Hdis, Hstop).
  pose proof (flipSymlink_renamesOnce h s2 hl (LastDir hl)) as Hflip.
  unfold renamesOnce in Hflip. fold (MakeLast hl) in Hflip.
  destruct (run h (MakeLast hl) s2) as [[o t3] s3].
  unfold trace_of, outcome_of in Hflip. cbn [fst snd] in *.
  rewrite !renamedOnto_app, Hdis, Hstop. cbn [app].
  destruct Hflip as [[Hnone _]|Hone].
  - left. exact Hnone.
  - right. split; [exact Hone|].
    exists output, t1, s1, t2, s2. split; [reflexivity | exact Hs].
Qed.

(** X14.  A disable hook that is there and fails (with an error that
    [os.IsNotExist] rejects) ends [Halt] at once: the hook's error is
    returned as it is, and the stat and the run of the hook are the only
    calls, so no service is stopped and no pointer moves. *)
Theorem Halt_stops_at_a_failing_disable {S : Type} (h : handler S) (s : S)
    (hl : Launchable) (serviceBuilder : runit.ServiceBuilder) (dir : string)
    (info : os.FileInfo) (output : string) (e : error) :
  InstallDir hl = Ret dir ->
  let cmdPath := filepath.Join [dir; "bin"; "disable"] in
  let cmd := cmd_Run (Chpst hl) ["-u"; RunAs hl; "-e"; ConfigDir hl; cmdPath] in
  answer h (os_Stat cmdPath) s = inl info ->
  answer h cmd (after h (os_Stat cmdPath) s) = (output, Some e) ->
  os.IsNotExist e = false ->
  run h (Halt hl serviceBuilder) s =
    (Returned (Some e),
     [Event (os_Stat cmdPath) (inl info); Event cmd (output, Some e)],
     after h cmd (after h (os_Stat cmdPath) s)).
Proof.
  intros Hdir cmdPath cmd Hstat Hrun Hne. rewrite run_Halt.
  assert (Hin : In ("disable", Disable hl) (hooks hl)) by (simpl; auto).
  rewrite (run_hooks h s hl "disable" (Disable hl) Hin).
  rewrite (run_invokeBinScript h s hl "disable" dir Hdir). cbv zeta.
  fold cmdPath. fold cmd. rewrite Hstat, Hrun. simpl. now rewrite Hne.
Qed.

Lemma Halt_stops_at_a_failing_disable_witness :
  run (stateless hooksFail) (Halt myapp runitRoot) tt =
    (Returned (Some (ExitError 1)),
     [Event (os_Stat "/data/pods/myapp/installs/myapp_1.2.3/bin/disable")
        (inl {| os.Name := "disable"; os.IsDir := false |});
      Event (cmd_Run "/usr/bin/chpst"
               ["-u"; "app"; "-e"; "/etc/myapp";
                "/data/pods/myapp/installs/myapp_1.2.3/bin/disable"])
        ("enable: cannot register", Some (ExitError 1))],
     tt).
Proof.
  exact (Halt_stops_at_a_failing_disable (stateless hooksFail) tt myapp
           runitRoot "/data/pods/myapp/installs/myapp_1.2.3"
           {| os.Name := "disable"; os.IsDir := false |}
           "enable: cannot register" (ExitError 1) InstallDir_myapp
           eq_refl eq_refl eq_refl).
Defined.

Example Halt_on_a_good_host :
  let r := run (stateless twoServices) (Halt myapp runitRoot) tt in
  outcome_of r = Returned None /\
  stopped (trace_of r) = map Service (map myappExecutable ["web"; "worker"]) /\
  renamedOnto (trace_of r) = ["/data/pods/myapp/last"].
Proof. cbv zeta. repeat split; reflexivity. Qed.

(** * Installing *)

(** ** Install on a launchable that is not installed *)

Lemma run_Install_fresh {S : Type} (h : handler S) (s : S) (hl : Launchable)
    (version : string) (notThere : error) :
  Version hl = Ret version ->
  let dir := filepath.Join [RootDir hl; "installs"; version] in
  answer h (os_Stat dir) s = inr notThere ->
  let s1 := after h (os_Stat dir) s in
  let mktemp := ioutil_TempDir "" version in
  let s2 := after h mktemp s1 in
  run h (Install hl) s =
    match answer h mktemp s1 with
    | inr err =>
        (Returned (Some (Errorf
           "Could not create temporary directory to install %s: %s"
           [ArgString version; ArgError err])),
         [Event (os_Stat dir) (inr notThere); Event mktemp (inr err);
          Event (os_RemoveAll "") (answer h (os_RemoveAll "") s2)],
         after h (os_RemoveAll "") s2)
    | inl outDir =>
        let outPath := filepath.Join [outDir; version] in
        let fetch := FetchToFile (Location hl) outPath in
        let s3 := after h fetch s2 in
        let s4 := after h (os_Open outPath) s3 in
        match answer h fetch s2 with
        | Some e =>
            (Returned (Some e),
             [Event (os_Stat dir) (inr notThere); Event mktemp (inl outDir);
              Event fetch (Some e);
              Event (os_RemoveAll outDir) (answer h (os_RemoveAll outDir) s3)],
             after h (os_RemoveAll outDir) s3)
        | None =>
            match answer h (os_Open outPath) s3 with
            | inr e =>
                (Returned (Some e),
                 [Event (os_Stat dir) (inr notThere); Event mktemp (inl outDir);
                  Event fetch None; Event (os_Open outPath) (inr e);
                  Event (os_RemoveAll outDir)
                    (answer h (os_RemoveAll outDir) s4)],
                 after h (os_RemoveAll outDir) s4)
            | inl fd =>
                let '(o, t, s5) := run h (extractTarGz hl outPath fd dir) s4 in
                let s6 := after h (File_Close outPath) s5 in
                (o,
                 ([Event (os_Stat dir) (inr notThere);
                   Event mktemp (inl outDir); Event fetch None;
                   Event (os_Open outPath) (inl fd)]
                  ++ t
                  ++ [Event (File_Close outPath)
                        (answer h (File_Close outPath) s5);
                      Event (os_RemoveAll outDir)
                        (answer h (os_RemoveAll outDir) s6)])%list,
                 after h (os_RemoveAll outDir) s6)
            end
        end
    end.
Proof.
  intros Hv dir Hstat. cbv zeta.
  assert (Hdir : InstallDir hl = Ret dir)
    by (unfold InstallDir; now rewrite Hv).
  unfold Install. rewrite run_bind, (run_Installed h s hl dir Hdir), Hstat.
  cbv iota. rewrite !Hv. next_call.
  destruct (answer h (ioutil_TempDir "" version) _) as [outDir|err].
  2:{ next_call. reflexivity. }
  set (outPath := filepath.Join [outDir; version]).
  next_call. destruct (answer h (FetchToFile (Location hl) outPath) _) as [e|].
  { next_call. reflexivity. }
  next_call. destruct (answer h (os_Open outPath) _) as [fd|e].
  2:{ next_call. reflexivity. }
  rewrite Hdir. unfold_prog. rewrite !run_defer, run_bind.
  destruct (run h (extractTarGz hl outPath fd dir) _) as [[[[e|]|msg] t] s5];
    cbn [run fst snd app]; rewrite ?app_nil_r, <- ?app_assoc; reflexivity.
Qed.

(** ** What extraction creates, owns and closes *)

Lemma created_app (t1 t2 : list event) :
  created (t1 ++ t2) = (created t1 ++ created t2)%list.
Proof.
  induction t1 as [|[X c x] t1 IH]; [reflexivity|].
  destruct c; simpl; now rewrite IH.
Qed.

Lemma owned_app (uid gid : Z) (t1 t2 : list event) :
  owned uid gid (t1 ++ t2) = (owned uid gid t1 ++ owned uid gid t2)%list.
Proof.
  induction t1 as [|[X c x] t1 IH]; [reflexivity|].
  destruct c; cbn [app owned]; try exact IH;
    destruct x; try exact IH;
    destruct ((uid0 =? uid)%Z && (gid0 =? gid)%Z); cbn [app]; now rewrite IH.
Qed.

Lemma touchesLinks_app (t1 t2 : list event) :
  touchesLinks (t1 ++ t2) = touchesLinks t1 || touchesLinks t2.
Proof.
  induction t1 as [|[X c x] t1 IH]; [reflexivity|].
  destruct c; simpl; try exact IH; reflexivity.
Qed.

Lemma leftOpen_app (open : list string) (t1 t2 : list event) :
  leftOpen open (t1 ++ t2) = leftOpen (leftOpen open t1) t2.
Proof.
  revert open. induction t1 as [|[X c x] t1 IH]; intros open; [reflexivity|].
  destruct c; cbn [app leftOpen]; try apply IH; destruct x; apply IH.
Qed.

Lemma closesItsFiles_app (t1 t2 : list event) :
  closesItsFiles t1 -> closesItsFiles t2 -> closesItsFiles (t1 ++ t2).
Proof.
  intros H1 H2 open. rewrite leftOpen_app.
  eapply incl_tran; [apply H2 | apply H1].
Qed.

Lemma closesItsFiles_nil : closesItsFiles [].
Proof. intros open. apply incl_refl. Qed.

Lemma closes_after_open (path : string) (open : list string) :
  incl (filter (fun p => negb (p =? path)) (path :: open)) open.
Proof.
  cbn [filter]. rewrite String.eqb_refl. cbn [negb].
  intros p Hp. apply filter_In in Hp. tauto.
Qed.

Lemma closes_unopened (path : string) (open : list string) :
  incl (filter (fun p => negb (p =? path)) open) open.
Proof. intros p Hp. apply filter_In in Hp. tauto. Qed.

Ltac entry_calls :=
  unfold entryCalls, closesItsFiles;
  cbn [created leftOpen touchesLinks];
  repeat split;
  first [ now left | now right | reflexivity
        | intros; apply incl_refl
        | intros; apply closes_after_open
        | intros; apply closes_unopened ].

Section Entries.

Context {S : Type} (h : handler S) (hl : Launchable) (name dest : string)
  (uid gid : Z).

(** One turn of the extraction loop, with what it calls: a turn that
    stops has created at most the entry, a turn that goes on has created
    exactly the entry and has given it to [uid:gid] if it is a directory
    or a regular file. *)
Lemma extractEntries_turn (s : S) (hdr : tar.Header) (body : string)
    (rest : tarReader) :
  let fpath := entryPath dest hdr in
  (exists e t s',
      run h (extractEntries hl name dest uid gid (TarEntry hdr body rest)) s
        = (Returned (Some e), t, s') /\
      entryCalls fpath t /\
      (forall p, In p (owned uid gid t) -> p = fpath)) \/
  (exists (before : list event) (deferred : S -> list event) (fin : S -> S)
          (s1 : S),
      created before = [fpath] /\
      owned uid gid before = (if chownedEntry hdr then [fpath] else []) /\
      entryCalls fpath before /\
      (forall s2, created (deferred s2) = [] /\
                  owned uid gid (deferred s2) = [] /\
                  closesItsFiles (deferred s2) /\
                  touchesLinks (deferred s2) = false) /\
      run h (extractEntries hl name dest uid gid (TarEntry hdr body rest)) s =
        let '(o, t, s2) := run h (extractEntries hl name dest uid gid rest) s1 in
        (o, (before ++ t ++ deferred s2)%list, fin s2)).
Proof.
  cbv zeta. cbn [extractEntries]. unfold chownedEntry, entryPath.
  set (fpath := filepath.Join [dest; tar.Name hdr]).
  set (continue := extractEntries hl name dest uid gid rest).
  assert (Hids : ((uid =? uid)%Z && (gid =? gid)%Z) = true)
    by (now rewrite !Z.eqb_refl).
  destruct (Ascii.eqb (tar.Typeflag hdr) tar.TypeSymlink) eqn:Esym.
  { apply Typeflag_eqb in Esym. rewrite Esym.
    cbn [Ascii.eqb Bool.eqb tar.TypeSymlink tar.TypeDir tar.TypeReg
           tar.TypeRegA orb].
    next_call.
    destruct (answer h (os_Symlink (tar.Linkname hdr) fpath) s) as [e|] eqn:Ha.
    - left. ran_to_end. eexists _, _, _. split; [reflexivity|].
      split; [entry_calls | intros p []].
    - right. exists [Event (os_Symlink (tar.Linkname hdr) fpath) None],
        (fun _ => []), (fun s2 => s2),
        (after h (os_Symlink (tar.Linkname hdr) fpath) s).
      split; [reflexivity|]. split; [reflexivity|]. split; [entry_calls|].
      split; [intros s2; repeat split; apply closesItsFiles_nil|].
      destruct (run h continue _) as [[o t] s2]. cbn [app].
      now rewrite app_nil_r. }
  destruct (Ascii.eqb (tar.Typeflag hdr) tar.TypeLink) eqn:Elink.
  { apply Typeflag_eqb in Elink. rewrite Elink.
    cbn [Ascii.eqb Bool.eqb tar.TypeLink tar.TypeDir tar.TypeReg
           tar.TypeRegA orb].
    destruct (filepath.Rel _ _) as [linkTarget|msg].
    - next_call.
      destruct (answer h (os_Symlink linkTarget fpath) s) as [e|] eqn:Ha.
      + left. ran_to_end. eexists _, _, _. split; [reflexivity|].
        split; [entry_calls | intros p []].
      + right. exists [Event (os_Symlink linkTarget fpath) None],
          (fun _ => []), (fun s2 => s2),
          (after h (os_Symlink linkTarget fpath) s).
        split; [reflexivity|]. split; [reflexivity|]. split; [entry_calls|].
        split; [intros s2; repeat split; apply closesItsFiles_nil|].
        destruct (run h continue _) as [[o t] s2]. cbn [app].
        now rewrite app_nil_r.
    - left. ran_to_end. eexists _, _, _. split; [reflexivity|].
      split; [entry_calls | intros p []]. }
  destruct (Ascii.eqb (tar.Typeflag hdr) tar.TypeDir) eqn:Edir.
  { cbn [orb]. next_call. set (mk := os_Mkdir fpath (tar.Mode hdr)).
    destruct (notNilAnd _ (answer h mk s)) as [e|] eqn:Hmk.
    - left. ran_to_end. eexists _, _, _. split; [reflexivity|].
      split; [entry_calls | intros p []].
    - next_call.
      destruct (answer h (os_Chown fpath uid gid) _) as [e|].
      + left. ran_to_end. eexists _, _, _. split; [reflexivity|].
        split; [entry_calls | intros p []].
      + right. exists [Event mk (answer h mk s);
                       Event (os_Chown fpath uid gid) None],
          (fun _ => []), (fun s2 => s2),
          (after h (os_Chown fpath uid gid) (after h mk s)).
        split; [reflexivity|].
        split; [cbn [owned]; now rewrite Hids|]. split; [entry_calls|].
        split; [intros s2; repeat split; apply closesItsFiles_nil|].
        destruct (run h continue _) as [[o t] s2]. cbn [app].
        now rewrite app_nil_r. }
  cbn [orb].
  destruct (Ascii.eqb (tar.Typeflag hdr) tar.TypeReg
            || Ascii.eqb (tar.Typeflag hdr) tar.TypeRegA) eqn:Ereg.
  { next_call.
    set (s0 := after h (os_OpenFile fpath (tar.Mode hdr)) s).
    destruct (answer h (os_OpenFile fpath (tar.Mode hdr)) s) as [e|].
    - left. ran_to_end. eexists _, _, _. split; [reflexivity|].
      split; [entry_calls | intros p []].
    - next_call.
      destruct (answer h (File_Chown fpath uid gid) s0) as [e|].
      + left. next_call. ran_to_end. eexists _, _, _. split; [reflexivity|].
        split; [entry_calls | intros p []].
      + next_call.
        destruct (answer h (io_Copy fpath body) _) as [e|].
        * left. next_call. ran_to_end. eexists _, _, _.
          split; [reflexivity|]. split; [entry_calls|].
          cbn [owned]. rewrite Hids. intros p [<-|[]]. reflexivity.
        * next_call. rewrite run_defer. fold continue.
          right.
          exists [Event (os_OpenFile fpath (tar.Mode hdr)) None;
                  Event (File_Chown fpath uid gid) None;
                  Event (io_Copy fpath body) None;
                  Event (File_Close fpath)
                    (answer h (File_Close fpath)
                       (after h (io_Copy fpath body)
                          (after h (File_Chown fpath uid gid) s0)))],
            (fun s2 => [Event (File_Close fpath) (answer h (File_Close fpath) s2)]),
            (fun s2 => after h (File_Close fpath) s2),
            (after h (File_Close fpath)
               (after h (io_Copy fpath body)
                  (after h (File_Chown fpath uid gid) s0))).
          split; [reflexivity|].
          split; [cbn [owned]; now rewrite Hids|]. split; [entry_calls|].
          split.
          -- intros s2. repeat split. intros open. cbn [leftOpen].
             apply closes_unopened.
          -- destruct (run h continue _) as [[o t] s2]. reflexivity. }
  left. ran_to_end. eexists _, _, _. split; [reflexivity|].
  split; [entry_calls | intros p []].
Qed.

End Entries.

Lemma extractEntries_calls {S : Type} (h : handler S) (hl : Launchable)
    (name dest : string) (uid gid : Z) (tr : tarReader) :
  forall s,
    let r := run h (extractEntries hl name dest uid gid tr) s in
    (exists notReached,
        map (entryPath dest) (entries tr)
          = (created (trace_of r) ++ notReached)%list) /\
    closesItsFiles (trace_of r) /\
    touchesLinks (trace_of r) = false /\
    (outcome_of r = Returned None ->
     created (trace_of r) = map (entryPath dest) (entries tr) /\
     owned uid gid (trace_of r)
       = map (entryPath dest) (filter chownedEntry (entries tr))).
Proof.
  induction tr as [|err|hdr body rest IH]; intros s; cbv zeta.
  - repeat split; try (now exists []); apply closesItsFiles_nil.
  - repeat split; try (now exists []); try apply closesItsFiles_nil;
      discriminate.
  - destruct (extractEntries_turn h hl name dest uid gid s hdr body rest)
      as [(e & t & s' & Hrun & (Hcreated & Hcloses & Hlinks) & _)
         |(before & deferred & fin & s1 & Hcreated & Howned
             & (_ & Hcloses & Hlinks) & Hdeferred & Hrun)];
      rewrite Hrun; clear Hrun.
    + unfold trace_of, outcome_of. cbn [fst snd entries map].
      repeat split; try assumption; try discriminate.
      destruct Hcreated as [-> | ->]; eexists; reflexivity.
    + specialize (IH s1). cbv zeta in IH.
      destruct (run h (extractEntries hl name dest uid gid rest) s1)
        as [[o t] s2].
      destruct (Hdeferred s2) as (Hdc & Hdo & Hdcl & Hdl).
      unfold trace_of, outcome_of in *. cbn [fst snd entries map filter] in *.
      destruct IH as ((notReached & Hprefix) & Hcl & Hl & Hok).
      rewrite !created_app, !owned_app, !touchesLinks_app.
      rewrite Hcreated, Howned, Hdc, Hdo, Hlinks, Hl, Hdl, !app_nil_r.
      repeat split.
      * exists notReached. cbn [app]. now rewrite Hprefix.
      * apply closesItsFiles_app; [assumption|].
        apply closesItsFiles_app; assumption.
      * match goal with Ho : o = Returned None |- _ =>
          destruct (Hok Ho) as [Hc _] end.
        cbn [app]. now rewrite Hc.
      * match goal with Ho : o = Returned None |- _ =>
          destruct (Hok Ho) as [_ How] end.
        rewrite How. destruct (chownedEntry hdr); reflexivity.
Qed.

(** X15.  Extraction creates the entries of the archive and nothing else:
    the paths it asks to create (as symlink, directory or file) are, in
    the order of the archive, the names of the entries under [dest], up
    to the entry where it stopped; when it returns [nil] they are the
    names of all entries. *)
Theorem extraction_creates_the_entries {S : Type} (h : handler S) (s : S)
    (hl : Launchable) (name dest : string) (uid gid : Z) (tr : tarReader) :
  let r := run h (extractEntries hl name dest uid gid tr) s in
  (exists notReached,
      map (fun hdr => filepath.Join [dest; tar.Name hdr]) (entries tr)
        = (created (trace_of r) ++ notReached)%list) /\
  (outcome_of r = Returned None ->
   created (trace_of r)
     = map (fun hdr => filepath.Join [dest; tar.Name hdr]) (entries tr)).
Proof.
  cbv zeta.
  destruct (extractEntries_calls h hl name dest uid gid tr s)
    as (Hprefix & _ & _ & Hok).
  split; [exact Hprefix|]. intros Ho. now destruct (Hok Ho).
Qed.

Lemma extraction_creates_the_entries_witness :
  created
    (trace_of
       (run (stateless allGood)
          (extractEntries myapp "/tmp/myapp_1.2.3042/myapp_1.2.3"
             "/data/pods/myapp/installs/myapp_1.2.3" 1000 1000 smallArtifact)
          tt))
    = ["/data/pods/myapp/installs/myapp_1.2.3/bin";
       "/data/pods/myapp/installs/myapp_1.2.3/a/c/link"].
Proof.
  exact (proj2 (extraction_creates_the_entries (stateless allGood) tt myapp
                  "/tmp/myapp_1.2.3042/myapp_1.2.3"
                  "/data/pods/myapp/installs/myapp_1.2.3" 1000 1000
                  smallArtifact)
           eq_refl).
Defined.

(** X16.  An extraction that returns [nil] has given every directory and
    every regular file of the archive to the user it was run for, and
    these only.  Extraction never calls [os.Lchown] or [os.Rename]: the
    symlinks it makes, those that stand for hardlinks too, keep the owner
    they were created with. *)
Theorem extraction_owns_directories_and_files {S : Type} (h : handler S)
    (s : S) (hl : Launchable) (name dest : string) (uid gid : Z)
    (tr : tarReader) :
  let r := run h (extractEntries hl name dest uid gid tr) s in
  touchesLinks (trace_of r) = false /\
  (outcome_of r = Returned None ->
   owned uid gid (trace_of r)
     = map (fun hdr => filepath.Join [dest; tar.Name hdr])
         (filter chownedEntry (entries tr))).
Proof.
  cbv zeta.
  destruct (extractEntries_calls h hl name dest uid gid tr s)
    as (_ & _ & Hlinks & Hok).
  split; [exact Hlinks|]. intros Ho. now destruct (Hok Ho).
Qed.

Lemma extraction_owns_directories_and_files_witness :
  owned 1000 1000
    (trace_of
       (run (stateless allGood)
          (extractEntries myapp "/tmp/myapp_1.2.3042/myapp_1.2.3"
             "/data/pods/myapp/installs/myapp_1.2.3" 1000 1000 smallArtifact)
          tt))
    = ["/data/pods/myapp/installs/myapp_1.2.3/bin"].
Proof.
  exact (proj2 (extraction_owns_directories_and_files (stateless allGood) tt
                  myapp "/tmp/myapp_1.2.3042/myapp_1.2.3"
                  "/data/pods/myapp/installs/myapp_1.2.3" 1000 1000
                  smallArtifact)
           eq_refl).
Defined.

Lemma extractTarGz_closes {S : Type} (h : handler S) (s : S) (hl : Launchable)
    (name dest : string) (fp : gzipReader) :
  closesItsFiles (trace_of (run h (extractTarGz hl name fp dest) s)).
Proof.
  unfold extractTarGz. destruct fp as [tr|err];
    [|apply closesItsFiles_nil].
  next_call. destruct (answer h (user_IDs (RunAs hl)) s) as [[uid gid]|e].
  2:{ intros open. apply incl_refl. }
  next_call.
  destruct (answer h (util_MkdirChownAll dest uid gid 493) _) as [e|].
  { intros open. apply incl_refl. }
  next_call. destruct (answer h (os_Chown dest uid gid) _) as [e|].
  { intros open. apply incl_refl. }
  match goal with |- context [run h (extractEntries hl name dest uid gid tr) ?s0] =>
    destruct (extractEntries_calls h hl name dest uid gid tr s0)
      as (_ & Hcl & _);
    destruct (run h (extractEntries hl name dest uid gid tr) s0) as [[o t] s2]
  end.
  unfold trace_of in *. cbn [fst snd] in *.
  intros open. cbn [leftOpen]. apply Hcl.
Qed.

Lemma only_one_path_left (path : string) (open : list string) :
  incl open [path] -> filter (fun p => negb (p =? path)) open = [].
Proof.
  induction open as [|p open IH]; [reflexivity|].
  intros Hincl. cbn [filter].
  assert (Hp : p = path).
  { destruct (Hincl p (or_introl eq_refl)) as [Hp|[]]. now symmetry. }
  subst p. rewrite String.eqb_refl. cbn [negb]. apply IH.
  intros q Hq. apply Hincl. now right.
Qed.

(** X17.  [Install] leaves no file open: on every host and whatever way it
    ends, each [os.Open] and [os.OpenFile] that succeeded during the run
    (the fetched artifact, every regular file unpacked) is followed by a
    [Close] of that file. *)
Theorem Install_closes_its_files {S : Type} (h : handler S) (s : S)
    (hl : Launchable) :
  leftOpen [] (trace_of (run h (Install hl) s)) = [].
Proof.
  destruct (Version_then_InstallDir hl) as [(version & Hv & Hd)|[Hv Hd]].
  2:{ unfold Install, Installed. rewrite Hd. reflexivity. }
  set (dir := filepath.Join [RootDir hl; "installs"; version]) in *.
  destruct (answer h (os_Stat dir) s) as [info|notThere] eqn:Hstat.
  { unfold Install. rewrite run_bind, (run_Installed h s hl dir Hd), Hstat.
    reflexivity. }
  rewrite (run_Install_fresh h s hl version notThere Hv Hstat). cbv zeta.
  fold dir.
  destruct (answer h (ioutil_TempDir "" version) _) as [outDir|err];
    [|reflexivity].
  destruct (answer h (FetchToFile _ _) _) as [e|]; [reflexivity|].
  destruct (answer h (os_Open _) _) as [fd|e]; [|reflexivity].
  match goal with |- context [run h (extractTarGz hl ?p fd dir) ?s0] =>
    pose proof (extractTarGz_closes h s0 hl p dir fd) as Hcl;
    destruct (run h (extractTarGz hl p fd dir) s0) as [[o t] s5]
  end.
  unfold trace_of in *. cbn [fst snd app leftOpen] in *.
  rewrite leftOpen_app. cbn [leftOpen].
  apply only_one_path_left. apply Hcl.
Qed.

(** X18.  An [Install] that cannot make its temporary directory, cannot
    fetch the artifact or cannot open what was fetched returns the error
    (the first wrapped, the other two as they are) and ends by removing
    the temporary directory; nothing is unpacked.  The removal is
    deferred before the error of [ioutil.TempDir] is looked at, so when no
    directory was made [os.RemoveAll] is called on the empty path. *)
Theorem Install_gives_up_and_cleans {S : Type} (h : handler S) (s : S)
    (hl : Launchable) (version : string) (notThere : error) :
  Version hl = Ret version ->
  let dir := filepath.Join [RootDir hl; "installs"; version] in
  answer h (os_Stat dir) s = inr notThere ->
  let s1 := after h (os_Stat dir) s in
  let mktemp := ioutil_TempDir "" version in
  let s2 := after h mktemp s1 in
  (forall err,
      answer h mktemp s1 = inr err ->
      run h (Install hl) s =
        (Returned (Some (Errorf
           "Could not create temporary directory to install %s: %s"
           [ArgString version; ArgError err])),
         [Event (os_Stat dir) (inr notThere); Event mktemp (inr err);
          Event (os_RemoveAll "") (answer h (os_RemoveAll "") s2)],
         after h (os_RemoveAll "") s2)) /\
  (forall outDir,
      answer h mktemp s1 = inl outDir ->
      let outPath := filepath.Join [outDir; version] in
      let fetch := FetchToFile (Location hl) outPath in
      let s3 := after h fetch s2 in
      let s4 := after h (os_Open outPath) s3 in
      (forall e,
          answer h fetch s2 = Some e ->
          run h (Install hl) s =
            (Returned (Some e),
             [Event (os_Stat dir) (inr notThere); Event mktemp (inl outDir);
              Event fetch (Some e);
              Event (os_RemoveAll outDir) (answer h (os_RemoveAll outDir) s3)],
             after h (os_RemoveAll outDir) s3)) /\
      (forall e,
          answer h fetch s2 = None ->
          answer h (os_Open outPath) s3 = inr e ->
          run h (Install hl) s =
            (Returned (Some e),
             [Event (os_Stat dir) (inr notThere); Event mktemp (inl outDir);
              Event fetch None; Event (os_Open outPath) (inr e);
              Event (os_RemoveAll outDir) (answer h (os_RemoveAll outDir) s4)],
             after h (os_RemoveAll outDir) s4))).
Proof.
  intros Hv dir Hstat s1 mktemp s2.
  pose proof (run_Install_fresh h s hl version notThere Hv Hstat) as Hrun.
  cbv zeta in Hrun. fold dir in Hrun. fold s1 in Hrun. fold mktemp in Hrun.
  fold s2 in Hrun. split.
  - intros err Herr. now rewrite Hrun, Herr.
  - intros outDir HoutDir. cbv zeta. rewrite HoutDir in Hrun. split.
    + intros e He. now rewrite Hrun, He.
    + intros e Hfetch Hopen. now rewrite Hrun, Hfetch, Hopen.
Qed.

Lemma Install_gives_up_and_cleans_witness :
  run (stateless fetchFails) (Install myapp) tt =
    (Returned (Some (errorString
       "404 Not Found: http://repo/artifacts/myapp_1.2.3.tar.gz")),
     [Event (os_Stat "/data/pods/myapp/installs/myapp_1.2.3")
        (inr (noSuchFile "stat" "/data/pods/myapp/installs/myapp_1.2.3"));
      Event (ioutil_TempDir "" "myapp_1.2.3") (inl "/tmp/myapp_1.2.3042");
      Event (FetchToFile "http://repo/artifacts/myapp_1.2.3.tar.gz"
               "/tmp/myapp_1.2.3042/myapp_1.2.3")
        (Some (errorString
           "404 Not Found: http://repo/artifacts/myapp_1.2.3.tar.gz"));
      Event (os_RemoveAll "/tmp/myapp_1.2.3042") None],
     tt).
Proof.
  exact (proj1 (proj2 (Install_gives_up_and_cleans (stateless fetchFails) tt
                         myapp "myapp_1.2.3"
                         (noSuchFile "stat"
                            "/data/pods/myapp/installs/myapp_1.2.3")
                         eq_refl eq_refl)
                  "/tmp/myapp_1.2.3042" eq_refl)
           (errorString
              "404 Not Found: http://repo/artifacts/myapp_1.2.3.tar.gz")
           eq_refl).
Defined.

(** X19.  An [Install] that gets to open the fetched artifact does these
    calls in this order: the stat of the install directory, the creation
    of a temporary directory named after the version, the fetch of the
    location into the file [<version>] in it, the opening of that file,
    the calls of [extractTarGz] into the install directory, the closing
    of the file and the removal of the temporary directory.  It ends as
    [extractTarGz] ends, with its error unchanged. *)
Theorem Install_fetches_then_extracts {S : Type} (h : handler S) (s : S)
    (hl : Launchable) (version outDir : string) (notThere : error)
    (fd : gzipReader) :
  Version hl = Ret version ->
  let dir := filepath.Join [RootDir hl; "installs"; version] in
  answer h (os_Stat dir) s = inr notThere ->
  let s1 := after h (os_Stat dir) s in
  let mktemp := ioutil_TempDir "" version in
  let s2 := after h mktemp s1 in
  answer h mktemp s1 = inl outDir ->
  let outPath := filepath.Join [outDir; version] in
  let fetch := FetchToFile (Location hl) outPath in
  let s3 := after h fetch s2 in
  answer h fetch s2 = None ->
  answer h (os_Open outPath) s3 = inl fd ->
  let extraction :=
    run h (extractTarGz hl outPath fd dir) (after h (os_Open outPath) s3) in
  outcome_of (run h (Install hl) s) = outcome_of extraction /\
  exists closed removed,
    trace_of (run h (Install hl) s) =
      ([Event (os_Stat dir) (inr notThere); Event mktemp (inl outDir);
        Event fetch None; Event (os_Open outPath) (inl fd)]
       ++ trace_of extraction
       ++ [Event (File_Close outPath) closed;
           Event (os_RemoveAll outDir) removed])%list.
Proof.
  intros Hv dir Hstat s1 mktemp s2 HoutDir outPath fetch s3 Hfetch Hopen.
  cbv zeta.
  rewrite (run_Install_fresh h s hl version notThere Hv Hstat). cbv zeta.
  fold dir. fold s1. fold mktemp. fold s2. rewrite HoutDir.
  fold outPath. fold fetch. fold s3. rewrite Hfetch, Hopen.
  destruct (run h (extractTarGz hl outPath fd dir) _) as [[o t] s5].
  split; [reflexivity|]. eexists _, _. reflexivity.
Qed.

Lemma Install_fetches_then_extracts_witness :
  outcome_of (run (stateless fifoArtifact) (Install myapp) tt)
    = outcome_of
        (run (stateless fifoArtifact)
           (extractTarGz myapp "/tmp/myapp_1.2.3042/myapp_1.2.3"
              (inl (TarEntry binDirEntry "" (TarEntry fifoEntry "" TarEOF)))
              "/data/pods/myapp/installs/myapp_1.2.3") tt).
Proof.
  exact (proj1 (Install_fetches_then_extracts (stateless fifoArtifact) tt
                  myapp "myapp_1.2.3" "/tmp/myapp_1.2.3042"
                  (noSuchFile "stat" "/data/pods/myapp/installs/myapp_1.2.3")
                  (inl (TarEntry binDirEntry "" (TarEntry fifoEntry "" TarEOF)))
                  eq_refl eq_refl eq_refl eq_refl eq_refl)).
Defined.

(** ** extractTarGz before the first entry *)

(** X20.  [extractTarGz] makes the root before it reads an entry: it looks
    up the ids of the run-as user, creates [dest] with its parents for
    them with mode 0755, and chowns [dest]; only then the entries are
    unpacked, with those ids.  A gzip error is returned wrapped before
    any call; a failed lookup is returned as it is; a failed creation or
    chown of the root is returned wrapped; in each case nothing of the
    archive has been created. *)
Theorem extractTarGz_makes_the_root_first {S : Type} (h : handler S) (s : S)
    (hl : Launchable) (name dest : string) :
  (forall err,
      run h (extractTarGz hl name (inr err) dest) s =
        (Returned (Some (Errorf "Unable to create gzip reader: %s"
                           [ArgError err])), [], s)) /\
  (forall tr,
      let ids := user_IDs (RunAs hl) in
      let s1 := after h ids s in
      match answer h ids s with
      | inr e =>
          run h (extractTarGz hl name (inl tr) dest) s =
            (Returned (Some e), [Event ids (inr e)], s1)
      | inl (uid, gid) =>
          let mkroot := util_MkdirChownAll dest uid gid 493 in
          let s2 := after h mkroot s1 in
          let chown := os_Chown dest uid gid in
          match answer h mkroot s1 with
          | Some e =>
              run h (extractTarGz hl name (inl tr) dest) s =
                (Returned (Some (Errorf
                   "Unable to create root directory %s when unpacking %s: %s"
                   [ArgString dest; ArgString name; ArgError e])),
                 [Event ids (inl (uid, gid)); Event mkroot (Some e)], s2)
          | None =>
              match answer h chown s2 with
              | Some e =>
                  run h (extractTarGz hl name (inl tr) dest) s =
                    (Returned (Some (Errorf
                       "Unable to chown root directory %s to %s when unpacking %s: %s"
                       [ArgString dest; ArgString (RunAs hl); ArgString name;
                        ArgError e])),
                     [Event ids (inl (uid, gid)); Event mkroot None;
                      Event chown (Some e)],
                     after h chown s2)
              | None =>
                  run h (extractTarGz hl name (inl tr) dest) s =
                    let '(o, t, s') :=
                      run h (extractEntries hl name dest uid gid tr)
                        (after h chown s2) in
                    (o,
                     Event ids (inl (uid, gid)) :: Event mkroot None
                       :: Event chown None :: t,
                     s')
              end
          end
      end).
Proof.
  split; [reflexivity|]. intros tr. cbv zeta. unfold extractTarGz. next_call.
  destruct (answer h (user_IDs (RunAs hl)) s) as [[uid gid]|e];
    [|reflexivity].
  next_call.
  destruct (answer h (util_MkdirChownAll dest uid gid 493) _) as [e|];
    [reflexivity|].
  next_call.
  destruct (answer h (os_Chown dest uid gid) _) as [e|]; [reflexivity|].
  destruct (run h (extractEntries hl name dest uid gid tr) _) as [[o t] s'].
  reflexivity.
Qed.

(** ** Directory entries *)

(** X21.  A directory entry whose directory is there already is no error:
    when [os.Mkdir] fails with an error that [os.IsExist] accepts, the
    directory is chowned all the same and the loop goes on; any other
    error of [os.Mkdir] ends the extraction before the chown. *)
Theorem directory_entry_may_exist {S : Type} (h : handler S) (s : S)
    (hl : Launchable) (name dest : string) (uid gid : Z) (hdr : tar.Header)
    (body : string) (rest : tarReader) (e : error) :
  tar.Typeflag hdr = tar.TypeDir ->
  let fpath := filepath.Join [dest; tar.Name hdr] in
  let mkdir := os_Mkdir fpath (tar.Mode hdr) in
  answer h mkdir s = Some e ->
  let chown := os_Chown fpath uid gid in
  (os.IsExist e = true ->
   answer h chown (after h mkdir s) = None ->
   run h (extractEntries hl name dest uid gid (TarEntry hdr body rest)) s =
     let '(o, t, s') :=
       run h (extractEntries hl name dest uid gid rest)
         (after h chown (after h mkdir s)) in
     (o, Event mkdir (Some e) :: Event chown None :: t, s')) /\
  (os.IsExist e = false ->
   run h (extractEntries hl name dest uid gid (TarEntry hdr body rest)) s =
     (Returned (Some (Errorf
        "Unable to create destination directory %s when unpacking %s: %s"
        [ArgString fpath; ArgString name; ArgError e])),
      [Event mkdir (Some e)], after h mkdir s)).
Proof.
  intros Hflag fpath mkdir Hmk chown. cbn [extractEntries]. rewrite Hflag.
  cbn [Ascii.eqb Bool.eqb tar.TypeDir tar.TypeSymlink tar.TypeLink].
  fold fpath. next_call. fold mkdir. rewrite Hmk. cbn [notNilAnd]. split.
  - intros Hex Hch. rewrite Hex. cbn [negb]. next_call. fold chown.
    rewrite Hch.
    destruct (run h (extractEntries hl name dest uid gid rest) _)
      as [[o t] s']. reflexivity.
  - intros Hex. rewrite Hex. reflexivity.
Qed.

Lemma directory_entry_may_exist_witness :
  run (stateless dirsExist)
    (extractEntries myapp "/tmp/myapp_1.2.3042/myapp_1.2.3"
       "/data/pods/myapp/installs/myapp_1.2.3" 1000 1000
       (TarEntry binDirEntry "" TarEOF)) tt =
    (Returned None,
     [Event (os_Mkdir "/data/pods/myapp/installs/myapp_1.2.3/bin" 493)
        (Some (PathError "mkdir" "/data/pods/myapp/installs/myapp_1.2.3/bin"
                 os.EEXIST));
      Event (os_Chown "/data/pods/myapp/installs/myapp_1.2.3/bin" 1000 1000)
        None],
     tt).
Proof.
  exact (proj1 (directory_entry_may_exist (stateless dirsExist) tt myapp
                  "/tmp/myapp_1.2.3042/myapp_1.2.3"
                  "/data/pods/myapp/installs/myapp_1.2.3" 1000 1000
                  binDirEntry "" TarEOF
                  (PathError "mkdir"
                     "/data/pods/myapp/installs/myapp_1.2.3/bin" os.EEXIST)
                  eq_refl eq_refl)
           eq_refl eq_refl).
Defined.

(** * Versions, hooks and manifests *)

(** ** Version, whatever the suffix *)

(** X22.  [Version] does not look at the suffix it strips: whatever the
    last seven bytes of the base name are, they are cut off and the rest
    is the version. *)
Theorem Version_cuts_seven_bytes (hl : Launchable) (stem suffix : string) :
  filepath.Base (Location hl) = stem ++ suffix ->
  String.length suffix = 7%nat ->
  Version hl = Ret stem /\
  InstallDir hl = Ret (filepath.Join [RootDir hl; "installs"; stem]).
Proof.
  intros Hbase Hlen.
  assert (Hv : Version hl = Ret stem).
  { unfold Version. rewrite Hbase.
    replace (len ".tar.gz") with (len suffix)
      by (unfold len; rewrite Hlen; reflexivity).
    now rewrite slice_to_strips_suffix. }
  split; [exact Hv|]. unfold InstallDir. now rewrite Hv.
Qed.

Lemma Version_cuts_seven_bytes_witness :
  Version zipped = Ret "myapp_1." /\
  InstallDir zipped = Ret "/data/pods/myapp/installs/myapp_1.".
Proof.
  exact (Version_cuts_seven_bytes zipped "myapp_1." "2.3.zip" eq_refl eq_refl).
Defined.

Lemma noSeparator_afterLastSeparator (s : string) :
  match filepath.afterLastSeparator s with
  | Some tail => noSeparator tail = true
  | None => noSeparator s = true
  end.
Proof.
  induction s as [|c s IH]; [reflexivity|].
  cbn [filepath.afterLastSeparator noSeparator].
  destruct (filepath.afterLastSeparator s) as [tail|]; [exact IH|].
  destruct (filepath.IsPathSeparator c); [exact IH|]. exact IH.
Qed.

Lemma noSeparator_substring (s : string) (n : nat) :
  noSeparator s = true -> noSeparator (substring 0 n s) = true.
Proof.
  revert n. induction s as [|c s IH]; intros n H.
  - destruct n; reflexivity.
  - cbn [noSeparator] in H. apply andb_prop in H. destruct H as [Hc Hs].
    destruct n as [|n]; [reflexivity|].
    cbn [substring noSeparator]. rewrite Hc. now apply IH.
Qed.

Lemma Base_one_element (path : string) :
  filepath.Base path = "/" \/ noSeparator (filepath.Base path) = true.
Proof.
  unfold filepath.Base.
  destruct (path =? ""); [now right|].
  pose proof (noSeparator_afterLastSeparator
                (filepath.stripTrailingSeparators path)) as H.
  destruct (filepath.afterLastSeparator (filepath.stripTrailingSeparators path))
    as [tail|].
  - destruct (tail =? ""); [now left | now right].
  - destruct (filepath.stripTrailingSeparators path =? ""); [now left | now right].
Qed.

(** X23.  A version is one path element: whenever [Version] returns, what
    it returns holds no separator, whatever the location is. *)
Theorem Version_has_no_separator (hl : Launchable) (version : string) :
  Version hl = Ret version -> noSeparator version = true.
Proof.
  unfold Version, slice_to. intros H.
  destruct (Base_one_element (Location hl)) as [Hroot|Hnone].
  - rewrite Hroot in H. discriminate.
  - destruct ((_ <? 0)%Z || _); [discriminate|].
    injection H as <-. now apply noSeparator_substring.
Qed.

Lemma Version_has_no_separator_witness :
  noSeparator "myapp_1.2.3" = true.
Proof.
  exact (Version_has_no_separator myapp "myapp_1.2.3" eq_refl).
Defined.

(** ** Hooks that are there *)

(** X25.  A hook that is there and runs without error returns what it
    printed and [nil].  The command is the launchable's [chpst] with
    [-u <RunAs> -e <ConfigDir>] and the path of the script. *)
Theorem hooks_successful_script {S : Type} (h : handler S) (s : S)
    (hl : Launchable) (dir script : string)
    (hook : prog (string * option error)) (info : os.FileInfo)
    (output : string) :
  InstallDir hl = Ret dir ->
  In (script, hook) (hooks hl) ->
  let cmdPath := filepath.Join [dir; "bin"; script] in
  let cmd := cmd_Run (Chpst hl) ["-u"; RunAs hl; "-e"; ConfigDir hl; cmdPath] in
  answer h (os_Stat cmdPath) s = inl info ->
  answer h cmd (after h (os_Stat cmdPath) s) = (output, None) ->
  run h hook s =
    (Returned (output, None),
     [Event (os_Stat cmdPath) (inl info); Event cmd (output, None)],
     after h cmd (after h (os_Stat cmdPath) s)).
Proof.
  intros Hdir Hin cmdPath cmd Hstat Hrun.
  rewrite (run_hooks h s hl script hook Hin).
  rewrite (run_invokeBinScript h s hl script dir Hdir). cbv zeta.
  fold cmdPath. fold cmd. now rewrite Hstat, Hrun.
Qed.

Lemma hooks_successful_script_witness :
  run (stateless hooksTalk) (Enable myapp) tt =
    (Returned ("registered", None),
     [Event (os_Stat "/data/pods/myapp/installs/myapp_1.2.3/bin/enable")
        (inl {| os.Name := "enable"; os.IsDir := false |});
      Event (cmd_Run "/usr/bin/chpst"
               ["-u"; "app"; "-e"; "/etc/myapp";
                "/data/pods/myapp/installs/myapp_1.2.3/bin/enable"])
        ("registered", None)],
     tt).
Proof.
  apply (hooks_successful_script (stateless hooksTalk) tt myapp
           "/data/pods/myapp/installs/myapp_1.2.3" "enable" (Enable myapp)
           {| os.Name := "enable"; os.IsDir := false |} "registered"
           InstallDir_myapp).
  - simpl. auto.
  - reflexivity.
  - reflexivity.
Defined.

(** ** AppManifest *)

Lemma run_AppManifest_installed {S : Type} (h : handler S) (s : S)
    (hl : Launchable) (dir : string) (info : os.FileInfo) :
  InstallDir hl = Ret dir ->
  answer h (os_Stat dir) s = inl info ->
  let yaml := filepath.Join [dir; "app-manifest.yaml"] in
  let yml := filepath.Join [dir; "app-manifest.yml"] in
  let s1 := after h (os_Stat dir) s in
  let s2 := after h (os_Stat yaml) s1 in
  run h (AppManifest hl) s =
    if statNotExist (answer h (os_Stat yaml) s1) then
      (Returned
         (if statNotExist (answer h (os_Stat yml) s2) then
            inr (Errorf "No app manifest was found in the Hoist launchable %s"
                   [ArgString (Id hl)])
          else inl yml),
       [Event (os_Stat dir) (inl info);
        Event (os_Stat yaml) (answer h (os_Stat yaml) s1);
        Event (os_Stat yml) (answer h (os_Stat yml) s2)],
       after h (os_Stat yml) s2)
    else
      (Returned (inl yaml),
       [Event (os_Stat dir) (inl info);
        Event (os_Stat yaml) (answer h (os_Stat yaml) s1)],
       s2).
Proof.
  intros Hdir Hinfo. cbv zeta. unfold AppManifest.
  rewrite run_bind, (run_Installed h s hl dir Hdir), Hinfo.
  cbn [negb]. cbv iota. rewrite Hdir. next_call.
  destruct (statNotExist (answer h (os_Stat (filepath.Join [dir; "app-manifest.yaml"])) _));
    [|reflexivity].
  next_call.
  destruct (statNotExist (answer h (os_Stat (filepath.Join [dir; "app-manifest.yml"])) _));
    reflexivity.
Qed.

(** X26.  Which manifest [AppManifest] reads.  On an installed launchable
    it hands [app-manifest.yaml] to the parser unless the stat of that
    file says it does not exist; then it hands over [app-manifest.yml],
    unless that does not exist either, which is the error [No app
    manifest was found].  A stat that fails for another reason does not
    stop it: the parser is called on that path all the same.  On a
    launchable that is not installed the error is [has not been installed
    yet] and no manifest is looked for. *)
Theorem AppManifest_prefers_yaml {S : Type} (h : handler S) (s : S)
    (hl : Launchable) (dir : string) :
  InstallDir hl = Ret dir ->
  let yaml := filepath.Join [dir; "app-manifest.yaml"] in
  let yml := filepath.Join [dir; "app-manifest.yml"] in
  let s1 := after h (os_Stat dir) s in
  let s2 := after h (os_Stat yaml) s1 in
  (forall err,
      answer h (os_Stat dir) s = inr err ->
      run h (AppManifest hl) s =
        (Returned (inr (Errorf "%s has not been installed yet"
                          [ArgString (Id hl)])),
         [Event (os_Stat dir) (inr err)], s1)) /\
  (forall info,
      answer h (os_Stat dir) s = inl info ->
      (statNotExist (answer h (os_Stat yaml) s1) = false ->
       outcome_of (run h (AppManifest hl) s) = Returned (inl yaml)) /\
      (statNotExist (answer h (os_Stat yaml) s1) = true ->
       statNotExist (answer h (os_Stat yml) s2) = false ->
       outcome_of (run h (AppManifest hl) s) = Returned (inl yml)) /\
      (statNotExist (answer h (os_Stat yaml) s1) = true ->
       statNotExist (answer h (os_Stat yml) s2) = true ->
       outcome_of (run h (AppManifest hl) s)
         = Returned (inr (Errorf
             "No app manifest was found in the Hoist launchable %s"
             [ArgString (Id hl)])))).
Proof.
  intros Hdir yaml yml s1 s2. split.
  - intros err Herr. unfold AppManifest.
    rewrite run_bind, (run_Installed h s hl dir Hdir), Herr. reflexivity.
  - intros info Hinfo.
    pose proof (run_AppManifest_installed h s hl dir info Hdir Hinfo) as Hrun.
    cbv zeta in Hrun. fold yaml in Hrun. fold yml in Hrun. fold s1 in Hrun.
    fold s2 in Hrun. rewrite Hrun. repeat split.
    + intros ->. reflexivity.
    + intros -> ->. reflexivity.
    + intros -> ->. reflexivity.
Qed.

Lemma AppManifest_prefers_yaml_witness :
  outcome_of (run (stateless manifestYml) (AppManifest myapp) tt)
    = Returned (inl "/data/pods/myapp/installs/myapp_1.2.3/app-manifest.yml").
Proof.
  exact (proj1 (proj2 (proj2 (AppManifest_prefers_yaml (stateless manifestYml)
                                tt myapp
                                "/data/pods/myapp/installs/myapp_1.2.3"
                                InstallDir_myapp)
                         {| os.Name := "myapp_1.2.3"; os.IsDir := false |}
                         eq_refl))
           eq_refl eq_refl).
Defined.

Example AppManifest_reads_what_it_cannot_stat :
  outcome_of (run (stateless manifestUnreadable) (AppManifest myapp) tt)
    = Returned (inl "/data/pods/myapp/installs/myapp_1.2.3/app-manifest.yaml").
Proof. reflexivity. Qed.
